(** * Documentation tools: scan, generate, parse, account, write

  A shallow embedding of the three documentation pipelines
  ([class-diagram.py], [code-explanation.py], [use-case.py]).

  - Python [str] is a list of Unicode code points ([list N]).
  - Python [float] is IEEE 754 binary64, through the Standard Library's
    [spec_float] operations at precision 53 and maximal exponent 1024.
  - Python exceptions are a [result] type; [try]/[except Exception] is an
    explicit combinator.
  - Every call that leaves the program (file system, language model, image
    and document libraries, logging) is an oracle of the [World] record and
    leaves an [event] in the trace of the run. *)

From Stdlib Require Import ZArith NArith List String Ascii Bool Lia.
From Stdlib Require Import DecimalString.
From Stdlib Require Import SpecFloat.
Import ListNotations.

Set Implicit Arguments.

(* ===================================================================== *)
(** * Python values *)
(* ===================================================================== *)

Module Py.

(** A Python [str]: a sequence of code points. *)
Definition str := list N.

(** A literal of the source, as code points. *)
Definition py (s : string) : str := map N_of_ascii (list_ascii_of_string s).

Definition str_eqb (a b : str) : bool :=
  if list_eq_dec N.eq_dec a b then true else false.

(** [x in xs] for a list of strings. *)
Definition str_in (x : str) (xs : list str) : bool := existsb (str_eqb x) xs.

(** [s.startswith(p)]. *)
Fixpoint startswith (s p : str) : bool :=
  match p, s with
  | [], _ => true
  | _ :: _, [] => false
  | a :: p', b :: s' => N.eqb a b && startswith s' p'
  end.

(** [s.endswith(p)]. *)
Definition endswith (s p : str) : bool := startswith (rev s) (rev p).

(** The first occurrence of a non-empty [sep] in [s]: the text before it and
    the text after it. *)
Fixpoint partition (sep s : str) : option (str * str) :=
  if startswith s sep then Some ([], skipn (List.length sep) s)
  else match s with
       | [] => None
       | c :: s' =>
           match partition sep s' with
           | Some (a, b) => Some (c :: a, b)
           | None => None
           end
       end.

(** [sub in s]. *)
Definition contains (s sub : str) : bool :=
  match partition sub s with Some _ => true | None => false end.

(** [s.split(sep, 1)] for a non-empty [sep]. *)
Definition split1 (sep s : str) : list str :=
  match partition sep s with
  | Some (a, b) => [a; b]
  | None => [s]
  end.

(** [s.replace(old, new)]: the occurrences of [old] are found from the left
    and do not overlap; [skip] counts the characters of a found occurrence
    that are still to be dropped. *)
Fixpoint replace_from (old new : str) (skip : nat) (s : str) : str :=
  match s with
  | [] => []
  | c :: s' =>
      match skip with
      | S k => replace_from old new k s'
      | O =>
          if startswith s old
          then new ++ replace_from old new (List.length old - 1) s'
          else c :: replace_from old new 0 s'
      end
  end.

Definition replace (old new s : str) : str :=
  match old with
  | [] => new ++ flat_map (fun c => c :: new) s
  | _ :: _ => replace_from old new 0 s
  end.

(** [c.isspace()]: the code points [str.strip()] removes. *)
Definition isspace (c : N) : bool :=
  ((9 <=? c) && (c <=? 13) || (28 <=? c) && (c <=? 32)
   || (c =? 133) || (c =? 160) || (c =? 5760)
   || (8192 <=? c) && (c <=? 8202)
   || (c =? 8232) || (c =? 8233) || (c =? 8239) || (c =? 8287)
   || (c =? 12288))%N.

Fixpoint lstrip (s : str) : str :=
  match s with
  | [] => []
  | c :: s' => if isspace c then lstrip s' else s
  end.

Definition rstrip (s : str) : str := rev (lstrip (rev s)).

(** [s.strip()]. *)
Definition strip (s : str) : str := rstrip (lstrip s).

(** [sep.join(xs)]. *)
Fixpoint join (sep : str) (xs : list str) : str :=
  match xs with
  | [] => []
  | [x] => x
  | x :: xs' => x ++ sep ++ join sep xs'
  end.

(** [str(n)] for an [int]. *)
Definition str_of_int (n : Z) : str := py (NilZero.string_of_int (Z.to_int n)).

(** The line feed. *)
Definition nl : str := [10%N].

(** Truthiness of a string: [if s:]. *)
Definition truthy (s : str) : bool :=
  match s with [] => false | _ :: _ => true end.

(** The exceptions below [Exception]; the text is [str(e)]. *)
Inductive exn :=
| ValueError (msg : str)
| OverflowError (msg : str)
| ZeroDivisionError (msg : str)
| OSError (msg : str)
| LibraryError (msg : str).

Definition str_of_exn (e : exn) : str :=
  match e with
  | ValueError m | OverflowError m | ZeroDivisionError m
  | OSError m | LibraryError m => m
  end.

(** What evaluating an expression gives: a value or a raised exception. *)
Inductive result (A : Type) :=
| Ok (a : A)
| Raise (e : exn).
Arguments Ok {A} a.
Arguments Raise {A} e.

End Py.
Import Py.

(* ===================================================================== *)
(** * Python floats: IEEE 754 binary64 *)
(* ===================================================================== *)

Module PyFloat.

Definition prec : Z := 53.
Definition emax : Z := 1024.

Definition float := spec_float.

(** An integer as an exact (unrounded) binary number. *)
Definition of_int (n : Z) : float :=
  match n with
  | Z0 => S754_zero false
  | Zpos p => S754_finite false p 0
  | Zneg p => S754_finite true p 0
  end.

Definition fmul : float -> float -> float := SFmul prec emax.
Definition fadd : float -> float -> float := SFadd prec emax.
Definition fleb : float -> float -> bool := SFleb.
Definition feqb : float -> float -> bool := SFeqb.

Definition is_infinite (x : float) : bool :=
  match x with S754_infinity _ => true | _ => false end.

(** [a / b] on two [int]s: the quotient correctly rounded to the nearest
    float, [ZeroDivisionError] for a zero divisor, [OverflowError] when the
    rounded quotient is beyond the largest float. *)
Definition int_truediv (a b : Z) : result float :=
  if (b =? 0)%Z then Raise (ZeroDivisionError (py "division by zero"))
  else
    let q := SFdiv prec emax (of_int a) (of_int b) in
    if is_infinite q
    then Raise (OverflowError (py "integer division result too large for a float"))
    else Ok q.

(** The decimal literal [n / 10^k], read as the nearest float. *)
Definition literal (n : Z) (k : nat) : float :=
  SFdiv prec emax (of_int n) (of_int (10 ^ Z.of_nat k)).

Definition zero : float := S754_zero false.

End PyFloat.
Import PyFloat.

(* ===================================================================== *)
(** * Cost accounting *)
(* ===================================================================== *)

Module Cost.

(** [PRICE_PER_1M_INPUT_TOKENS = 0.25], [PRICE_PER_1M_OUTPUT_TOKENS = 1.25]
    ([class-diagram.py], [code-explanation.py]). *)
Definition PRICE_PER_1M_INPUT_TOKENS : float := Eval vm_compute in literal 25 2.
Definition PRICE_PER_1M_OUTPUT_TOKENS : float := Eval vm_compute in literal 125 2.

(** [calculate_cost] of [class-diagram.py] and [code-explanation.py] (the
    two definitions are the same text). *)
Definition calculate_cost (input_tokens output_tokens : Z) : result float :=
  match int_truediv input_tokens 1000000 with
  | Raise e => Raise e
  | Ok qi =>
      let input_cost := fmul qi PRICE_PER_1M_INPUT_TOKENS in
      match int_truediv output_tokens 1000000 with
      | Raise e => Raise e
      | Ok qo =>
          let output_cost := fmul qo PRICE_PER_1M_OUTPUT_TOKENS in
          let total_cost := fadd input_cost output_cost in
          Ok total_cost
      end
  end.

(** [PRICE_PER_1K_TOKENS = 0.002] ([use-case.py]). *)
Definition PRICE_PER_1K_TOKENS : float := Eval vm_compute in literal 2 3.

(** [estimated_cost = (token_usage / 1000) * PRICE_PER_1K_TOKENS] in
    [save_use_case] of [use-case.py]. *)
Definition estimated_cost (token_usage : Z) : result float :=
  match int_truediv token_usage 1000 with
  | Raise e => Raise e
  | Ok q => Ok (fmul q PRICE_PER_1K_TOKENS)
  end.

End Cost.
Import Cost.


(* ===================================================================== *)
(** * Effects: exceptions and the trace of a run *)
(* ===================================================================== *)

Module Eff.

(** Levels of the [logging] module. *)
Inductive level := INFO | WARNING | ERROR.

Definition level_no (l : level) : Z :=
  match l with INFO => 20 | WARNING => 30 | ERROR => 40 end.

(** A file: below the scanned directory (the components of its relative
    path) or anywhere else (the text of its path). *)
Inductive fpath :=
| InProject (rel : list str)
| Local (p : str).

(** Calls into [python-docx]. *)
Inductive docx_op :=
| NewDocument
| AddHeading (text : str)
| AddStyle (name : str)
| AddParagraph (text : str)
| AddPicture (path : str) (width height : Z)
| AddFigureCaption (caption : str)
| AddSpacer
| SaveDocument (path : str).

(** What a run does to the world outside, in the order it does it. An
    event stands for the call: [WriteText] for a call of [f.write], which
    may still fail; [Print] for a text that reached the console. *)
Inductive event :=
| PathExists (p : fpath)
| ListDir (rel : list str)
| OpenRead (p : fpath)
| OpenWrite (p : fpath)
| WriteText (p : fpath) (text : str)
| MakeDirs (p : str)
| NewClient (model : str)
| Invoke (slots : list str)
| CountTokens (text : str)
| RenderImage (file_name : str)
| OpenImage (path : str)
| Docx (op : docx_op)
| Log (lvl : level) (msg : str)
| Print (msg : str).

(** How a piece of the program ends: it returns, it raises an exception
    (below [Exception]), or it leaves the process through [sys.exit]
    ([SystemExit], which [except Exception] does not catch). *)
Inductive status (A : Type) :=
| Returns (a : A)
| Raises (e : exn)
| Exits (code : Z).
Arguments Returns {A} a.
Arguments Raises {A} e.
Arguments Exits {A} code.

(** A computation: how it ends and the events it produced, oldest first.
    The events before a raised exception stay in the trace. *)
Definition M (A : Type) : Type := (status A * list event)%type.

Definition ret {A} (a : A) : M A := (Returns a, []).
Definition raise {A} (e : exn) : M A := (Raises e, []).
Definition sys_exit {A} (code : Z) : M A := (Exits code, []).
Definition lift {A} (r : result A) : M A :=
  match r with
  | Ok a => (Returns a, [])
  | Raise e => (Raises e, [])
  end.
Definition emit (ev : event) : M unit := (Returns tt, [ev]).

Definition bind {A B} (m : M A) (f : A -> M B) : M B :=
  match m with
  | (Returns a, t) => let '(r, t') := f a in (r, t ++ t')
  | (Raises e, t) => (Raises e, t)
  | (Exits c, t) => (Exits c, t)
  end.

(** [try: m  except Exception as e: h e]. *)
Definition try_except {A} (m : M A) (h : exn -> M A) : M A :=
  match m with
  | (Raises e, t) => let '(r, t') := h e in (r, t ++ t')
  | _ => m
  end.

Definition outcome {A} (m : M A) : status A := fst m.
Definition trace {A} (m : M A) : list event := snd m.

(** A [for] loop that threads its local variables through the body. *)
Fixpoint for_each {A S} (xs : list A) (body : S -> A -> M S) (s : S) : M S :=
  match xs with
  | [] => ret s
  | x :: xs' => bind (body s x) (for_each xs' body)
  end.

(** [log.info], [log.error], [log.warning]: the handler is built without
    [markup=True], and [logging] keeps a handler's errors to itself. *)
Definition log (l : level) (msg : str) : M unit := emit (Log l msg).

(** [console.print] of a text that holds no run-time value: a literal
    of the source, or a table of numerals. Its markup is well formed and
    it is plain ASCII: it cannot fail. *)
Definition console_print (msg : str) : M unit := emit (Print msg).

(** The events that reach the generation service. *)
Definition is_network (ev : event) : bool :=
  match ev with Invoke _ => true | _ => false end.

(** The events that build or use the generation client. *)
Definition uses_model (ev : event) : bool :=
  match ev with
  | NewClient _ | Invoke _ | CountTokens _ => true
  | _ => false
  end.

(** The events that touch the file system. *)
Definition is_file_io (ev : event) : bool :=
  match ev with
  | PathExists _ | ListDir _ | OpenRead _ | OpenWrite _ | WriteText _ _
  | MakeDirs _ | RenderImage _ | OpenImage _ | Docx (SaveDocument _) => true
  | _ => false
  end.

(** The events that put an output artifact on disk. *)
Definition is_artifact_write (ev : event) : bool :=
  match ev with
  | OpenWrite _ | WriteText _ _ | Docx (SaveDocument _) => true
  | _ => false
  end.

(** A log record at [WARNING] or above. *)
Definition is_warning (ev : event) : bool :=
  match ev with
  | Log l _ => (level_no WARNING <=? level_no l)%Z
  | _ => false
  end.

Definition no_model (ev : event) : Prop := uses_model ev = false.
Definition no_network (ev : event) : Prop := is_network ev = false.
Definition no_file_io (ev : event) : Prop := is_file_io ev = false.
Definition no_artifact (ev : event) : Prop := is_artifact_write ev = false.
Definition no_warning (ev : event) : Prop := is_warning ev = false.

(** [P] holds of every event of [m]. *)
Definition all_events {A} (P : event -> Prop) (m : M A) : Prop :=
  forall ev, In ev (trace m) -> P ev.

(** The computation does not end in an exception. *)
Definition no_raise {A} (m : M A) : Prop :=
  match outcome m with Raises _ => False | _ => True end.

(** The computation returns. *)
Definition returns {A} (m : M A) : Prop := exists a, outcome m = Returns a.

(** The computation does not leave through [sys.exit]. *)
Definition no_exit {A} (m : M A) : Prop :=
  match outcome m with Exits _ => False | _ => True end.

(** An exception the computation ends in satisfies [P]. *)
Definition raises_only {A} (P : exn -> Prop) (m : M A) : Prop :=
  forall e, outcome m = Raises e -> P e.

End Eff.
Import Eff.

Declare Scope eff_scope.
Delimit Scope eff_scope with eff.
Notation "x <- m ;; k" := (bind m (fun x => k))
(at level 61, m at next level, right associativity) : eff_scope.
Notation "m ;; k" := (bind m (fun _ => k))
(at level 61, right associativity) : eff_scope.
Notation "' pat <- m ;; k" := (bind m (fun x => match x with pat => k end))
(at level 61, pat pattern, m at next level, right associativity) : eff_scope.
Open Scope eff_scope.

(* ===================================================================== *)
(** * The file system below the scanned directory *)
(* ===================================================================== *)

Module Fs.

(** A directory as [os.scandir] shows it: its files, each with what
    [open(...).read()] gives (the text, or the exception of a failed open
    or decode), and its subdirectories, both in listing order. *)
#[local] Unset Elimination Schemes.
Inductive tree :=
| Dir (files : list (str * result str)) (dirs : list (str * tree)).
#[local] Set Elimination Schemes.

Definition files_of (t : tree) : list (str * result str) :=
  match t with Dir files _ => files end.
Definition dirs_of (t : tree) : list (str * tree) :=
  match t with Dir _ dirs => dirs end.

(** [os.sep]. *)
Definition sep : str := py "/".

(** [os.path.relpath(path, directory)] of a path below [directory], from
    the components between the two: [.] for the directory itself. *)
Definition relpath (rel : list str) : str :=
  match rel with
  | [] => py "."
  | _ :: _ => join sep rel
  end.

(** [os.path.relpath(root, directory).split(os.path.sep)]; no name holds a
    separator. *)
Definition relpath_parts (rel : list str) : list str :=
  match rel with
  | [] => [py "."]
  | _ :: _ => rel
  end.

(** [os.walk(directory)], top-down, for a loop body that starts with
    [dirs[:] = [d for d in dirs if keep d]]: the walk descends into the
    names the body leaves in the shared list [dirs], in listing order.
    Each step gives the directory (the components of its path below the
    top) and its files. *)
Fixpoint walk (keep : str -> bool) (rel : list str) (t : tree)
  : list (list str * list (str * result str)) :=
  match t with
  | Dir files dirs =>
      (rel, files) ::
      (fix descend (ds : list (str * tree)) :=
         match ds with
         | [] => []
         | (name, sub) :: ds' =>
             if keep name
             then walk keep (rel ++ [name]) sub ++ descend ds'
             else descend ds'
         end) dirs
  end.

(** [os.path.basename(path)]. *)
Fixpoint basename_from (cur : str) (s : str) : str :=
  match s with
  | [] => rev cur
  | c :: s' => if (c =? 47)%N then basename_from [] s' else basename_from (c :: cur) s'
  end.
Definition basename (path : str) : str := basename_from [] path.

(** [os.path.splitext(name)[0]] of a file name without separators: the
    text before the last dot, the leading dots of the name apart. *)
Fixpoint leading_dots (s : str) : nat :=
  match s with
  | c :: s' => if (c =? 46)%N then S (leading_dots s') else O
  | [] => O
  end.
Fixpoint drop_ext_rev (r : str) : option str :=
  match r with
  | [] => None
  | c :: r' => if (c =? 46)%N then Some r' else drop_ext_rev r'
  end.
Definition splitext_root (name : str) : str :=
  let n := leading_dots name in
  match drop_ext_rev (rev (skipn n name)) with
  | Some r => firstn n name ++ rev r
  | None => name
  end.

End Fs.

(* ===================================================================== *)
(** * The ignore-file matcher *)
(* ===================================================================== *)

Module PathSpec.

Definition is_linebreak (c : N) : bool :=
  ((10 <=? c) && (c <=? 13) || (28 <=? c) && (c <=? 30)
   || (c =? 133) || (c =? 8232) || (c =? 8233))%N.

(** [s.splitlines()]: [after_cr] says the last break was a carriage
    return, which a line feed then completes. *)
Fixpoint splitlines_from (after_cr : bool) (cur : str) (s : str) : list str :=
  match s with
  | [] => match cur with [] => [] | _ :: _ => [rev cur] end
  | c :: s' =>
      if after_cr && (c =? 10)%N then splitlines_from false cur s'
      else if is_linebreak c then rev cur :: splitlines_from (c =? 13)%N [] s'
      else splitlines_from false (c :: cur) s'
  end.
Definition splitlines (s : str) : list str := splitlines_from false [] s.

(** One compiled rule: [include] is false for a [!]-prefixed rule (it
    re-includes what it matches), true otherwise; [matches] is the rule's
    glob read against a path relative to the scan root. *)
Record pattern := { include : bool; matches : str -> bool }.

Definition spec := list pattern.

(** Modelled from the spec: the rule of one line of the ignore file
    ([GitWildMatchPattern] of the [pathspec] package, which is not part of
    the repository). A blank line and a [#] comment give no rule, a leading
    [!] gives a re-inclusion rule; [glob] is the package's translation of a
    glob into a matcher, which may refuse the glob. *)
Definition compile_line (glob : str -> result (str -> bool)) (line : str)
  : result (option pattern) :=
  match line with
  | [] => Ok None
  | c :: rest =>
      if (c =? 35)%N then Ok None
      else if (c =? 33)%N then
        match glob rest with
        | Ok m => Ok (Some {| include := false; matches := m |})
        | Raise e => Raise e
        end
      else
        match glob line with
        | Ok m => Ok (Some {| include := true; matches := m |})
        | Raise e => Raise e
        end
  end.

(** Modelled from the spec: [PathSpec.from_lines], the rules in file
    order. *)
Fixpoint from_lines (glob : str -> result (str -> bool)) (lines : list str)
  : result spec :=
  match lines with
  | [] => Ok []
  | l :: ls =>
      match compile_line glob l with
      | Raise e => Raise e
      | Ok o =>
          match from_lines glob ls with
          | Raise e => Raise e
          | Ok ps => Ok (match o with Some p => p :: ps | None => ps end)
          end
      end
  end.

(** Modelled from the spec: [PathSpec.match_file]. The rules are evaluated
    in file order and the last rule that matches the path decides; a path
    no rule matches is not excluded. *)
Definition match_file (s : spec) (path : str) : bool :=
  fold_left (fun matched p => if matches p path then include p else matched)
            s false.

End PathSpec.

(* ===================================================================== *)
(** * The world outside the program *)
(* ===================================================================== *)

Module Env.

(** Everything a run reads from outside, as functions of what the program
    passes. The language model, the tokenizer, the image and document
    libraries and the file system are not modelled further: a theorem
    quantified over [World] holds whatever they answer. *)
Record World := {
  (** [os.getenv], after [load_dotenv()]. *)
  environ : str -> option str;
  (** The tree below [PROJECT_DIRECTORY]; [None] when there is no such
      directory ([os.walk] then yields nothing). *)
  tree : option Fs.tree;
  (** The glob compiler of the ignore-file matcher. *)
  glob : str -> result (str -> bool);
  (** The chat client's constructor, from the model name and the key. *)
  new_client : str -> option str -> result unit;
  (** [chain.invoke] on the values of the template's slots. *)
  invoke : list str -> result str;
  (** The rendered prompt, from the values of the slots. *)
  format_prompt : list str -> str;
  (** [llm.get_num_tokens]. *)
  get_num_tokens : str -> result Z;
  (** [open(path, 'w')] outside the scanned tree. *)
  open_write : str -> result unit;
  (** [f.write(text)] on the file opened at the path: it may fail
      ([UnicodeEncodeError] in the file's encoding, [OSError]). *)
  write_text : str -> str -> result unit;
  (** What [console.print] makes of a text that holds run-time values:
      Rich reads it as markup ([MarkupError] for a closing tag that nothing
      opened) and encodes it for the terminal. *)
  console_render : str -> result unit;
  (** [open(path, 'r').read()] outside the scanned tree. *)
  read_text : str -> result str;
  (** [os.path.exists] outside the scanned tree. *)
  path_exists : str -> bool;
  (** [os.makedirs]. *)
  makedirs : str -> result unit;
  (** Highlighting the code, drawing the caption bar and saving the image:
      file name, code and caption to the outcome. *)
  render_image : str -> str -> str -> result unit;
  (** [Image.open(path).size]. *)
  image_size : str -> result (Z * Z);
  (** A call into the document library. *)
  docx : docx_op -> result unit;
  (** [re.findall(regex, text)]. *)
  findall : str -> str -> list str;
  (** [f"{x:.4f}"]. *)
  format_4f : float -> str;
  (** The command line's [file_path] argument. *)
  argv_file_path : str
}.

(** The exception is one that [console.print] raised on a text. *)
Definition console_error (w : World) (e : exn) : Prop :=
  exists text, console_render w text = Raise e.

(** [console.print] of a text that holds run-time values (a path, the
    model's answer): nothing is printed when Rich refuses it. *)
Definition rich_print (w : World) (text : str) : M unit :=
  lift (console_render w text) ;; emit (Print text).

(** [console.print(table)] for a table whose cells hold run-time values:
    every cell is rendered before anything is printed. *)
Definition rich_print_table (w : World) (title : str) (cells : list str) : M unit :=
  for_each cells (fun _ cell => lift (console_render w cell)) tt ;;
  console_print title ;;
  for_each cells (fun _ cell => console_print cell) tt.

(** [f.write(text)] on the file opened at [path]. *)
Definition write (w : World) (path text : str) : M unit :=
  emit (WriteText (Local path) text) ;; lift (write_text w path text).

(** [not value] for what [os.getenv] returned. *)
Definition missing (v : option str) : bool :=
  match v with
  | None => true
  | Some s => negb (truthy s)
  end.

End Env.
Import Env.

(* ===================================================================== *)
(** * Scanning, shared by [class-diagram.py] and [code-explanation.py] *)
(* ===================================================================== *)

Module Scan.

(** [os.path.join(a, b)] for a relative [b]. *)
Definition path_join (a b : str) : str :=
  match a with
  | [] => b
  | _ :: _ => if endswith a Fs.sep then a ++ b else a ++ Fs.sep ++ b
  end.

(** [os.path.join(root, file)] for a file of the walk under [directory]. *)
Definition file_path (directory : str) (rel : list str) (file : str) : str :=
  path_join (fold_left path_join rel directory) file.

(** The names the loop body removes from [dirs] before the walk descends:
    [dirs[:] = [d for d in dirs if d not in ['.git', 'node_modules',
    'dist', 'build']]]. *)
Definition pruned_names : list str :=
  [py ".git"; py "node_modules"; py "dist"; py "build"].
Definition keep_dir (d : str) : bool := negb (str_in d pruned_names).

(** [if "tests" in rel_path.split(os.path.sep) or "seeders" in ... or
    "config" in ...: continue]. *)
Definition skipped_names : list str := [py "tests"; py "seeders"; py "config"].
Definition skipped_dir (rel : list str) : bool :=
  let parts := Fs.relpath_parts rel in
  str_in (py "tests") parts || str_in (py "seeders") parts
  || str_in (py "config") parts.

(** The entry [.gitignore] of the scanned directory, as [os.path.exists]
    and [open] see it: absent, a file, or something [open] refuses. *)
Fixpoint lookup {A} (name : str) (xs : list (str * A)) : option A :=
  match xs with
  | [] => None
  | (n, a) :: xs' => if str_eqb n name then Some a else lookup name xs'
  end.

Definition gitignore_entry (w : World) : option (result str) :=
  match tree w with
  | None => None
  | Some t =>
      match lookup (py ".gitignore") (Fs.files_of t) with
      | Some data => Some data
      | None =>
          match lookup (py ".gitignore") (Fs.dirs_of t) with
          | Some _ => Some (Raise (OSError (py "Is a directory")))
          | None => None
          end
      end
  end.

(** [get_gitignore_spec] (the same text in both files). *)
Definition get_gitignore_spec (w : World) : M PathSpec.spec :=
  emit (PathExists (InProject [py ".gitignore"])) ;;
  match gitignore_entry w with
  | Some data =>
      emit (OpenRead (InProject [py ".gitignore"])) ;;
      gitignore_content <- lift data ;;
      lift (PathSpec.from_lines (glob w) (PathSpec.splitlines gitignore_content))
  | None => ret []
  end.

(** The steps of [os.walk(directory)] under the pruning of the loop body. *)
Definition walk_project (w : World) : list (list str * list (str * result str)) :=
  match tree w with
  | Some t => Fs.walk keep_dir [] t
  | None => []
  end.

End Scan.

(* ===================================================================== *)
(** * [class-diagram.py] *)
(* ===================================================================== *)

Module ClassDiagram.

(** The local variables of [read_project_files]. *)
Record scan_state := {
  typescript_content : str;
  prisma_schema : str;
  file_list : list str
}.

Definition is_ts (file : str) : bool := endswith file (py ".ts").
Definition is_prisma (file : str) : bool := str_eqb file (py "schema.prisma").

(** [f"\n\n--- {rel_file_path} ---\n\n{content}"]. *)
Definition section (rel_file_path content : str) : str :=
  nl ++ nl ++ py "--- " ++ rel_file_path ++ py " ---" ++ nl ++ nl ++ content.

(** The body of [for file in files]. *)
Definition read_one (directory : str) (spec : PathSpec.spec) (rel : list str)
           (st : scan_state) (entry : str * result str) : M scan_state :=
  let '(file, data) := entry in
  if is_ts file || is_prisma file then
    let rel_file_path := Fs.relpath (rel ++ [file]) in
    if negb (PathSpec.match_file spec rel_file_path) then
      try_except
        (emit (OpenRead (InProject (rel ++ [file]))) ;;
         content <- lift data ;;
         let st1 :=
           if is_ts file then
             {| typescript_content :=
                  typescript_content st ++ section rel_file_path content;
                prisma_schema := prisma_schema st;
                file_list := file_list st |}
           else if is_prisma file then
             {| typescript_content := typescript_content st;
                prisma_schema := content;
                file_list := file_list st |}
           else st in
         ret {| typescript_content := typescript_content st1;
                prisma_schema := prisma_schema st1;
                file_list := file_list st1 ++ [rel_file_path] |})
        (fun e =>
           log ERROR (py "[red]Error reading file "
                      ++ Scan.file_path directory rel file ++ py ": "
                      ++ str_of_exn e ++ py "[/red]") ;;
           ret st)
    else ret st
  else ret st.

(** The body of [for root, dirs, files in os.walk(directory)], after the
    pruning of [dirs]. *)
Definition visit (directory : str) (spec : PathSpec.spec) (st : scan_state)
           (step : list str * list (str * result str)) : M scan_state :=
  let '(rel, files) := step in
  emit (ListDir rel) ;;
  if Scan.skipped_dir rel then ret st
  else if PathSpec.match_file spec (Fs.relpath rel) then ret st
  else for_each files (read_one directory spec rel) st.

Definition read_project_files (w : World) (directory : str)
  : M (str * str * list str) :=
  gitignore_spec <- Scan.get_gitignore_spec w ;;
  st <- for_each (Scan.walk_project w) (visit directory gitignore_spec)
          {| typescript_content := []; prisma_schema := []; file_list := [] |} ;;
  log INFO (py "[green]Read " ++ str_of_int (Z.of_nat (List.length (file_list st)))
            ++ py " files (including Prisma schema)[/green]") ;;
  ret (typescript_content st, prisma_schema st, file_list st).

Definition model_name : str := py "claude-3-haiku-20240307".

Definition generate_diagram (w : World) (typescript_content prisma_schema : str)
  : M (str * Z * Z) :=
  let api_key := environ w (py "ANTHROPIC_API_KEY") in
  if missing api_key then
    log ERROR (py "[red]ANTHROPIC_API_KEY not found in environment variables[/red]") ;;
    ret ([], 0%Z, 0%Z)
  else
    emit (NewClient model_name) ;;
    lift (new_client w model_name api_key) ;;
    try_except
      (emit (Invoke [typescript_content; prisma_schema]) ;;
       diagram <- lift (invoke w [typescript_content; prisma_schema]) ;;
       log INFO (py "[green]Diagram generated successfully[/green]") ;;
       let prompt := format_prompt w [typescript_content; prisma_schema] in
       emit (CountTokens prompt) ;;
       input_tokens <- lift (get_num_tokens w prompt) ;;
       emit (CountTokens diagram) ;;
       output_tokens <- lift (get_num_tokens w diagram) ;;
       ret (diagram, input_tokens, output_tokens))
      (fun e =>
         log ERROR (py "[red]Error generating diagram: " ++ str_of_exn e
                    ++ py "[/red]") ;;
         ret ([], 0%Z, 0%Z)).

Definition save_diagram_to_file (w : World) (diagram file_path : str) : M unit :=
  try_except
    (emit (OpenWrite (Local file_path)) ;;
     lift (open_write w file_path) ;;
     write w file_path (py "```mermaid" ++ nl) ;;
     write w file_path diagram ;;
     write w file_path (nl ++ py "```") ;;
     log INFO (py "[green]Diagram saved to " ++ file_path ++ py "[/green]"))
    (fun e =>
       log ERROR (py "[red]Error saving diagram to file: " ++ str_of_exn e
                  ++ py "[/red]")).

(** What [generate_class_diagram] returns:
    [(diagram, input_tokens, output_tokens, cost, file_list)]. *)
Definition report : Type := (str * Z * Z * float * list str)%type.

Definition failure : report := ([], 0%Z, 0%Z, zero, []).

Definition generate_class_diagram (w : World) (directory : str) : M report :=
  try_except
    ('(typescript_content, prisma_schema, file_list) <- read_project_files w directory ;;
     if negb (truthy typescript_content) && negb (truthy prisma_schema) then
       log ERROR (py "[red]No TypeScript files or Prisma schema found in directory: "
                  ++ directory ++ py "[/red]") ;;
       ret failure
     else
       '(diagram, input_tokens, output_tokens) <-
          generate_diagram w typescript_content prisma_schema ;;
       cost <- lift (calculate_cost input_tokens output_tokens) ;;
       ret (diagram, input_tokens, output_tokens, cost, file_list))
    (fun e =>
       log ERROR (py "[red]Error in main pipeline: " ++ str_of_exn e ++ py "[/red]") ;;
       ret failure).

Definition display_file_list (w : World) (file_list : list str) : M unit :=
  rich_print_table w (py "Processed TypeScript Files") file_list.

(** The script's [__main__] block. *)
Definition main (w : World) : M unit :=
  console_print (py "[bold green]Class Diagram Generator for TypeScript and Prisma[/bold green]") ;;
  let project_directory := environ w (py "PROJECT_DIRECTORY") in
  if missing project_directory then
    console_print (py "[bold red]PROJECT_DIRECTORY not found in environment variables[/bold red]") ;;
    console_print (py "Please set the PROJECT_DIRECTORY in your .env file") ;;
    sys_exit 1
  else
    let directory := match project_directory with Some d => d | None => [] end in
    rich_print w (py "[cyan]Analyzing project directory: " ++ directory ++ py "[/cyan]") ;;
    '(class_diagram, input_tokens, output_tokens, cost, file_list) <-
       generate_class_diagram w directory ;;
    if truthy class_diagram then
      console_print (py "[bold green]Class diagram generated successfully![/bold green]") ;;
      rich_print w class_diagram ;;
      save_diagram_to_file w class_diagram (py "combined_class_diagram.md") ;;
      display_file_list w file_list ;;
      console_print (py "Token Usage and Cost") ;;
      console_print (py "Input Tokens " ++ str_of_int input_tokens) ;;
      console_print (py "Output Tokens " ++ str_of_int output_tokens) ;;
      console_print (py "Total Tokens " ++ str_of_int (input_tokens + output_tokens)) ;;
      console_print (py "Estimated Cost $" ++ format_4f w cost)
    else
      console_print (py "[bold red]Failed to generate class diagram. Check logs for details.[/bold red]").

End ClassDiagram.

(* ===================================================================== *)
(** * [code-explanation.py] *)
(* ===================================================================== *)

Module CodeExplanation.

Definition is_source (file : str) : bool :=
  endswith file (py ".tsx") || endswith file (py ".ts").

(** The body of [for file in files]. *)
Definition read_one (directory : str) (spec : PathSpec.spec) (rel : list str)
           (typescript_files : list (str * str)) (entry : str * result str)
  : M (list (str * str)) :=
  let '(file, data) := entry in
  if is_source file then
    let rel_file_path := Fs.relpath (rel ++ [file]) in
    if negb (PathSpec.match_file spec rel_file_path) then
      try_except
        (emit (OpenRead (InProject (rel ++ [file]))) ;;
         content <- lift data ;;
         ret (typescript_files ++ [(rel_file_path, content)]))
        (fun e =>
           log ERROR (py "[red]Error reading file "
                      ++ Scan.file_path directory rel file ++ py ": "
                      ++ str_of_exn e ++ py "[/red]") ;;
           ret typescript_files)
    else ret typescript_files
  else ret typescript_files.

Definition visit (directory : str) (spec : PathSpec.spec)
           (typescript_files : list (str * str))
           (step : list str * list (str * result str)) : M (list (str * str)) :=
  let '(rel, files) := step in
  emit (ListDir rel) ;;
  if Scan.skipped_dir rel then ret typescript_files
  else if PathSpec.match_file spec (Fs.relpath rel) then ret typescript_files
  else for_each files (read_one directory spec rel) typescript_files.

Definition read_typescript_files (w : World) (directory : str)
  : M (list (str * str)) :=
  gitignore_spec <- Scan.get_gitignore_spec w ;;
  typescript_files <-
    for_each (Scan.walk_project w) (visit directory gitignore_spec) [] ;;
  log INFO (py "[green]Read "
            ++ str_of_int (Z.of_nat (List.length typescript_files))
            ++ py " TypeScript files[/green]") ;;
  ret typescript_files.

Definition output_dir_name : str := py "./output".

Definition create_output_directory (w : World) : M str :=
  emit (PathExists (Local output_dir_name)) ;;
  (if path_exists w output_dir_name then ret tt
   else emit (MakeDirs output_dir_name) ;; lift (makedirs w output_dir_name)) ;;
  ret output_dir_name.

(** [caption, explanation = parts]: two values exactly. *)
Definition unpack2 (parts : list str) : result (str * str) :=
  match parts with
  | [a; b] => Ok (a, b)
  | [] => Raise (ValueError (py "not enough values to unpack (expected 2, got 0)"))
  | [_] => Raise (ValueError (py "not enough values to unpack (expected 2, got 1)"))
  | _ => Raise (ValueError (py "too many values to unpack (expected 2)"))
  end.

(** The two statements that split the response:
    [caption, explanation = result.split("\n\n", 1)] and
    [caption = caption.replace("Caption: ", "").strip()]. *)
Definition parse_response (response : str) : result (str * str) :=
  match unpack2 (split1 (nl ++ nl) response) with
  | Raise e => Raise e
  | Ok (caption, explanation) =>
      Ok (strip (replace (py "Caption: ") [] caption), explanation)
  end.

Definition model_name : str := py "gpt-4o-mini".

Definition generate_explanation (w : World) (file_name file_content : str)
  : M (str * str * Z * Z) :=
  let openai_api_key := environ w (py "OPENAI_API_KEY") in
  emit (NewClient model_name) ;;
  lift (new_client w model_name openai_api_key) ;;
  try_except
    (emit (Invoke [file_name; file_content]) ;;
     response <- lift (invoke w [file_name; file_content]) ;;
     log INFO (py "[green]Explanation and caption generated for " ++ file_name
               ++ py "[/green]") ;;
     '(caption, explanation) <- lift (parse_response response) ;;
     let prompt := format_prompt w [file_name; file_content] in
     emit (CountTokens prompt) ;;
     input_tokens <- lift (get_num_tokens w prompt) ;;
     emit (CountTokens response) ;;
     output_tokens <- lift (get_num_tokens w response) ;;
     ret (caption, explanation, input_tokens, output_tokens))
    (fun e =>
       log ERROR (py "[red]Error generating explanation for " ++ file_name
                  ++ py ": " ++ str_of_exn e ++ py "[/red]") ;;
       log ERROR (py "File content (first 100 characters): "
                  ++ firstn 100 file_content) ;;
       ret ([], [], 0%Z, 0%Z)).

Definition create_code_screenshot (w : World)
           (file_name code_content caption output_dir : str) : M str :=
  try_except
    (emit (RenderImage file_name) ;;
     lift (render_image w file_name code_content caption) ;;
     let screenshot_dir := Scan.path_join output_dir (py "screenshots") in
     emit (MakeDirs screenshot_dir) ;;
     lift (makedirs w screenshot_dir) ;;
     let base_name := Fs.basename file_name in
     let png := Fs.splitext_root base_name ++ py ".png" in
     let output_path := Scan.path_join screenshot_dir png in
     emit (OpenWrite (Local output_path)) ;;
     lift (open_write w output_path) ;;
     ret (Scan.path_join (py "screenshots") png))
    (fun e =>
       log ERROR (py "[red]Error creating screenshot for " ++ file_name
                  ++ py ": " ++ str_of_exn e ++ py "[/red]") ;;
       log ERROR (py "Code content type: <class 'str'>") ;;
       log ERROR (py "Code content (first 100 characters): "
                  ++ firstn 100 code_content) ;;
       ret []).

Definition generate_explanation_with_screenshot (w : World)
           (file_name file_content output_dir : str)
  : M (str * str * str * Z * Z) :=
  try_except
    ('(caption, explanation, input_tokens, output_tokens) <-
        generate_explanation w file_name file_content ;;
     screenshot_path <-
        create_code_screenshot w file_name file_content caption output_dir ;;
     ret (caption, explanation, screenshot_path, input_tokens, output_tokens))
    (fun e =>
       log ERROR (py "[red]Error in generate_explanation_with_screenshot for "
                  ++ file_name ++ py ": " ++ str_of_exn e ++ py "[/red]") ;;
       ret ([], [], [], 0%Z, 0%Z)).

(** [int(x)] for a float: truncation towards zero. *)
Definition int_of_float (x : float) : result Z :=
  match x with
  | S754_zero _ => Ok 0%Z
  | S754_infinity _ => Raise (OverflowError (py "cannot convert float infinity to integer"))
  | S754_nan => Raise (ValueError (py "cannot convert float NaN to integer"))
  | S754_finite s m e =>
      let a := match e with
               | Zneg p => Z.shiftr (Zpos m) (Zpos p)
               | _ => Z.shiftl (Zpos m) e
               end in
      Ok (if s then (- a)%Z else a)
  end.

(** [float(n)] for an [int] within the floats' range: the nearest float. *)
Definition float_of_int (n : Z) : float :=
  SFdiv prec emax (of_int n) (of_int 1).

Definition resize_image (w : World) (image_path : str) : M (Z * Z) :=
  emit (OpenImage image_path) ;;
  '(width, height) <- lift (image_size w image_path) ;;
  aspect_ratio <- lift (int_truediv width height) ;;
  let new_height := Z.min height (9 * 88) in
  new_width <- lift (int_of_float (fmul (float_of_int new_height) aspect_ratio)) ;;
  ret (new_width, new_height).

Definition docx_call (w : World) (op : docx_op) : M unit :=
  emit (Docx op) ;; lift (docx w op).

(** One entry of [explanations]:
    [(file_name, caption, explanation, screenshot_path)]. *)
Definition entry : Type := (str * str * str * str)%type.

Definition entry_eqb (a b : entry) : bool :=
  let '(a1, a2, a3, a4) := a in
  let '(b1, b2, b3, b4) := b in
  str_eqb a1 b1 && str_eqb a2 b2 && str_eqb a3 b3 && str_eqb a4 b4.

(** [xs.index(x)] for an [x] of [xs]. *)
Fixpoint index (x : entry) (xs : list entry) : nat :=
  match xs with
  | [] => O
  | y :: xs' => if entry_eqb y x then O else S (index x xs')
  end.

Definition add_section (w : World) (explanations : list entry) (output_dir : str)
           (_ : unit) (item : entry) : M unit :=
  let '(file_name, caption, explanation, screenshot_path) := item in
  docx_call w (AddParagraph (py "File: " ++ file_name)) ;;
  let full_screenshot_path := Scan.path_join output_dir screenshot_path in
  emit (PathExists (Local full_screenshot_path)) ;;
  (if path_exists w full_screenshot_path then
     '(new_width, new_height) <- resize_image w full_screenshot_path ;;
     docx_call w (AddPicture full_screenshot_path new_width new_height) ;;
     docx_call w (AddFigureCaption caption)
   else
     log WARNING (py "[yellow]Screenshot not found for " ++ file_name
                  ++ py ". Skipping image.[/yellow]")) ;;
  docx_call w (AddParagraph explanation) ;;
  if (index item explanations <? List.length explanations - 1)%nat then
    docx_call w AddSpacer ;; docx_call w AddSpacer
  else ret tt.

Definition create_word_document (w : World) (explanations : list entry)
           (output_dir : str) : M (option str) :=
  try_except
    (docx_call w NewDocument ;;
     docx_call w (AddHeading (py "Code Explanations")) ;;
     docx_call w (AddStyle (py "Figure Caption")) ;;
     for_each explanations (add_section w explanations output_dir) tt ;;
     let output_path := Scan.path_join output_dir (py "code_explanations.docx") in
     docx_call w (SaveDocument output_path) ;;
     log INFO (py "[green]Word document created with auto-numbered figures: "
               ++ output_path ++ py "[/green]") ;;
     ret (Some output_path))
    (fun e =>
       log ERROR (py "[red]Error creating Word document: " ++ str_of_exn e
                  ++ py "[/red]") ;;
       ret None).

(** What [generate_code_explanations] returns:
    [(explanations, input tokens, output tokens, cost, word_doc_path)]. *)
Definition report : Type := (list entry * Z * Z * float * option str)%type.

Definition failure : report := ([], 0%Z, 0%Z, zero, None).

(** The body of [for file_name, file_content in typescript_files]; the
    state is [(explanations, total_input_tokens, total_output_tokens)]. *)
Definition explain_one (w : World) (output_dir : str)
           (st : list entry * Z * Z) (file : str * str) : M (list entry * Z * Z) :=
  let '(explanations, total_input_tokens, total_output_tokens) := st in
  let '(file_name, file_content) := file in
  try_except
    ('(caption, explanation, screenshot_path, input_tokens, output_tokens) <-
        generate_explanation_with_screenshot w file_name file_content output_dir ;;
     if truthy explanation then
       ret (explanations ++ [(file_name, caption, explanation, screenshot_path)],
            (total_input_tokens + input_tokens)%Z,
            (total_output_tokens + output_tokens)%Z)
     else ret st)
    (fun e =>
       log ERROR (py "[red]Error processing file " ++ file_name ++ py ": "
                  ++ str_of_exn e ++ py "[/red]") ;;
       ret st).

Definition generate_code_explanations (w : World) (directory output_dir : str)
  : M report :=
  try_except
    (typescript_files <- read_typescript_files w directory ;;
     '(explanations, total_input_tokens, total_output_tokens) <-
        for_each typescript_files (explain_one w output_dir) ([], 0%Z, 0%Z) ;;
     cost <- lift (calculate_cost total_input_tokens total_output_tokens) ;;
     word_doc_path <- create_word_document w explanations output_dir ;;
     ret (explanations, total_input_tokens, total_output_tokens, cost, word_doc_path))
    (fun e =>
       log ERROR (py "[red]Error in main pipeline: " ++ str_of_exn e ++ py "[/red]") ;;
       ret failure).

(** The script's [__main__] block. *)
Definition main (w : World) : M unit :=
  console_print (py "[bold green]Code Explanation Generator for TypeScript[/bold green]") ;;
  let project_directory := environ w (py "PROJECT_DIRECTORY") in
  if missing project_directory then
    console_print (py "[bold red]PROJECT_DIRECTORY not found in environment variables[/bold red]") ;;
    console_print (py "Please set the PROJECT_DIRECTORY in your .env file") ;;
    sys_exit 1
  else
    let directory := match project_directory with Some d => d | None => [] end in
    rich_print w (py "[cyan]Analyzing project directory: " ++ directory ++ py "[/cyan]") ;;
    output_dir <- create_output_directory w ;;
    '(explanations, input_tokens, output_tokens, cost, word_doc_path) <-
       generate_code_explanations w directory output_dir ;;
    match explanations with
    | _ :: _ =>
        match word_doc_path with
        | Some path =>
            console_print (py "[bold green]Code explanations and Word document generated successfully![/bold green]") ;;
            rich_print w (py "[bold green]Word document saved in: " ++ path ++ py "[/bold green]")
        | None =>
            console_print (py "[bold yellow]Code explanations generated, but Word document creation failed. Check logs for details.[/bold yellow]")
        end ;;
        console_print (py "Token Usage and Cost") ;;
        console_print (py "Input Tokens " ++ str_of_int input_tokens) ;;
        console_print (py "Output Tokens " ++ str_of_int output_tokens) ;;
        console_print (py "Total Tokens " ++ str_of_int (input_tokens + output_tokens)) ;;
        console_print (py "Estimated Cost $" ++ format_4f w cost)
    | [] =>
        console_print (py "[bold red]Failed to generate code explanations. Check logs for details.[/bold red]")
    end.

End CodeExplanation.

(* ===================================================================== *)
(** * [use-case.py] *)
(* ===================================================================== *)

Module UseCase.

Definition OUTPUT_DIR : str := py "./output".
Definition ANTHROPIC_MODEL : str := py "claude-3-sonnet-20240229".
Definition CONTROLLER_METHOD_REGEX : str := py "async\s+(\w+)\s*\([^)]*\)\s*{".
Definition PRISMA_MODEL_REGEX : str := py "model\s+(\w+)\s*{".

Definition initialize_llm (w : World) : M unit :=
  let api_key := environ w (py "ANTHROPIC_API_KEY") in
  if missing api_key then
    raise (ValueError (py "ANTHROPIC_API_KEY environment variable is not set"))
  else
    emit (NewClient ANTHROPIC_MODEL) ;;
    lift (new_client w ANTHROPIC_MODEL api_key).

Definition operation (method : str) : str :=
  if startswith method (py "create") || startswith method (py "get")
     || startswith method (py "update") || startswith method (py "delete")
  then py "CRUD Operation: " ++ method
  else py "Specific Operation: " ++ method.

Definition analyze_file (w : World) (file_path : str) : M str :=
  emit (OpenRead (Local file_path)) ;;
  content <- lift (read_text w file_path) ;;
  let file_name := Fs.basename file_path in
  if contains file_name (py "Controller") then
    let methods := findall w CONTROLLER_METHOD_REGEX content in
    let operations := map operation methods in
    ret (py "Controller: " ++ file_name ++ nl ++ py "Operations: "
         ++ join (py ", ") operations)
  else if str_eqb file_name (py "schema.prisma") then
    let models := findall w PRISMA_MODEL_REGEX content in
    ret (py "Prisma Schema Models: " ++ join (py ", ") models)
  else
    ret (py "Unknown file type: " ++ file_name ++ nl ++ py "Content preview: "
         ++ firstn 200 content ++ py "...").

Definition generate_use_case (w : World) (analysis : str) : M (str * Z) :=
  emit (Invoke [analysis]) ;;
  response <- lift (invoke w [analysis]) ;;
  let text := format_prompt w [analysis] ++ response in
  emit (CountTokens text) ;;
  total_tokens <- lift (get_num_tokens w text) ;;
  ret (response, total_tokens).

Definition save_use_case (w : World) (file_path use_case : str) (token_usage : Z)
  : M unit :=
  emit (MakeDirs OUTPUT_DIR) ;;
  lift (makedirs w OUTPUT_DIR) ;;
  let base_name := Fs.basename file_path in
  let use_case_file_name := py "use_case_" ++ Fs.splitext_root base_name ++ py ".md" in
  let output_path := Scan.path_join OUTPUT_DIR use_case_file_name in
  cost <- lift (estimated_cost token_usage) ;;
  emit (OpenWrite (Local output_path)) ;;
  lift (open_write w output_path) ;;
  write w output_path use_case ;;
  write w output_path (nl ++ nl ++ py "---" ++ nl ++ nl) ;;
  write w output_path (py "Token usage: " ++ str_of_int token_usage ++ nl) ;;
  write w output_path (py "Estimated cost: $" ++ format_4f w cost) ;;
  rich_print w (py "[green]Generated use case specifications: " ++ output_path
                ++ py "[/green]") ;;
  let preview :=
    if (1000 <? List.length use_case)%nat
    then firstn 1000 use_case ++ py "..."
    else use_case in
  rich_print w preview ;;
  console_print (py "Usage Statistics") ;;
  console_print (py "Token Usage " ++ str_of_int token_usage) ;;
  console_print (py "Estimated Cost $" ++ format_4f w cost).

Definition main (w : World) : M unit :=
  let file_path := argv_file_path w in
  console_print (py "[bold blue]Kortex Use Case Specification Generator[/bold blue]") ;;
  initialize_llm w ;;
  analysis <- analyze_file w file_path ;;
  rich_print w (py "[yellow]Analyzing:[/yellow] " ++ file_path) ;;
  rich_print w analysis ;;
  '(use_case, token_usage) <- generate_use_case w analysis ;;
  save_use_case w file_path use_case token_usage.

End UseCase.

(* ===================================================================== *)
(** * What a scan accepts: a second description of the two loops *)
(* ===================================================================== *)

Module ScanSpec.

(** An accepted file: its name, its path relative to the scan root and
    its text. *)
Definition accepted_file : Type := (str * str * str)%type.

Definition name_of (a : accepted_file) : str := fst (fst a).
Definition path_of (a : accepted_file) : str := snd (fst a).
Definition content_of (a : accepted_file) : str := snd a.

(** One directory entry, when it passes the allow-list and the ignore
    rules and can be read. *)
Definition accepted_entry (allow : str -> bool) (spec : PathSpec.spec)
           (rel : list str) (entry : str * result str) : list accepted_file :=
  let '(file, data) := entry in
  let rel_file_path := Fs.relpath (rel ++ [file]) in
  if allow file && negb (PathSpec.match_file spec rel_file_path) then
    match data with
    | Ok content => [(file, rel_file_path, content)]
    | Raise _ => []
    end
  else [].

(** The accepted files of one directory, in listing order. *)
Definition accepted_in (allow : str -> bool) (spec : PathSpec.spec)
           (rel : list str) (files : list (str * result str))
  : list accepted_file :=
  flat_map (accepted_entry allow spec rel) files.

(** The accepted files of one step of the walk: none when the directory
    is skipped by name or matches the ignore rules. *)
Definition accepted_step (allow : str -> bool) (spec : PathSpec.spec)
           (step : list str * list (str * result str)) : list accepted_file :=
  let '(rel, files) := step in
  if Scan.skipped_dir rel || PathSpec.match_file spec (Fs.relpath rel)
  then []
  else accepted_in allow spec rel files.

(** The accepted files of the whole walk, in traversal order. *)
Definition accepted_on (allow : str -> bool) (spec : PathSpec.spec)
           (steps : list (list str * list (str * result str)))
  : list accepted_file :=
  flat_map (accepted_step allow spec) steps.

Definition accepted (allow : str -> bool) (spec : PathSpec.spec) (w : World)
  : list accepted_file :=
  accepted_on allow spec (Scan.walk_project w).

(** The allow-list of [class-diagram.py]: a name that ends in [.ts], or
    [schema.prisma]. *)
Definition diagram_input (file : str) : bool :=
  endswith file (py ".ts") || str_eqb file (py "schema.prisma").

(** What one accepted file does to the variables of
    [read_project_files]. *)
Definition add_file (st : ClassDiagram.scan_state) (a : accepted_file)
  : ClassDiagram.scan_state :=
  {| ClassDiagram.typescript_content :=
       if ClassDiagram.is_ts (name_of a)
       then ClassDiagram.typescript_content st
            ++ ClassDiagram.section (path_of a) (content_of a)
       else ClassDiagram.typescript_content st;
     ClassDiagram.prisma_schema :=
       if ClassDiagram.is_ts (name_of a) then ClassDiagram.prisma_schema st
       else if ClassDiagram.is_prisma (name_of a) then content_of a
       else ClassDiagram.prisma_schema st;
     ClassDiagram.file_list := ClassDiagram.file_list st ++ [path_of a] |}.

(** The directory names below which the scan reads nothing. *)
Definition excluded_names : list str := Scan.pruned_names ++ Scan.skipped_names.

(** A path (its components, the file name last) lies below a directory
    with an excluded name. *)
Definition beneath_excluded (p : list str) : bool :=
  existsb (fun d => str_in d excluded_names) (removelast p).

(** The event is not the read of a file below an excluded directory. *)
Definition reads_outside_excluded (ev : event) : Prop :=
  match ev with
  | OpenRead (InProject p) => beneath_excluded p = false
  | _ => True
  end.

(** The payload of [read_project_files] for a list of accepted files:
    the text of every [.ts] file in order, each after a blank line, its
    path between dashes and another blank line; the text of the last
    [schema.prisma]; and every path. *)
Definition typescript_payload (acc : list accepted_file) : str :=
  List.concat
    (map (fun a => nl ++ nl ++ py "--- " ++ path_of a ++ py " ---" ++ nl ++ nl
                   ++ content_of a)
         (filter (fun a => endswith (name_of a) (py ".ts")) acc)).

(** The variables of [read_project_files] before the loop. *)
Definition empty_state : ClassDiagram.scan_state :=
  {| ClassDiagram.typescript_content := [];
     ClassDiagram.prisma_schema := [];
     ClassDiagram.file_list := [] |}.

Definition schema_payload (acc : list accepted_file) : str :=
  last (map content_of
          (filter (fun a => str_eqb (name_of a) (py "schema.prisma")) acc)) [].

End ScanSpec.

(* ===================================================================== *)
(** * Concrete worlds, for the instances below *)
(* ===================================================================== *)

Module Examples.

(** A small glob compiler: [*suffix] matches the paths that end in
    [suffix], any other glob matches the path equal to it. *)
Definition star_glob (g : str) : result (str -> bool) :=
  match g with
  | 42%N :: suffix => Ok (fun path => endswith path suffix)
  | _ => Ok (fun path => str_eqb path g)
  end.

(** A project: two sources and two schema files that the scans accept, a
    generated source that [.gitignore] excludes and one that it
    re-includes, a source that cannot be read, and sources below [tests]
    and [node_modules]. *)
Definition project : Fs.tree :=
  Fs.Dir
    [(py "a.ts", Ok (py "export const a = 1"));
     (py ".gitignore", Ok (py "*.gen.ts" ++ nl ++ py "!keep.gen.ts" ++ nl));
     (py "api.gen.ts", Ok (py "generated"));
     (py "keep.gen.ts", Ok (py "kept"));
     (py "schema.prisma", Ok (py "model Old {}"))]
    [(py "tests",
      Fs.Dir [(py "b.test.ts", Ok (py "test"))]
             [(py "deep", Fs.Dir [(py "c.ts", Ok (py "deep test"))] [])]);
     (py "node_modules", Fs.Dir [(py "n.ts", Ok (py "vendored"))] []);
     (py "src",
      Fs.Dir [(py "s.ts", Raise (OSError (py "Permission denied")));
              (py "schema.prisma", Ok (py "model New {}"));
              (py "t.tsx", Ok (py "export const T = 2"))]
             [])].

(** A project of one source file. *)
Definition single_source : Fs.tree :=
  Fs.Dir [(py "a.ts", Ok (py "export const a = 1"))] [].

(** A directory with nothing on the allow-lists. *)
Definition notes_only : Fs.tree :=
  Fs.Dir [(py "README.md", Ok (py "notes"))] [].

(** The two rules of [project]'s ignore file. *)
Definition exclude_generated : PathSpec.pattern :=
  {| PathSpec.include := true;
     PathSpec.matches := fun path => endswith path (py ".gen.ts") |}.
Definition keep_one : PathSpec.pattern :=
  {| PathSpec.include := false;
     PathSpec.matches := fun path => str_eqb path (py "keep.gen.ts") |}.

(** A world in which every library call succeeds: the keys as given, the
    tree as given, a model that answers [completion] and a tokenizer that
    counts one token per character; [file_text] is what reading the
    command line's file gives. *)
Definition world (anthropic_key openai_key : option str) (t : Fs.tree)
           (completion : result str) (file_text : result str) : World :=
  {| environ := fun name =>
       if str_eqb name (py "PROJECT_DIRECTORY") then Some (py "/srv/project")
       else if str_eqb name (py "ANTHROPIC_API_KEY") then anthropic_key
       else if str_eqb name (py "OPENAI_API_KEY") then openai_key
       else None;
     tree := Some t;
     glob := star_glob;
     new_client := fun _ _ => Ok tt;
     invoke := fun _ => completion;
     format_prompt := fun slots => py "Analyze: " ++ List.concat slots;
     get_num_tokens := fun text => Ok (Z.of_nat (List.length text));
     open_write := fun _ => Ok tt;
     write_text := fun _ _ => Ok tt;
     console_render := fun _ => Ok tt;
     read_text := fun _ => file_text;
     path_exists := fun _ => false;
     makedirs := fun _ => Ok tt;
     render_image := fun _ _ _ => Ok tt;
     image_size := fun _ => Ok (800, 600)%Z;
     docx := fun _ => Ok tt;
     findall := fun _ _ => [];
     format_4f := fun _ => py "0.0000";
     argv_file_path := py "src/UserController.ts" |}.

Definition key : option str := Some (py "sk-test").

Definition caption_response : str :=
  py "Caption: Exports a constant" ++ nl ++ nl ++ py "The module exports one value.".

(** Every key set, the model answers in the expected shape. *)
Definition healthy : World := world key key project (Ok caption_response) (Ok (py "class C {}")).

(** No [ANTHROPIC_API_KEY]. *)
Definition no_anthropic_key : World :=
  world None key project (Ok caption_response) (Ok (py "class C {}")).

(** Nothing to scan. *)
Definition nothing_to_scan : World :=
  world key key notes_only (Ok caption_response) (Ok (py "class C {}")).

(** The model answers with an empty completion. *)
Definition empty_completion : World :=
  world key key single_source (Ok []) (Ok (py "class C {}")).

(** The command line's file cannot be read. *)
Definition unreadable_file : World :=
  world key key project (Ok caption_response) (Raise (OSError (py "No such file"))).

End Examples.

(* ===================================================================== *)
(** * The values of floats, in whole units *)
(* ===================================================================== *)

(** A reference semantics of the float operations [calculate_cost] uses,
    in integers: the lemmas on rounding below relate it to [SpecFloat]. *)

Module FloatSpec.
#[local] Open Scope Z_scope.

(** [rhe n h]: the integer nearest to [n / h], a tie going to the even one. *)
Definition rhe (n h : Z) : Z :=
  let q := n / h in
  let r := n mod h in
  if 2 * r <? h then q
  else if h <? 2 * r then q + 1
  else if Z.even q then q else q + 1.

(** [RNZ n d]: the quotient [n / d] rounded to 53 significant bits, ties to
    even; the unit of the last place is [2 ^ (digits (n / d) - 53)]. *)
Definition RNZ (n d : Z) : Z :=
  let u := 2 ^ (Zdigits2 (n / d) - 53) in
  u * rhe n (d * u).

(** [2^1024] in units of [2^-1074]: the first value beyond the finite floats. *)
Definition TOP : Z := 2 ^ 2098.

(** The value of a non-negative float in units of [2^-1074], the spacing of
    the smallest floats: every finite float is a whole number of them.
    Infinity counts as [TOP]; a negative float or NaN as [-1]. *)
Definition scaled (f : float) : Z :=
  match f with
  | S754_zero _ => 0
  | S754_infinity false => TOP
  | S754_finite false m e => Zpos m * 2 ^ (e + 1074)
  | _ => -1
  end.

(** [m], a round bit [r] and a sticky bit [s] locate the quotient [n / h]:
    [m] is its integer part, [r] says the remainder is at least half of [h],
    [s] says it is neither zero nor exactly half. *)
Definition located (n h m : Z) (r s : bool) : Prop :=
  0 < h /\ 0 <= m /\ m * h <= n < (m + 1) * h
  /\ r = (h <=? 2 * (n - m * h))
  /\ s = negb ((n - m * h =? 0) || (2 * (n - m * h) =? h)).

(** The same for the record the rounding code shifts. *)
Definition located_rec (n h : Z) (rec : shr_record) : Prop :=
  located n h (shr_m rec) (shr_r rec) (shr_s rec).

(** A non-negative float that is zero, infinite, or has a full 53-bit
    significand and an exponent of at least [L]. *)
Definition normal (L : Z) (f : float) : Prop :=
  match f with
  | S754_zero false => True
  | S754_infinity false => True
  | S754_finite false m e => 2 ^ 52 <= Zpos m < 2 ^ 53 /\ L <= e <= 971
  | _ => False
  end.

(** The scaled value of [i / 1000000]. *)
Definition quotient_spec (i : Z) : Z :=
  if i =? 0 then 0 else Z.min (RNZ (i * 2 ^ 1074) 1000000) TOP.

(** The scaled value of the sum of two floats of scaled values [a] and [b]. *)
Definition sum_spec (a b : Z) : Z :=
  if a + b =? 0 then 0 else Z.min (RNZ (a + b) 1) TOP.

End FloatSpec.

(* ===================================================================== *)
(** * What can be read off a trace *)
(* ===================================================================== *)

Module Observe.

(** The texts written to files, with the file of each, oldest first. *)
Definition writes (t : list event) : list (fpath * str) :=
  flat_map (fun ev => match ev with
                      | WriteText p text => [(p, text)]
                      | _ => []
                      end) t.

(** The files a run opened for writing or saved a document to. *)
Definition targets (t : list event) : list str :=
  flat_map (fun ev => match ev with
                      | OpenWrite (Local p) => [p]
                      | OpenWrite (InProject rel) => [Fs.relpath rel]
                      | Docx (SaveDocument p) => [p]
                      | _ => []
                      end) t.

(** The number of generation calls of a run. *)
Definition invocations (t : list event) : nat :=
  List.length (filter is_network t).

Definition is_spacer (ev : event) : bool :=
  match ev with Docx AddSpacer => true | _ => false end.

(** The number of spacer paragraphs a run added. *)
Definition spacers (t : list event) : nat := List.length (filter is_spacer t).

(** The event lists a directory. *)
Definition is_listing (ev : event) : bool :=
  match ev with ListDir _ => true | _ => false end.

Definition no_listing (ev : event) : Prop := is_listing ev = false.

(** The event saves the document. *)
Definition is_save (ev : event) : bool :=
  match ev with Docx (SaveDocument _) => true | _ => false end.

Definition no_save (ev : event) : Prop := is_save ev = false.
Definition no_spacer (ev : event) : Prop := is_spacer ev = false.

End Observe.

(* ===================================================================== *)
(** * More concrete worlds *)
(* ===================================================================== *)

Module Worlds.
Import Examples.

(** A project whose [.gitignore] is a directory: [os.path.exists] says
    yes, [open] refuses. *)
Definition gitignore_is_directory : World :=
  world key key
        (Fs.Dir [(py "a.ts", Ok (py "export const a = 1"))]
                [(py ".gitignore", Fs.Dir [] [])])
        (Ok caption_response) (Ok (py "class C {}")).

(** A project that holds nothing but an empty [schema.prisma]. *)
Definition empty_schema_only : World :=
  world key key (Fs.Dir [(py "schema.prisma", Ok [])] [])
        (Ok caption_response) (Ok (py "class C {}")).

(** One source file, and a model that cannot be reached. *)
Definition model_down : World :=
  world key key single_source (Raise (LibraryError (py "overloaded")))
        (Ok (py "class C {}")).

(** The output directory exists and is, of course, no picture: the path
    that [os.path.join] makes of it and an empty screenshot path exists,
    and [Image.open] refuses it. *)
Definition output_directory_exists : World :=
  let w := healthy in
  {| environ := environ w;
     tree := tree w;
     glob := glob w;
     new_client := new_client w;
     invoke := invoke w;
     format_prompt := format_prompt w;
     get_num_tokens := get_num_tokens w;
     open_write := open_write w;
     write_text := write_text w;
     console_render := console_render w;
     read_text := read_text w;
     path_exists := fun p => str_eqb p (py "./output/");
     makedirs := makedirs w;
     render_image := render_image w;
     image_size := fun p =>
       if str_eqb p (py "./output/") then Raise (OSError (py "Is a directory"))
       else Ok (800, 600)%Z;
     docx := docx w;
     findall := findall w;
     format_4f := format_4f w;
     argv_file_path := argv_file_path w |}.

(** The model's answer holds a character that the output file's encoding
    lacks: [f.write] refuses it with a [UnicodeEncodeError], a
    [ValueError]. *)
Definition unwritable_answer : World :=
  let w := healthy in
  {| environ := environ w;
     tree := tree w;
     glob := glob w;
     new_client := new_client w;
     invoke := invoke w;
     format_prompt := format_prompt w;
     get_num_tokens := get_num_tokens w;
     open_write := open_write w;
     write_text := fun _ text =>
       if str_eqb text caption_response
       then Raise (ValueError (py "'ascii' codec can't encode character"))
       else Ok tt;
     console_render := console_render w;
     read_text := read_text w;
     path_exists := path_exists w;
     makedirs := makedirs w;
     render_image := render_image w;
     image_size := image_size w;
     docx := docx w;
     findall := findall w;
     format_4f := format_4f w;
     argv_file_path := argv_file_path w |}.

(** The model's answer holds a closing tag that nothing opened: Rich
    refuses to print it, with a [MarkupError]. *)
Definition unprintable_answer : World :=
  let w := healthy in
  {| environ := environ w;
     tree := tree w;
     glob := glob w;
     new_client := new_client w;
     invoke := invoke w;
     format_prompt := format_prompt w;
     get_num_tokens := get_num_tokens w;
     open_write := open_write w;
     write_text := write_text w;
     console_render := fun text =>
       if str_eqb text caption_response
       then Raise (LibraryError (py "closing tag '[/api]' doesn't match any open tag"))
       else Ok tt;
     read_text := read_text w;
     path_exists := path_exists w;
     makedirs := makedirs w;
     render_image := render_image w;
     image_size := image_size w;
     docx := docx w;
     findall := findall w;
     format_4f := format_4f w;
     argv_file_path := argv_file_path w |}.

End Worlds.

(* ===================================================================== *)
(** * The parts of a report entry *)
(* ===================================================================== *)

Module Entry.

(** The components of [(file_name, caption, explanation, screenshot_path)]. *)
Definition file_name_of (e : CodeExplanation.entry) : str :=
  let '(file_name, _, _, _) := e in file_name.
Definition explanation_of (e : CodeExplanation.entry) : str :=
  let '(_, _, explanation, _) := e in explanation.
Definition screenshot_of (e : CodeExplanation.entry) : str :=
  let '(_, _, _, screenshot_path) := e in screenshot_path.

(** What the loop of [generate_code_explanations] keeps true of its three
    variables, [done] being the files it has been through. *)
Definition loop_invariant (done : list (str * str)) (st : list CodeExplanation.entry * Z * Z) : Prop :=
  let '(xs, i, o) := st in
  Forall (fun e => explanation_of e <> []) xs
  /\ incl (map file_name_of xs) (map fst done)
  /\ (List.length xs <= List.length done)%nat
  /\ (xs = [] -> i = 0%Z /\ o = 0%Z).

End Entry.

(* ===================================================================== *)
(** * Where the cost stops being a float *)
(* ===================================================================== *)

Module CostLimit.

(** The first token count whose quotient by a million rounds beyond the
    largest float: [(2^1024 - 2^970) * 10^6]. *)
Definition first_overflow : Z := ((2 ^ 1024 - 2 ^ 970) * 1000000)%Z.

(** The scaled value of [i / 1000]. *)
Definition thousandth_spec (i : Z) : Z :=
  if (i =? 0)%Z then 0%Z
  else Z.min (FloatSpec.RNZ (i * 2 ^ 1074) 1000) FloatSpec.TOP.

End CostLimit.

(* ===================================================================== *)
(** * The lexer of a screenshot ([code-explanation.py]) *)
(* ===================================================================== *)

Module Lexer.

(** [os.path.splitext(path)[1]]: the extension of the last component,
    from its last dot on; none when the dots of the component all lead
    it. *)
Definition splitext_ext (path : str) : str :=
  let name := Fs.basename path in
  skipn (List.length (Fs.splitext_root name)) name.

(** The lexers [get_lexer_for_file] can return: [JavascriptLexer()], or
    what [get_lexer_by_name] finds for an alias. *)
Inductive lexer :=
| JavascriptLexer
| ByName (alias : str).

(** [get_lexer_for_file]; [known] says for which aliases
    [get_lexer_by_name] finds a lexer (for the others it raises
    [ClassNotFound]). *)
Definition get_lexer_for_file (known : str -> bool) (file_name : str) : lexer :=
  let extension := skipn 1 (splitext_ext file_name) in
  if str_in extension [py "tsx"; py "jsx"] then JavascriptLexer
  else if known extension then ByName extension
       else JavascriptLexer.

End Lexer.

(* ===================================================================== *)
(** * Where a file sits in the project *)
(* ===================================================================== *)

Module Tree.

(** The listings of the directories at the path [rel] below [t] (one,
    unless a listing repeats a name). *)
Fixpoint dirs_at (rel : list str) (t : Fs.tree) : list (list (str * result str)) :=
  match rel with
  | [] => [Fs.files_of t]
  | name :: rel' =>
      flat_map (fun d => if str_eqb (fst d) name then dirs_at rel' (snd d) else [])
               (Fs.dirs_of t)
  end.

Definition listings (w : World) (rel : list str) : list (list (str * result str)) :=
  match tree w with
  | Some t => dirs_at rel t
  | None => []
  end.

(** The file [file] of the directory [rel] can be read, is on the
    allow-list, lies below no directory with an excluded name, and
    neither its directory nor the file itself matches the ignore rules. *)
Definition eligible (allow : str -> bool) (spec : PathSpec.spec) (w : World)
           (rel : list str) (file content : str) : Prop :=
  (exists listing, In listing (listings w rel) /\ In (file, Ok content) listing)
  /\ (forall d, In d rel -> ~ In d ScanSpec.excluded_names)
  /\ allow file = true
  /\ PathSpec.match_file spec (Fs.relpath rel) = false
  /\ PathSpec.match_file spec (Fs.relpath (rel ++ [file])) = false.

End Tree.

(* ===================================================================== *)
(** * Facts about strings *)
(* ===================================================================== *)

Unset Implicit Arguments.

Module StrFacts.

Lemma startswith_nil (s : str) : startswith s [] = true.
Proof. destruct s; reflexivity. Qed.

Lemma startswith_cons (a b : N) (p s : str) :
  startswith (b :: s) (a :: p) = (a =? b)%N && startswith s p.
Proof. reflexivity. Qed.

Lemma startswith_app (p t : str) : startswith (p ++ t) p = true.
Proof.
  induction p as [|a p IH]; simpl.
  - apply startswith_nil.
  - now rewrite N.eqb_refl.
Qed.


Lemma skipn_app_exact (p t : str) : skipn (List.length p) (p ++ t) = t.
Proof. induction p; simpl; auto. Qed.

Lemma partition_eq (sep s : str) :
  partition sep s =
  if startswith s sep then Some ([], skipn (List.length sep) s)
  else match s with
       | [] => None
       | c :: s' =>
           match partition sep s' with
           | Some (a, b) => Some (c :: a, b)
           | None => None
           end
       end.
Proof. destruct s; reflexivity. Qed.

(** The first occurrence of [sep] is the one no earlier position starts. *)
Lemma partition_first (sep a b : str) :
  (forall a1 a2, a = a1 ++ a2 -> a2 <> [] ->
                 startswith (a2 ++ sep ++ b) sep = false) ->
  partition sep (a ++ sep ++ b) = Some (a, b).
Proof.
  induction a as [|c a IH]; intros Hfree.
  - simpl app. now rewrite partition_eq, startswith_app, skipn_app_exact.
  - rewrite partition_eq.
    assert (Hc : startswith ((c :: a) ++ sep ++ b) sep = false).
    { apply (Hfree [] (c :: a)); [reflexivity | discriminate]. }
    rewrite Hc. cbn [app]. rewrite IH; [reflexivity|].
    intros a1 a2 -> Hne. apply (Hfree (c :: a1) a2); [reflexivity | exact Hne].
Qed.

Lemma partition_some_contains (sub x1 x2 : str) :
  contains (x1 ++ sub ++ x2) sub = true.
Proof.
  unfold contains.
  induction x1 as [|c x1 IH].
  - simpl app. now rewrite partition_eq, startswith_app.
  - rewrite partition_eq.
    destruct (startswith ((c :: x1) ++ sub ++ x2) sub); [reflexivity|].
    cbn [app].
    destruct (partition sub (x1 ++ sub ++ x2)) as [[? ?]|]; [reflexivity | discriminate].
Qed.

Lemma contains_false_cons (sub : str) (c : N) (s : str) :
  contains (c :: s) sub = false ->
  startswith (c :: s) sub = false /\ contains s sub = false.
Proof.
  unfold contains. rewrite partition_eq.
  destruct (startswith (c :: s) sub); [discriminate|].
  destruct (partition sub s) as [[? ?]|]; [discriminate | auto].
Qed.

Lemma partition_none (sep s : str) :
  contains s sep = false -> partition sep s = None.
Proof.
  unfold contains. destruct (partition sep s); [discriminate | reflexivity].
Qed.

(** A character that a prefix does not hold sits in the rest. *)
Lemma split_after_prefix (l x a1 a2 : str) (c : N) :
  l ++ x = a1 ++ c :: a2 -> ~ In c l -> exists x1, x = x1 ++ c :: a2.
Proof.
  revert a1; induction l as [|d l IH]; intros a1 E Hc.
  - now exists a1.
  - destruct a1 as [|d' a1]; simpl in E; injection E as E1 E2.
    + subst d. exfalso. apply Hc. now left.
    + apply (IH a1 E2). intros Hin. apply Hc. now right.
Qed.

Lemma lstrip_length (s : str) : (List.length (lstrip s) <= List.length s)%nat.
Proof.
  induction s as [|c s IH]; simpl; [lia|].
  destruct (isspace c); simpl; lia.
Qed.

Lemma lstrip_fixed (s : str) :
  List.length (lstrip s) = List.length s -> lstrip s = s.
Proof.
  destruct s as [|c s]; simpl; [reflexivity|].
  destruct (isspace c); [|reflexivity].
  pose proof (lstrip_length s). lia.
Qed.

Lemma lstrip_head (c : N) (s : str) : lstrip (c :: s) = c :: s -> isspace c = false.
Proof.
  simpl. destruct (isspace c); [|reflexivity].
  intros E. pose proof (lstrip_length s) as L. rewrite E in L. simpl in L. lia.
Qed.

(** A stripped string neither starts nor ends with white space. *)
Lemma strip_fixed (s : str) :
  strip s = s -> lstrip s = s /\ lstrip (rev s) = rev s.
Proof.
  unfold strip, rstrip. intros E.
  assert (L : List.length (lstrip s) = List.length s).
  { pose proof (lstrip_length s) as L1.
    pose proof (lstrip_length (rev (lstrip s))) as L2.
    pose proof (f_equal (@List.length N) E) as L3.
    rewrite length_rev in L2, L3. lia. }
  apply lstrip_fixed in L. rewrite L in E. split; [exact L|].
  rewrite <- E at 2. now rewrite rev_involutive.
Qed.

Lemma strip_fixed_last (x : str) (c : N) :
  strip (x ++ [c]) = x ++ [c] -> isspace c = false.
Proof.
  intros E. apply strip_fixed in E as [_ E].
  rewrite rev_app_distr in E. simpl in E. now apply lstrip_head in E.
Qed.

Lemma replace_from_skip (old new l x : str) :
  replace_from old new (List.length l) (l ++ x) = replace_from old new 0 x.
Proof. induction l as [|c l IH]; simpl; auto. Qed.

Lemma replace_from_cons (old new : str) (c : N) (s : str) :
  replace_from old new 0 (c :: s) =
  if startswith (c :: s) old
  then new ++ replace_from old new (List.length old - 1) s
  else c :: replace_from old new 0 s.
Proof. reflexivity. Qed.

Lemma replace_from_absent (old new s : str) :
  contains s old = false -> replace_from old new 0 s = s.
Proof.
  induction s as [|c s IH]; intros H; [reflexivity|].
  apply contains_false_cons in H as [H1 H2].
  rewrite replace_from_cons, H1. f_equal. now apply IH.
Qed.

(** Removing a label from the front of a text that does not hold it. *)
Lemma replace_label (c : N) (label x : str) :
  contains x (c :: label) = false ->
  replace (c :: label) [] ((c :: label) ++ x) = x.
Proof.
  intros H. unfold replace.
  change ((c :: label) ++ x) with (c :: (label ++ x)).
  rewrite replace_from_cons.
  change (c :: (label ++ x)) with ((c :: label) ++ x).
  rewrite startswith_app.
  change (List.length (c :: label) - 1)%nat with (List.length label - 0)%nat.
  rewrite Nat.sub_0_r, replace_from_skip. now apply replace_from_absent.
Qed.

End StrFacts.

(* ===================================================================== *)
(** * The response parser of [code-explanation.py] *)
(* ===================================================================== *)

Module ResponseParser.
Import CodeExplanation StrFacts.

Lemma label_has_no_line_feed : ~ In 10%N (py "Caption: ").
Proof. cbv. intuition discriminate. Qed.

(** With a stripped caption that holds no blank line, the first blank
    line of the response is the one after the caption. *)
Lemma caption_split (X Y : str) :
  strip X = X -> contains X (nl ++ nl) = false ->
  partition (nl ++ nl) (py "Caption: " ++ X ++ nl ++ nl ++ Y)
  = Some (py "Caption: " ++ X, Y).
Proof.
  intros Hstrip Hblank.
  replace (py "Caption: " ++ X ++ nl ++ nl ++ Y)
    with ((py "Caption: " ++ X) ++ (nl ++ nl) ++ Y)
    by now rewrite <- !app_assoc.
  apply partition_first. intros a1 a2 E Hne.
  destruct a2 as [|c a2]; [congruence|].
  destruct (startswith ((c :: a2) ++ (nl ++ nl) ++ Y) (nl ++ nl)) eqn:S;
    [exfalso | reflexivity].
  unfold nl in S. cbn [app] in S. rewrite startswith_cons in S.
  apply andb_true_iff in S as [Hc S]. apply N.eqb_eq in Hc. subst c.
  destruct (split_after_prefix _ _ _ _ _ E label_has_no_line_feed) as [x1 Ex].
  destruct a2 as [|d a2].
  - rewrite Ex in Hstrip. apply strip_fixed_last in Hstrip. discriminate.
  - cbn [app] in S. rewrite startswith_cons in S.
    apply andb_true_iff in S as [Hd _]. apply N.eqb_eq in Hd. subst d.
    rewrite Ex in Hblank.
    change (x1 ++ 10%N :: 10%N :: a2) with (x1 ++ (nl ++ nl) ++ a2) in Hblank.
    rewrite partition_some_contains in Hblank. discriminate.
Qed.

Lemma parse_response_caption (X Y : str) :
  strip X = X ->
  contains X (nl ++ nl) = false ->
  contains X (py "Caption: ") = false ->
  parse_response (py "Caption: " ++ X ++ nl ++ nl ++ Y) = Ok (X, Y).
Proof.
  intros Hstrip Hblank Hlabel.
  unfold parse_response, split1.
  rewrite caption_split by assumption. cbn [unpack2].
  change (py "Caption: ") with (67%N :: py "aption: ") in *.
  rewrite replace_label by assumption.
  now rewrite Hstrip.
Qed.

Lemma parse_response_no_blank_line (response : str) :
  contains response (nl ++ nl) = false ->
  exists e, parse_response response = Raise e.
Proof.
  intros H. unfold parse_response, split1.
  rewrite (partition_none _ _ H). cbn. eauto.
Qed.

(** What [generate_explanation] does with the response, once the client
    is built and has answered. *)
Lemma generate_explanation_parsed (w : World) (file_name file_content response : str) :
  new_client w model_name (environ w (py "OPENAI_API_KEY")) = Ok tt ->
  invoke w [file_name; file_content] = Ok response ->
  outcome (generate_explanation w file_name file_content)
  = match parse_response response with
    | Raise _ => Returns ([], [], 0%Z, 0%Z)
    | Ok (caption, explanation) =>
        match get_num_tokens w (format_prompt w [file_name; file_content]),
              get_num_tokens w response with
        | Ok input_tokens, Ok output_tokens =>
            Returns (caption, explanation, input_tokens, output_tokens)
        | _, _ => Returns ([], [], 0%Z, 0%Z)
        end
    end.
Proof.
  intros Hc Hi. unfold generate_explanation.
  rewrite Hc, Hi. cbn.
  destruct (parse_response response) as [[caption explanation]|e]; cbn; [|reflexivity].
  destruct (get_num_tokens w (format_prompt w [file_name; file_content])); cbn;
    [|reflexivity].
  destruct (get_num_tokens w response); reflexivity.
Qed.

(** C2 (as amended). A response [Caption: X], a blank line, [Y] parses
    to caption [X] and explanation [Y] exactly when [X] is stripped, holds
    no blank line and does not hold the label [Caption: ] again; then
    [generate_explanation] returns [X] and [Y] with the two token counts.
    A response without a blank line makes [generate_explanation] return
    the failure value (empty caption, empty explanation, zero tokens). *)
Theorem C2_caption_round_trip :
  (forall X Y : str,
      strip X = X ->
      contains X (nl ++ nl) = false ->
      contains X (py "Caption: ") = false ->
      parse_response (py "Caption: " ++ X ++ nl ++ nl ++ Y) = Ok (X, Y))
  /\ (forall (w : World) (file_name file_content X Y : str) (i o : Z),
         strip X = X ->
         contains X (nl ++ nl) = false ->
         contains X (py "Caption: ") = false ->
         new_client w model_name (environ w (py "OPENAI_API_KEY")) = Ok tt ->
         invoke w [file_name; file_content]
         = Ok (py "Caption: " ++ X ++ nl ++ nl ++ Y) ->
         get_num_tokens w (format_prompt w [file_name; file_content]) = Ok i ->
         get_num_tokens w (py "Caption: " ++ X ++ nl ++ nl ++ Y) = Ok o ->
         outcome (generate_explanation w file_name file_content)
         = Returns (X, Y, i, o))
  /\ (forall (w : World) (file_name file_content response : str),
         new_client w model_name (environ w (py "OPENAI_API_KEY")) = Ok tt ->
         invoke w [file_name; file_content] = Ok response ->
         contains response (nl ++ nl) = false ->
         outcome (generate_explanation w file_name file_content)
         = Returns ([], [], 0%Z, 0%Z)).
Proof.
  split; [exact parse_response_caption | split].
  - intros w f c X Y i o H1 H2 H3 Hc Hi Hti Hto.
    rewrite (generate_explanation_parsed _ _ _ _ Hc Hi).
    now rewrite parse_response_caption, Hti, Hto.
  - intros w f c r Hc Hi Hr.
    rewrite (generate_explanation_parsed _ _ _ _ Hc Hi).
    destruct (parse_response_no_blank_line _ Hr) as [e ->]. reflexivity.
Qed.

(** C2 at [Caption: Adds two numbers], a blank line, [The function adds.] *)
Lemma C2_caption_round_trip_witness :
  parse_response (py "Caption: Adds two numbers" ++ nl ++ nl ++ py "The function adds.")
  = Ok (py "Adds two numbers", py "The function adds.").
Proof.
  apply (proj1 C2_caption_round_trip (py "Adds two numbers") (py "The function adds."));
    vm_compute; reflexivity.
Defined.

(** C2 as stated fails: a caption that holds a blank line is cut at it,
    and the rest moves into the explanation. *)
Lemma C2_counterexample :
  ~ (forall X Y : str,
        parse_response (py "Caption: " ++ X ++ nl ++ nl ++ Y) = Ok (X, Y)).
Proof.
  intros H.
  specialize (H (py "Figure" ++ nl ++ nl ++ py "one") (py "Body")).
  vm_compute in H. discriminate.
Qed.

End ResponseParser.

(* ===================================================================== *)
(** * Facts about computations and their traces *)
(* ===================================================================== *)

Module EffFacts.

Lemma outcome_bind {A B} (m : M A) (f : A -> M B) :
  outcome (bind m f) =
  match outcome m with
  | Returns a => outcome (f a)
  | Raises e => Raises e
  | Exits c => Exits c
  end.
Proof.
  destruct m as [[a|e|c] t]; cbn; try reflexivity.
  now destruct (f a).
Qed.

Lemma trace_bind {A B} (m : M A) (f : A -> M B) :
  trace (bind m f) =
  trace m ++ match outcome m with
             | Returns a => trace (f a)
             | _ => []
             end.
Proof.
  destruct m as [[a|e|c] t]; cbn; try now rewrite app_nil_r.
  now destruct (f a).
Qed.

Lemma outcome_try {A} (m : M A) (h : exn -> M A) :
  outcome (try_except m h) =
  match outcome m with
  | Raises e => outcome (h e)
  | o => o
  end.
Proof.
  destruct m as [[a|e|c] t]; cbn; try reflexivity.
  now destruct (h e).
Qed.

Lemma trace_try {A} (m : M A) (h : exn -> M A) :
  trace (try_except m h) =
  trace m ++ match outcome m with
             | Raises e => trace (h e)
             | _ => []
             end.
Proof.
  destruct m as [[a|e|c] t]; cbn; try now rewrite app_nil_r.
  now destruct (h e).
Qed.

Lemma outcome_lift {A} (r : result A) :
  outcome (lift r) = match r with Ok a => Returns a | Raise e => Raises e end.
Proof. now destruct r. Qed.

Lemma trace_lift {A} (r : result A) : trace (lift r) = [].
Proof. now destruct r. Qed.

(** An event of a sequence comes from its first part, or from its second
    part run on what the first returned. *)
Lemma in_trace_bind {A B} (m : M A) (f : A -> M B) (ev : event) :
  In ev (trace (bind m f)) ->
  In ev (trace m) \/ exists a, outcome m = Returns a /\ In ev (trace (f a)).
Proof.
  rewrite trace_bind. intros H. apply in_app_or in H as [H|H]; [now left|].
  destruct (outcome m) as [a| |]; try contradiction.
  right. now exists a.
Qed.

Lemma in_trace_try {A} (m : M A) (h : exn -> M A) (ev : event) :
  In ev (trace (try_except m h)) ->
  In ev (trace m) \/ exists e, outcome m = Raises e /\ In ev (trace (h e)).
Proof.
  rewrite trace_try. intros H. apply in_app_or in H as [H|H]; [now left|].
  destruct (outcome m) as [|e|]; try contradiction.
  right. now exists e.
Qed.

(** A loop whose body always returns, returns: the fold of the body's
    results. *)
Lemma for_each_outcome {A S} (xs : list A) (body : S -> A -> M S)
      (step : S -> A -> S) (s : S) :
  (forall s x, In x xs -> outcome (body s x) = Returns (step s x)) ->
  outcome (for_each xs body s) = Returns (fold_left step xs s).
Proof.
  revert s; induction xs as [|x xs IH]; intros s H; [reflexivity|].
  cbn [for_each fold_left]. rewrite outcome_bind, H by now left.
  apply IH. intros s' x' Hin. apply H. now right.
Qed.

(** An event of a loop comes from one run of its body. *)
Lemma in_trace_for_each {A S} (xs : list A) (body : S -> A -> M S) (s : S)
      (ev : event) :
  In ev (trace (for_each xs body s)) ->
  exists x s', In x xs /\ In ev (trace (body s' x)).
Proof.
  revert s; induction xs as [|x xs IH]; intros s H; [contradiction|].
  cbn [for_each] in H. apply in_trace_bind in H as [H|(s' & _ & H)].
  - exists x, s. split; [now left | exact H].
  - destruct (IH _ H) as (x' & s'' & Hin & Hev).
    exists x', s''. split; [now right | exact Hev].
Qed.

Lemma all_events_bind {A B} (P : event -> Prop) (m : M A) (f : A -> M B) :
  all_events P m -> (forall a, all_events P (f a)) -> all_events P (bind m f).
Proof.
  intros Hm Hf ev H. apply in_trace_bind in H as [H|(a & _ & H)].
  - now apply Hm.
  - now apply (Hf a).
Qed.

Lemma all_events_bind_outcome {A B} (P : event -> Prop) (m : M A) (f : A -> M B) :
  all_events P m ->
  (forall a, outcome m = Returns a -> all_events P (f a)) ->
  all_events P (bind m f).
Proof.
  intros Hm Hf ev H. apply in_trace_bind in H as [H|(a & Ha & H)].
  - now apply Hm.
  - now apply (Hf a Ha).
Qed.

Lemma all_events_try {A} (P : event -> Prop) (m : M A) (h : exn -> M A) :
  all_events P m -> (forall e, all_events P (h e)) -> all_events P (try_except m h).
Proof.
  intros Hm Hh ev H. apply in_trace_try in H as [H|(e & _ & H)].
  - now apply Hm.
  - now apply (Hh e).
Qed.

Lemma all_events_for_each {A S} (P : event -> Prop) (xs : list A)
      (body : S -> A -> M S) (s : S) :
  (forall s x, In x xs -> all_events P (body s x)) ->
  all_events P (for_each xs body s).
Proof.
  intros H ev Hev. apply in_trace_for_each in Hev as (x & s' & Hin & Hev).
  now apply (H s' x Hin).
Qed.

Lemma all_events_ret {A} (P : event -> Prop) (a : A) : all_events P (ret a).
Proof. intros ev []. Qed.

Lemma all_events_lift {A} (P : event -> Prop) (r : result A) :
  all_events P (lift r).
Proof. intros ev H. rewrite trace_lift in H. destruct H. Qed.

Lemma all_events_emit (P : event -> Prop) (e : event) :
  P e -> all_events P (emit e).
Proof. intros H ev [<-|[]]. exact H. Qed.

Lemma all_events_raise {A} (P : event -> Prop) (e : exn) :
  all_events P (@raise A e).
Proof. intros ev []. Qed.

Lemma all_events_sys_exit {A} (P : event -> Prop) (c : Z) :
  all_events P (@sys_exit A c).
Proof. intros ev []. Qed.

Lemma returns_try {A} (m : M A) (h : exn -> M A) :
  no_exit m -> (forall e, returns (h e)) -> returns (try_except m h).
Proof.
  unfold no_exit. intros Hm Hh. unfold returns. rewrite outcome_try.
  destruct (outcome m) as [a|e|c]; [now exists a | apply Hh | contradiction].
Qed.

Lemma returns_bind {A B} (m : M A) (f : A -> M B) :
  returns m -> (forall a, returns (f a)) -> returns (bind m f).
Proof.
  intros [a Ha] Hf. unfold returns. rewrite outcome_bind, Ha. apply Hf.
Qed.

Lemma returns_ret {A} (a : A) : returns (ret a).
Proof. now exists a. Qed.

Lemma returns_emit (e : event) : returns (emit e).
Proof. now exists tt. Qed.

Lemma returns_for_each {A S} (xs : list A) (body : S -> A -> M S) (s : S) :
  (forall s x, returns (body s x)) -> returns (for_each xs body s).
Proof.
  intros H. revert s. induction xs as [|x xs IH]; intros s.
  - apply returns_ret.
  - cbn [for_each]. apply returns_bind; [apply H | apply IH].
Qed.

Lemma no_exit_bind {A B} (m : M A) (f : A -> M B) :
  no_exit m -> (forall a, no_exit (f a)) -> no_exit (bind m f).
Proof.
  unfold no_exit. rewrite outcome_bind.
  destruct (outcome m) as [a|e|c]; intros Hm Hf; [apply Hf | exact I | exact Hm].
Qed.

Lemma no_exit_try {A} (m : M A) (h : exn -> M A) :
  no_exit m -> (forall e, no_exit (h e)) -> no_exit (try_except m h).
Proof.
  unfold no_exit. rewrite outcome_try.
  destruct (outcome m) as [a|e|c]; intros Hm Hh; [exact I | apply Hh | exact Hm].
Qed.

Lemma no_exit_lift {A} (r : result A) : no_exit (lift r).
Proof. unfold no_exit. rewrite outcome_lift. now destruct r. Qed.

Lemma no_exit_returns {A} (m : M A) : returns m -> no_exit m.
Proof. intros [a H]. unfold no_exit. now rewrite H. Qed.

Lemma no_exit_for_each {A S} (xs : list A) (body : S -> A -> M S) (s : S) :
  (forall s x, no_exit (body s x)) -> no_exit (for_each xs body s).
Proof.
  intros H. revert s. induction xs as [|x xs IH]; intros s.
  - exact I.
  - cbn [for_each]. apply no_exit_bind; [apply H | apply IH].
Qed.

Lemma raises_only_returns {A} (P : exn -> Prop) (m : M A) :
  returns m -> raises_only P m.
Proof. intros [a H] e E. rewrite H in E. discriminate. Qed.

Lemma raises_only_bind {A B} (P : exn -> Prop) (m : M A) (f : A -> M B) :
  raises_only P m -> (forall a, raises_only P (f a)) -> raises_only P (bind m f).
Proof.
  intros Hm Hf e. rewrite outcome_bind.
  destruct (outcome m) as [a|e0|c] eqn:E; [apply Hf | | discriminate].
  intros [= <-]. now apply Hm.
Qed.

Lemma raises_only_weaken {A} (P Q : exn -> Prop) (m : M A) :
  (forall e, P e -> Q e) -> raises_only P m -> raises_only Q m.
Proof. intros H Hm e E. apply H, Hm, E. Qed.

Lemma raises_only_for_each {A S} (P : exn -> Prop) (xs : list A)
      (body : S -> A -> M S) (s : S) :
  (forall s x, raises_only P (body s x)) -> raises_only P (for_each xs body s).
Proof.
  intros H. revert s. induction xs as [|x xs IH]; intros s.
  - intros e E. discriminate.
  - cbn [for_each]. apply raises_only_bind; [apply H | exact IH].
Qed.

End EffFacts.

(* ===================================================================== *)
(** * Facts about the walk and the two scanning loops *)
(* ===================================================================== *)

Module ScanFacts.
Import EffFacts ScanSpec.

(** Induction on a directory tree: the property holds of a directory
    when it holds of its subdirectories. *)
Lemma tree_induction (P : Fs.tree -> Prop) :
  (forall files dirs, Forall (fun d => P (snd d)) dirs -> P (Fs.Dir files dirs)) ->
  forall t, P t.
Proof.
  intros H. fix IH 1. intros [files dirs]. apply H.
  induction dirs as [|[name sub] dirs IHd]; constructor.
  - apply IH.
  - exact IHd.
Qed.

(** The walk only reaches directories whose names, from the top down,
    were all kept. *)
Lemma walk_kept (keep : str -> bool) (t : Fs.tree) :
  forall rel step,
    In step (Fs.walk keep rel t) ->
    exists extra, fst step = rel ++ extra /\ forallb keep extra = true.
Proof.
  induction t as [files dirs IH] using tree_induction.
  intros rel step Hin. cbn [Fs.walk] in Hin. destruct Hin as [<-|Hin].
  - exists []. now rewrite app_nil_r.
  - induction dirs as [|[name sub] dirs IHd]; [contradiction|].
    inversion IH as [|? ? Hsub Hrest]; subst.
    destruct (keep name) eqn:K.
    + apply in_app_or in Hin as [Hin|Hin].
      * destruct (Hsub _ _ Hin) as (extra & E & F).
        exists (name :: extra). rewrite E, <- app_assoc. split; [reflexivity|].
        cbn. now rewrite K.
      * now apply IHd.
    + now apply IHd.
Qed.

Lemma walk_project_kept (w : World) (step : list str * list (str * result str)) :
  In step (Scan.walk_project w) -> forallb Scan.keep_dir (fst step) = true.
Proof.
  unfold Scan.walk_project. destruct (tree w) as [t|]; [|contradiction].
  intros Hin. destruct (walk_kept _ _ _ _ Hin) as (extra & E & F).
  now rewrite E.
Qed.

Lemma str_eqb_eq (a b : str) : str_eqb a b = true <-> a = b.
Proof.
  unfold str_eqb. destruct (list_eq_dec N.eq_dec a b); split; congruence.
Qed.

Lemma str_in_In (x : str) (xs : list str) : str_in x xs = true <-> In x xs.
Proof.
  unfold str_in. rewrite existsb_exists. split.
  - intros (y & Hy & E). apply str_eqb_eq in E. now subst.
  - intros H. exists x. split; [exact H | now apply str_eqb_eq].
Qed.

(** A directory the walk reaches and the loop body does not skip has no
    excluded name on its path. *)
Lemma not_excluded (rel : list str) :
  forallb Scan.keep_dir rel = true ->
  Scan.skipped_dir rel = false ->
  existsb (fun d => str_in d excluded_names) rel = false.
Proof.
  intros K S.
  destruct (existsb (fun d => str_in d excluded_names) rel) eqn:E; [exfalso | reflexivity].
  apply existsb_exists in E as (d & Hd & Hx).
  rewrite forallb_forall in K. specialize (K d Hd).
  unfold Scan.keep_dir in K. apply negb_true_iff in K.
  unfold excluded_names, str_in in Hx. rewrite existsb_app in Hx.
  fold (str_in d Scan.pruned_names) in Hx. rewrite K in Hx. cbn [orb] in Hx.
  fold (str_in d Scan.skipped_names) in Hx.
  assert (Hparts : Fs.relpath_parts rel = rel).
  { destruct rel; [contradiction | reflexivity]. }
  unfold Scan.skipped_dir in S. rewrite Hparts in S.
  apply orb_false_iff in S as [S S3]. apply orb_false_iff in S as [S1 S2].
  apply str_in_In in Hx. unfold Scan.skipped_names in Hx. cbn [In] in Hx.
  destruct Hx as [<-|[<-|[<-|[]]]].
  - apply (proj2 (str_in_In _ _)) in Hd. congruence.
  - apply (proj2 (str_in_In _ _)) in Hd. congruence.
  - apply (proj2 (str_in_In _ _)) in Hd. congruence.
Qed.

End ScanFacts.

(* ===================================================================== *)
(** * The scan of [class-diagram.py] *)
(* ===================================================================== *)

Module ClassDiagramScan.
Import ClassDiagram EffFacts ScanSpec ScanFacts.

Lemma fold_left_flat_map {A B S} (f : S -> B -> S) (g : A -> list B)
      (xs : list A) (s : S) :
  fold_left f (flat_map g xs) s = fold_left (fun s x => fold_left f (g x) s) xs s.
Proof.
  revert s; induction xs as [|x xs IH]; intros s; [reflexivity|].
  cbn [flat_map fold_left]. now rewrite fold_left_app, IH.
Qed.

Lemma diagram_input_allow (file : str) :
  diagram_input file = is_ts file || is_prisma file.
Proof. reflexivity. Qed.

Lemma read_one_outcome directory spec rel st entry :
  outcome (read_one directory spec rel st entry)
  = Returns (fold_left add_file (accepted_entry diagram_input spec rel entry) st).
Proof.
  destruct entry as [file data].
  unfold read_one, accepted_entry. rewrite diagram_input_allow.
  destruct (is_ts file || is_prisma file) eqn:A; cbn [andb]; [|reflexivity].
  destruct (PathSpec.match_file spec (Fs.relpath (rel ++ [file]))); cbn [negb];
    [reflexivity|].
  rewrite outcome_try, outcome_bind. cbn [emit outcome fst].
  rewrite outcome_bind, outcome_lift.
  destruct data as [content|e].
  - cbn [fold_left]. unfold add_file, name_of, path_of, content_of. cbn [fst snd].
    destruct (is_ts file); [reflexivity|]. cbn [orb] in A. rewrite A. reflexivity.
  - rewrite outcome_bind. reflexivity.
Qed.

Lemma visit_outcome directory spec st step :
  outcome (visit directory spec st step)
  = Returns (fold_left add_file (accepted_step diagram_input spec step) st).
Proof.
  destruct step as [rel files].
  unfold visit, accepted_step.
  rewrite outcome_bind. cbn [emit outcome fst].
  destruct (Scan.skipped_dir rel); cbn [orb]; [reflexivity|].
  destruct (PathSpec.match_file spec (Fs.relpath rel)); [reflexivity|].
  unfold accepted_in. rewrite fold_left_flat_map.
  apply for_each_outcome. intros s x _. apply read_one_outcome.
Qed.

(** [read_project_files] returns what its accepted files add up to. *)
Lemma read_project_files_outcome (w : World) (directory : str) (spec : PathSpec.spec) :
  outcome (Scan.get_gitignore_spec w) = Returns spec ->
  outcome (read_project_files w directory)
  = let st := fold_left add_file (accepted diagram_input spec w) empty_state in
    Returns (typescript_content st, prisma_schema st, file_list st).
Proof.
  intros Hspec. unfold read_project_files.
  rewrite outcome_bind, Hspec, outcome_bind.
  rewrite (for_each_outcome _ _
             (fun s x => fold_left add_file (accepted_step diagram_input spec x) s))
    by (intros; apply visit_outcome).
  rewrite outcome_bind. cbn [log emit outcome fst ret].
  unfold accepted, accepted_on. now rewrite fold_left_flat_map.
Qed.

Lemma prisma_is_not_ts (file : str) : is_prisma file = true -> is_ts file = false.
Proof.
  unfold is_prisma. intros H. apply str_eqb_eq in H. subst file. reflexivity.
Qed.

Lemma last_default {A} (l : list A) (d d' : A) : l <> [] -> last l d = last l d'.
Proof.
  induction l as [|a l IH]; [congruence|]. intros _.
  destruct l as [|b l]; [reflexivity|].
  change (last (b :: l) d = last (b :: l) d'). apply IH. discriminate.
Qed.

Lemma last_cons {A} (a : A) (l : list A) (d : A) : last (a :: l) d = last l a.
Proof.
  destruct l as [|b l]; [reflexivity|].
  change (last (b :: l) d = last (b :: l) a). apply last_default. discriminate.
Qed.

(** The text the loop appends for a [.ts] file is the header with its
    path, between blank lines, and then its content. *)
Lemma typescript_payload_sections (acc : list accepted_file) :
  typescript_payload acc
  = List.concat (map (fun a => section (path_of a) (content_of a))
                     (filter (fun a => is_ts (name_of a)) acc)).
Proof. reflexivity. Qed.

(** The variables of the scan after a list of accepted files. *)
Lemma fold_add_file (acc : list accepted_file) (st : scan_state) :
  fold_left add_file acc st
  = {| typescript_content := typescript_content st ++ typescript_payload acc;
       prisma_schema :=
         last (map content_of (filter (fun a => is_prisma (name_of a)) acc))
              (prisma_schema st);
       file_list := file_list st ++ map path_of acc |}.
Proof.
  revert st; induction acc as [|a acc IH]; intros st.
  - destruct st. cbn. now rewrite !app_nil_r.
  - cbn [fold_left]. rewrite IH, !typescript_payload_sections.
    cbn [filter map add_file typescript_content prisma_schema file_list].
    destruct (is_ts (name_of a)) eqn:T.
    + destruct (is_prisma (name_of a)) eqn:P.
      { apply prisma_is_not_ts in P. congruence. }
      cbn [map concat]. now rewrite <- !app_assoc.
    + destruct (is_prisma (name_of a)) eqn:P.
      * cbn [map]. rewrite last_cons. now rewrite <- !app_assoc.
      * now rewrite <- !app_assoc.
Qed.

Lemma accepted_in_unmatched allow spec rel files a :
  In a (accepted_in allow spec rel files) ->
  PathSpec.match_file spec (path_of a) = false.
Proof.
  unfold accepted_in, accepted_entry. rewrite in_flat_map.
  intros ([file data] & _ & H).
  destruct (allow file); cbn [andb] in H; [|contradiction].
  destruct (PathSpec.match_file spec (Fs.relpath (rel ++ [file]))) eqn:E;
    cbn [negb] in H; [contradiction|].
  destruct data; [|contradiction]. destruct H as [<-|[]]. exact E.
Qed.

(** No accepted file matches the ignore rules. *)
Lemma accepted_unmatched allow spec w a :
  In a (accepted allow spec w) -> PathSpec.match_file spec (path_of a) = false.
Proof.
  unfold accepted, accepted_on, accepted_step. rewrite in_flat_map.
  intros ([rel files] & _ & H).
  destruct (Scan.skipped_dir rel || PathSpec.match_file spec (Fs.relpath rel));
    [contradiction|].
  now apply accepted_in_unmatched in H.
Qed.

End ClassDiagramScan.

(* ===================================================================== *)
(** * The scan of [code-explanation.py] *)
(* ===================================================================== *)

Module CodeExplanationScan.
Import CodeExplanation EffFacts ScanSpec ScanFacts.

Lemma source_read_one_outcome directory spec rel fs entry :
  outcome (read_one directory spec rel fs entry)
  = Returns (fs ++ map (fun a => (path_of a, content_of a))
                       (accepted_entry is_source spec rel entry)).
Proof.
  destruct entry as [file data].
  unfold read_one, accepted_entry.
  destruct (is_source file); cbn [andb]; [|now rewrite app_nil_r].
  destruct (PathSpec.match_file spec (Fs.relpath (rel ++ [file]))); cbn [negb];
    [now rewrite app_nil_r|].
  rewrite outcome_try, outcome_bind. cbn [emit outcome fst].
  rewrite outcome_bind, outcome_lift.
  destruct data as [content|e].
  - reflexivity.
  - rewrite outcome_bind. cbn. now rewrite app_nil_r.
Qed.

Lemma fold_left_append {A B} (f : A -> list B) (xs : list A) (acc : list B) :
  fold_left (fun fs x => fs ++ f x) xs acc = acc ++ flat_map f xs.
Proof.
  revert acc; induction xs as [|x xs IH]; intros acc; cbn [fold_left flat_map].
  - now rewrite app_nil_r.
  - now rewrite IH, app_assoc.
Qed.

Lemma map_flat_map {A B C} (g : B -> C) (f : A -> list B) (xs : list A) :
  map g (flat_map f xs) = flat_map (fun x => map g (f x)) xs.
Proof.
  induction xs as [|x xs IH]; [reflexivity|].
  cbn [flat_map]. now rewrite map_app, IH.
Qed.

Lemma source_visit_outcome directory spec fs step :
  outcome (visit directory spec fs step)
  = Returns (fs ++ map (fun a => (path_of a, content_of a))
                       (accepted_step is_source spec step)).
Proof.
  destruct step as [rel files].
  unfold visit, accepted_step.
  rewrite outcome_bind. cbn [emit outcome fst].
  destruct (Scan.skipped_dir rel); cbn [orb]; [now rewrite app_nil_r|].
  destruct (PathSpec.match_file spec (Fs.relpath rel)); [now rewrite app_nil_r|].
  unfold accepted_in. rewrite map_flat_map, <- fold_left_append.
  apply for_each_outcome. intros s x _. apply source_read_one_outcome.
Qed.

(** [read_typescript_files] returns its accepted files, in traversal
    order. *)
Lemma read_typescript_files_outcome (w : World) (directory : str)
      (spec : PathSpec.spec) :
  outcome (Scan.get_gitignore_spec w) = Returns spec ->
  outcome (read_typescript_files w directory)
  = Returns (map (fun a => (path_of a, content_of a)) (accepted is_source spec w)).
Proof.
  intros Hspec. unfold read_typescript_files.
  rewrite outcome_bind, Hspec, outcome_bind.
  rewrite (for_each_outcome _ _
             (fun fs x => fs ++ map (fun a => (path_of a, content_of a))
                                    (accepted_step is_source spec x)))
    by (intros; apply source_visit_outcome).
  rewrite outcome_bind. cbn [log emit outcome fst ret].
  unfold accepted, accepted_on. now rewrite fold_left_append, map_flat_map.
Qed.

End CodeExplanationScan.

(* ===================================================================== *)
(** * What the scans read *)
(* ===================================================================== *)

Module ScanReads.
Import EffFacts ScanSpec ScanFacts.

Lemma beneath_excluded_file (rel : list str) (file : str) :
  beneath_excluded (rel ++ [file]) = existsb (fun d => str_in d excluded_names) rel.
Proof. unfold beneath_excluded. now rewrite removelast_last. Qed.

Lemma get_gitignore_spec_reads (w : World) :
  all_events reads_outside_excluded (Scan.get_gitignore_spec w).
Proof.
  unfold Scan.get_gitignore_spec.
  apply all_events_bind; [now apply all_events_emit|]. intros _.
  destruct (Scan.gitignore_entry w); [|apply all_events_ret].
  apply all_events_bind; [now apply all_events_emit|]. intros _.
  apply all_events_bind; [apply all_events_lift|]. intros c.
  apply all_events_lift.
Qed.

Lemma class_diagram_read_one directory spec rel st entry :
  existsb (fun d => str_in d excluded_names) rel = false ->
  all_events reads_outside_excluded (ClassDiagram.read_one directory spec rel st entry).
Proof.
  intros Hrel. destruct entry as [file data]. unfold ClassDiagram.read_one.
  destruct (ClassDiagram.is_ts file || ClassDiagram.is_prisma file);
    [|apply all_events_ret].
  destruct (negb _); [|apply all_events_ret].
  apply all_events_try.
  - apply all_events_bind.
    + apply all_events_emit. cbn. now rewrite beneath_excluded_file.
    + intros _. apply all_events_bind; [apply all_events_lift|].
      intros c. apply all_events_ret.
  - intros e. apply all_events_bind; [now apply all_events_emit|].
    intros _. apply all_events_ret.
Qed.

Lemma code_explanation_read_one directory spec rel fs entry :
  existsb (fun d => str_in d excluded_names) rel = false ->
  all_events reads_outside_excluded
             (CodeExplanation.read_one directory spec rel fs entry).
Proof.
  intros Hrel. destruct entry as [file data]. unfold CodeExplanation.read_one.
  destruct (CodeExplanation.is_source file); [|apply all_events_ret].
  destruct (negb _); [|apply all_events_ret].
  apply all_events_try.
  - apply all_events_bind.
    + apply all_events_emit. cbn. now rewrite beneath_excluded_file.
    + intros _. apply all_events_bind; [apply all_events_lift|].
      intros c. apply all_events_ret.
  - intros e. apply all_events_bind; [now apply all_events_emit|].
    intros _. apply all_events_ret.
Qed.

Lemma class_diagram_visit (w : World) directory spec st step :
  In step (Scan.walk_project w) ->
  all_events reads_outside_excluded (ClassDiagram.visit directory spec st step).
Proof.
  intros Hin. apply walk_project_kept in Hin. destruct step as [rel files].
  unfold ClassDiagram.visit.
  apply all_events_bind; [now apply all_events_emit|]. intros _.
  destruct (Scan.skipped_dir rel) eqn:S; [apply all_events_ret|].
  destruct (PathSpec.match_file spec (Fs.relpath rel)); [apply all_events_ret|].
  apply all_events_for_each. intros s x _.
  apply class_diagram_read_one. now apply not_excluded.
Qed.

Lemma code_explanation_visit (w : World) directory spec fs step :
  In step (Scan.walk_project w) ->
  all_events reads_outside_excluded (CodeExplanation.visit directory spec fs step).
Proof.
  intros Hin. apply walk_project_kept in Hin. destruct step as [rel files].
  unfold CodeExplanation.visit.
  apply all_events_bind; [now apply all_events_emit|]. intros _.
  destruct (Scan.skipped_dir rel) eqn:S; [apply all_events_ret|].
  destruct (PathSpec.match_file spec (Fs.relpath rel)); [apply all_events_ret|].
  apply all_events_for_each. intros s x _.
  apply code_explanation_read_one. now apply not_excluded.
Qed.

Lemma read_project_files_reads (w : World) (directory : str) :
  all_events reads_outside_excluded (ClassDiagram.read_project_files w directory).
Proof.
  unfold ClassDiagram.read_project_files.
  apply all_events_bind; [apply get_gitignore_spec_reads|]. intros spec.
  apply all_events_bind.
  - apply all_events_for_each. intros s x Hin. now apply class_diagram_visit with (w := w).
  - intros st. apply all_events_bind; [now apply all_events_emit|].
    intros _. apply all_events_ret.
Qed.

Lemma read_typescript_files_reads (w : World) (directory : str) :
  all_events reads_outside_excluded (CodeExplanation.read_typescript_files w directory).
Proof.
  unfold CodeExplanation.read_typescript_files.
  apply all_events_bind; [apply get_gitignore_spec_reads|]. intros spec.
  apply all_events_bind.
  - apply all_events_for_each. intros s x Hin.
    now apply code_explanation_visit with (w := w).
  - intros st. apply all_events_bind; [now apply all_events_emit|].
    intros _. apply all_events_ret.
Qed.

(** C6. Whatever the tree and the ignore file, a file that either
    scanner opens ([read_project_files] of [class-diagram.py],
    [read_typescript_files] of [code-explanation.py]) has no directory named
    [.git], [node_modules], [dist], [build], [tests], [seeders] or [config]
    on its path below the scan root. *)
Theorem C6_excluded_directories_never_read
        (w : World) (directory : str) (p : list str) :
  In (OpenRead (InProject p)) (trace (ClassDiagram.read_project_files w directory))
  \/ In (OpenRead (InProject p))
        (trace (CodeExplanation.read_typescript_files w directory)) ->
  beneath_excluded p = false.
Proof.
  intros [H|H].
  - exact (read_project_files_reads w directory _ H).
  - exact (read_typescript_files_reads w directory _ H).
Qed.

(** C6 on a project with sources below [tests] and [node_modules]: the
    scan of [class-diagram.py] opens [src/schema.prisma], which lies below
    no excluded directory. *)
Lemma C6_excluded_directories_never_read_witness :
  beneath_excluded [py "src"; py "schema.prisma"] = false.
Proof.
  apply (C6_excluded_directories_never_read Examples.healthy (py "/srv/project")).
  left. vm_compute. tauto.
Defined.

End ScanReads.

(* ===================================================================== *)
(** * The payload of the class diagram *)
(* ===================================================================== *)

Module DiagramPayload.
Import ClassDiagram EffFacts ScanSpec ScanFacts ClassDiagramScan.

Lemma read_project_files_payload (w : World) (directory : str) (spec : PathSpec.spec) :
  outcome (Scan.get_gitignore_spec w) = Returns spec ->
  outcome (read_project_files w directory)
  = Returns (typescript_payload (accepted diagram_input spec w),
             schema_payload (accepted diagram_input spec w),
             map path_of (accepted diagram_input spec w)).
Proof.
  intros Hspec. rewrite (read_project_files_outcome w directory spec Hspec).
  cbv zeta. rewrite fold_add_file. reflexivity.
Qed.

(** With the key set and the client built, [generate_diagram] calls the
    model on the two payloads it was given. *)
Lemma generate_diagram_invokes (w : World) (ts prisma : str) :
  missing (environ w (py "ANTHROPIC_API_KEY")) = false ->
  new_client w model_name (environ w (py "ANTHROPIC_API_KEY")) = Ok tt ->
  In (Invoke [ts; prisma]) (trace (generate_diagram w ts prisma)).
Proof.
  intros Hkey Hclient. unfold generate_diagram. rewrite Hkey, Hclient.
  rewrite trace_bind. cbn [emit trace snd outcome fst].
  rewrite trace_bind. cbn [lift trace snd outcome fst].
  rewrite trace_try, trace_bind. cbn [emit trace snd app]. right. now left.
Qed.

(** C10. [read_project_files] returns, for the files it accepts in
    traversal order: the [.ts] texts concatenated, each under its path
    header; the text of the last accepted [schema.prisma] alone (every read
    of one overwrites the one before); and the path of every accepted file,
    each [schema.prisma] included. These two payloads are what
    [generate_class_diagram] hands to the model. *)
Theorem C10_last_schema_wins (w : World) (directory : str) (spec : PathSpec.spec) :
  outcome (Scan.get_gitignore_spec w) = Returns spec ->
  outcome (read_project_files w directory)
  = Returns (typescript_payload (accepted diagram_input spec w),
             schema_payload (accepted diagram_input spec w),
             map path_of (accepted diagram_input spec w))
  /\ (missing (environ w (py "ANTHROPIC_API_KEY")) = false ->
      new_client w model_name (environ w (py "ANTHROPIC_API_KEY")) = Ok tt ->
      truthy (typescript_payload (accepted diagram_input spec w))
      || truthy (schema_payload (accepted diagram_input spec w)) = true ->
      In (Invoke [typescript_payload (accepted diagram_input spec w);
                  schema_payload (accepted diagram_input spec w)])
         (trace (generate_class_diagram w directory))).
Proof.
  intros Hspec.
  pose proof (read_project_files_payload w directory spec Hspec) as Hread.
  split; [exact Hread|].
  intros Hkey Hclient Hfound.
  unfold generate_class_diagram.
  rewrite trace_try, trace_bind, Hread.
  apply in_or_app. left. apply in_or_app. right.
  apply orb_true_iff in Hfound.
  destruct (truthy (typescript_payload (accepted diagram_input spec w))) eqn:T.
  - cbn [negb andb]. rewrite trace_bind. apply in_or_app. left.
    now apply generate_diagram_invokes.
  - destruct Hfound as [|Hfound]; [discriminate|]. rewrite Hfound.
    cbn [negb andb]. rewrite trace_bind. apply in_or_app. left.
    now apply generate_diagram_invokes.
Qed.

(** C10 on a project with [schema.prisma] at the top and under [src]:
    the schema payload is the text of the second, the file list holds
    both. *)
Lemma C10_last_schema_wins_witness :
  outcome (read_project_files Examples.healthy (py "/srv/project"))
  = Returns
      (nl ++ nl ++ py "--- a.ts ---" ++ nl ++ nl ++ py "export const a = 1"
       ++ nl ++ nl ++ py "--- keep.gen.ts ---" ++ nl ++ nl ++ py "kept",
       py "model New {}",
       [py "a.ts"; py "keep.gen.ts"; py "schema.prisma"; py "src/schema.prisma"]).
Proof.
  exact (proj1 (C10_last_schema_wins
                  Examples.healthy (py "/srv/project")
                  [Examples.exclude_generated; Examples.keep_one]
                  eq_refl)).
Defined.

End DiagramPayload.

(* ===================================================================== *)
(** * The ignore rules *)
(* ===================================================================== *)

Module IgnoreRules.
Import EffFacts ScanSpec ScanFacts ClassDiagramScan CodeExplanationScan.
Import PathSpec.

Lemma fold_rules_stable (after : spec) (path : str) (b : bool) :
  (forall q, In q after -> matches q path = true -> include q = b) ->
  fold_left (fun matched p => if matches p path then include p else matched) after b = b.
Proof.
  induction after as [|q after IH]; intros H; [reflexivity|].
  cbn [fold_left]. destruct (matches q path) eqn:M.
  - rewrite (H q (or_introl eq_refl) M). apply IH.
    intros q' Hin. apply H. now right.
  - apply IH. intros q' Hin. apply H. now right.
Qed.

(** The last rule that matches a path decides. *)
Lemma match_file_last_match (before after : spec) (r : pattern) (path : str) :
  matches r path = true ->
  (forall q, In q after -> matches q path = true -> include q = include r) ->
  match_file (before ++ r :: after) path = include r.
Proof.
  intros Hr Hafter. unfold match_file. rewrite fold_left_app. cbn [fold_left].
  rewrite Hr. now apply fold_rules_stable.
Qed.

Lemma diagram_scan_skips_matched (w : World) (directory : str) (s : spec)
      (path : str) (ts prisma : str) (fl : list str) :
  outcome (Scan.get_gitignore_spec w) = Returns s ->
  match_file s path = true ->
  outcome (ClassDiagram.read_project_files w directory) = Returns (ts, prisma, fl) ->
  ~ In path fl.
Proof.
  intros Hs Hm Hout Hin.
  rewrite (DiagramPayload.read_project_files_payload w directory s Hs) in Hout.
  injection Hout as _ _ <-.
  apply in_map_iff in Hin as (a & <- & Ha).
  apply accepted_unmatched in Ha. congruence.
Qed.

Lemma explanation_scan_skips_matched (w : World) (directory : str) (s : spec)
      (path : str) (files : list (str * str)) :
  outcome (Scan.get_gitignore_spec w) = Returns s ->
  match_file s path = true ->
  outcome (CodeExplanation.read_typescript_files w directory) = Returns files ->
  ~ In path (map fst files).
Proof.
  intros Hs Hm Hout Hin.
  rewrite (read_typescript_files_outcome w directory s Hs) in Hout.
  injection Hout as <-.
  rewrite map_map in Hin. cbn [fst] in Hin.
  apply in_map_iff in Hin as (a & <- & Ha).
  apply accepted_unmatched in Ha. congruence.
Qed.

(** C7. Let the ignore file compile to the rules [before], [r],
    [after], in file order, where [r] is an exclude rule that matches
    [path] and no re-inclusion rule of [after] matches it. Then the matcher
    excludes [path], and neither scan returns it. The order decides: with
    one more rule at the end that re-includes [path], the matcher no longer
    excludes it. *)
Theorem C7_ignore_rules_in_order
        (w : World) (directory : str)
        (before after : spec) (r : pattern) (path : str) :
  outcome (Scan.get_gitignore_spec w) = Returns (before ++ r :: after) ->
  include r = true ->
  matches r path = true ->
  (forall q, In q after -> include q = false -> matches q path = false) ->
  match_file (before ++ r :: after) path = true
  /\ (forall ts prisma fl,
         outcome (ClassDiagram.read_project_files w directory)
         = Returns (ts, prisma, fl) ->
         ~ In path fl)
  /\ (forall files,
         outcome (CodeExplanation.read_typescript_files w directory)
         = Returns files ->
         ~ In path (map fst files))
  /\ (forall r',
         include r' = false -> matches r' path = true ->
         match_file ((before ++ r :: after) ++ [r']) path = false).
Proof.
  intros Hspec Hinc Hr Hafter.
  assert (Hm : match_file (before ++ r :: after) path = true).
  { rewrite match_file_last_match, Hinc; [reflexivity | exact Hr |].
    intros q Hin Hq. rewrite Hinc. destruct (include q) eqn:I; [reflexivity|].
    rewrite (Hafter q Hin I) in Hq. discriminate. }
  split; [exact Hm | split; [|split]].
  - intros ts prisma fl. now apply diagram_scan_skips_matched with (s := before ++ r :: after).
  - intros files. now apply explanation_scan_skips_matched with (s := before ++ r :: after).
  - intros r' Hinc' Hr'.
    rewrite (match_file_last_match (before ++ r :: after) [] r' path Hr');
      [exact Hinc' | intros q []].
Qed.

(** C7 on the project whose ignore file reads [*.gen.ts], then
    [!keep.gen.ts]: [api.gen.ts] is excluded. *)
Lemma C7_ignore_rules_in_order_witness :
  match_file [Examples.exclude_generated; Examples.keep_one] (py "api.gen.ts") = true.
Proof.
  refine (proj1 (C7_ignore_rules_in_order
                   Examples.healthy (py "/srv/project")
                   [] [Examples.keep_one] Examples.exclude_generated
                   (py "api.gen.ts") eq_refl eq_refl eq_refl _)).
  intros q [<-|[]] _. reflexivity.
Defined.

End IgnoreRules.

(* ===================================================================== *)
(** * Which functions return, raise or exit *)
(* ===================================================================== *)

Module Totality.
Import EffFacts.

Create HintDb no_exit discriminated.

(** Splits a goal [no_exit m] along the structure of [m]; what it leaves
    are the calls of other functions, looked up in the hint database. *)
Ltac no_exit_step :=
  first
    [ exact I
    | apply no_exit_lift
    | solve [auto with no_exit]
    | apply no_exit_bind; [|intros ?]
    | apply no_exit_try; [|intros ?]
    | apply no_exit_for_each; intros ? ?
    | match goal with
      | |- no_exit (if ?b then _ else _) => destruct b
      | |- no_exit (match ?x with _ => _ end) => destruct x
      end ].
Ltac no_exit_tac := repeat no_exit_step.

Lemma get_gitignore_spec_no_exit w : no_exit (Scan.get_gitignore_spec w).
Proof. unfold Scan.get_gitignore_spec. no_exit_tac. Qed.
#[local] Hint Resolve get_gitignore_spec_no_exit : no_exit.

Lemma diagram_read_one_no_exit d s rel st e :
  no_exit (ClassDiagram.read_one d s rel st e).
Proof. unfold ClassDiagram.read_one. no_exit_tac. Qed.
#[local] Hint Resolve diagram_read_one_no_exit : no_exit.

Lemma diagram_visit_no_exit d s st step : no_exit (ClassDiagram.visit d s st step).
Proof. unfold ClassDiagram.visit. no_exit_tac. Qed.
#[local] Hint Resolve diagram_visit_no_exit : no_exit.

Lemma read_project_files_no_exit w d : no_exit (ClassDiagram.read_project_files w d).
Proof. unfold ClassDiagram.read_project_files. no_exit_tac. Qed.
#[local] Hint Resolve read_project_files_no_exit : no_exit.

Lemma generate_diagram_no_exit w ts p : no_exit (ClassDiagram.generate_diagram w ts p).
Proof. unfold ClassDiagram.generate_diagram. no_exit_tac. Qed.
#[local] Hint Resolve generate_diagram_no_exit : no_exit.

Lemma explanation_read_one_no_exit d s rel fs e :
  no_exit (CodeExplanation.read_one d s rel fs e).
Proof. unfold CodeExplanation.read_one. no_exit_tac. Qed.
#[local] Hint Resolve explanation_read_one_no_exit : no_exit.

Lemma explanation_visit_no_exit d s fs step :
  no_exit (CodeExplanation.visit d s fs step).
Proof. unfold CodeExplanation.visit. no_exit_tac. Qed.
#[local] Hint Resolve explanation_visit_no_exit : no_exit.

Lemma read_typescript_files_no_exit w d :
  no_exit (CodeExplanation.read_typescript_files w d).
Proof. unfold CodeExplanation.read_typescript_files. no_exit_tac. Qed.
#[local] Hint Resolve read_typescript_files_no_exit : no_exit.

Lemma generate_explanation_no_exit w f c :
  no_exit (CodeExplanation.generate_explanation w f c).
Proof. unfold CodeExplanation.generate_explanation. no_exit_tac. Qed.
#[local] Hint Resolve generate_explanation_no_exit : no_exit.

Lemma create_code_screenshot_no_exit w f c cap o :
  no_exit (CodeExplanation.create_code_screenshot w f c cap o).
Proof. unfold CodeExplanation.create_code_screenshot. no_exit_tac. Qed.
#[local] Hint Resolve create_code_screenshot_no_exit : no_exit.

Lemma generate_explanation_with_screenshot_no_exit w f c o :
  no_exit (CodeExplanation.generate_explanation_with_screenshot w f c o).
Proof. unfold CodeExplanation.generate_explanation_with_screenshot. no_exit_tac. Qed.
#[local] Hint Resolve generate_explanation_with_screenshot_no_exit : no_exit.

Lemma resize_image_no_exit w p : no_exit (CodeExplanation.resize_image w p).
Proof. unfold CodeExplanation.resize_image. no_exit_tac. Qed.
#[local] Hint Resolve resize_image_no_exit : no_exit.

Lemma docx_call_no_exit w op : no_exit (CodeExplanation.docx_call w op).
Proof. unfold CodeExplanation.docx_call. no_exit_tac. Qed.
#[local] Hint Resolve docx_call_no_exit : no_exit.

Lemma add_section_no_exit w xs o u item :
  no_exit (CodeExplanation.add_section w xs o u item).
Proof. unfold CodeExplanation.add_section. no_exit_tac. Qed.
#[local] Hint Resolve add_section_no_exit : no_exit.

Lemma explain_one_no_exit w o st f : no_exit (CodeExplanation.explain_one w o st f).
Proof. unfold CodeExplanation.explain_one. no_exit_tac. Qed.
#[local] Hint Resolve explain_one_no_exit : no_exit.

End Totality.

(* ===================================================================== *)
(** * The cost a run reports *)
(* ===================================================================== *)

Module CostReport.
Import EffFacts Totality.

#[local] Hint Resolve
  read_project_files_no_exit generate_diagram_no_exit
  read_typescript_files_no_exit generate_explanation_with_screenshot_no_exit
  docx_call_no_exit add_section_no_exit explain_one_no_exit : no_exit.

Lemma failure_cost : calculate_cost 0 0 = Ok zero.
Proof. reflexivity. Qed.

(** [generate_class_diagram] always returns, and the cost it returns is
    [calculate_cost] of the token counts it returns. *)
Lemma generate_class_diagram_report (w : World) (directory : str) :
  exists diagram i o c fl,
    outcome (ClassDiagram.generate_class_diagram w directory)
    = Returns (diagram, i, o, c, fl)
    /\ calculate_cost i o = Ok c.
Proof.
  unfold ClassDiagram.generate_class_diagram.
  rewrite outcome_try, outcome_bind.
  pose proof (read_project_files_no_exit w directory) as Hread.
  unfold no_exit in Hread.
  destruct (outcome (ClassDiagram.read_project_files w directory))
    as [[[ts prisma] fl]|e|c]; [| |contradiction].
  - destruct (negb (truthy ts) && negb (truthy prisma)).
    + exists [], 0%Z, 0%Z, zero, []. split; reflexivity.
    + rewrite outcome_bind.
      pose proof (generate_diagram_no_exit w ts prisma) as Hgen.
      unfold no_exit in Hgen.
      destruct (outcome (ClassDiagram.generate_diagram w ts prisma))
        as [[[diagram i] o]|e|c]; [| |contradiction].
      * rewrite outcome_bind, outcome_lift.
        destruct (calculate_cost i o) as [c|e] eqn:C.
        -- exists diagram, i, o, c, fl. split; [reflexivity | exact C].
        -- exists [], 0%Z, 0%Z, zero, []. split; reflexivity.
      * exists [], 0%Z, 0%Z, zero, []. split; reflexivity.
  - exists [], 0%Z, 0%Z, zero, []. split; reflexivity.
Qed.

Lemma explain_one_returns w output_dir st file :
  returns (CodeExplanation.explain_one w output_dir st file).
Proof.
  destruct st as [[exps ti] to], file as [file_name file_content].
  unfold CodeExplanation.explain_one. apply returns_try.
  - no_exit_tac.
  - intros e. eexists. reflexivity.
Qed.

Lemma create_word_document_returns w explanations output_dir :
  returns (CodeExplanation.create_word_document w explanations output_dir).
Proof.
  unfold CodeExplanation.create_word_document. apply returns_try.
  - no_exit_tac.
  - intros e. eexists. reflexivity.
Qed.

(** [generate_code_explanations] always returns, and the cost it returns
    is [calculate_cost] of the token totals it returns. *)
Lemma generate_code_explanations_report (w : World) (directory output_dir : str) :
  exists explanations i o c path,
    outcome (CodeExplanation.generate_code_explanations w directory output_dir)
    = Returns (explanations, i, o, c, path)
    /\ calculate_cost i o = Ok c.
Proof.
  unfold CodeExplanation.generate_code_explanations.
  rewrite outcome_try, outcome_bind.
  pose proof (read_typescript_files_no_exit w directory) as Hread.
  unfold no_exit in Hread.
  destruct (outcome (CodeExplanation.read_typescript_files w directory))
    as [files|e|c]; [| |contradiction].
  - rewrite outcome_bind.
    destruct (returns_for_each files (CodeExplanation.explain_one w output_dir)
                ([], 0%Z, 0%Z) (explain_one_returns w output_dir))
      as [[[explanations i] o] ->].
    rewrite outcome_bind, outcome_lift.
    destruct (calculate_cost i o) as [c|e] eqn:C.
    + rewrite outcome_bind.
      destruct (create_word_document_returns w explanations output_dir) as [path ->].
      exists explanations, i, o, c, path. split; [reflexivity | exact C].
    + exists [], 0%Z, 0%Z, zero, None. split; reflexivity.
  - exists [], 0%Z, 0%Z, zero, None. split; reflexivity.
Qed.

(** C1 (as amended). In the class-diagram and the code-explanation
    pipeline, the cost a run returns is
    [input_tokens / 1_000_000 * 0.25 + output_tokens / 1_000_000 * 1.25] of
    the token counts it returns, in float arithmetic; 12000 input and 3000
    output tokens cost exactly the float [0.00675]. (The use-case pipeline
    has one rate: see the counterexample.) *)
Theorem C1_two_rate_cost :
  (forall (w : World) (directory : str),
      exists diagram i o c fl,
        outcome (ClassDiagram.generate_class_diagram w directory)
        = Returns (diagram, i, o, c, fl)
        /\ calculate_cost i o = Ok c)
  /\ (forall (w : World) (directory output_dir : str),
         exists explanations i o c path,
           outcome (CodeExplanation.generate_code_explanations w directory output_dir)
           = Returns (explanations, i, o, c, path)
           /\ calculate_cost i o = Ok c)
  /\ (forall (i o : Z) (qi qo : float),
         int_truediv i 1000000 = Ok qi ->
         int_truediv o 1000000 = Ok qo ->
         calculate_cost i o
         = Ok (fadd (fmul qi (literal 25 2)) (fmul qo (literal 125 2))))
  /\ calculate_cost 12000 3000 = Ok (literal 675 5).
Proof.
  split; [exact generate_class_diagram_report|].
  split; [exact generate_code_explanations_report|].
  split.
  - intros i o qi qo Hi Ho. unfold calculate_cost. now rewrite Hi, Ho.
  - vm_compute. reflexivity.
Qed.

(** C1 as stated fails for the use-case pipeline: [save_use_case]
    estimates [token_usage / 1000 * 0.002], which for the 15000 tokens of
    12000 + 3000 is [0.03], not [0.00675]. *)
Lemma C1_counterexample :
  ~ (forall i o : Z, estimated_cost (i + o) = calculate_cost i o).
Proof.
  intros H. specialize (H 12000%Z 3000%Z). vm_compute in H. discriminate.
Qed.

Lemma use_case_estimate_15000 : estimated_cost 15000 = Ok (literal 3 2).
Proof. vm_compute. reflexivity. Qed.

End CostReport.

(* ===================================================================== *)
(** * A missing credential *)
(* ===================================================================== *)

Module Credentials.
Import EffFacts Totality.

Create HintDb quiet discriminated.

(** Splits a goal [all_events P m], for a [P] that computes on each
    event, along the structure of [m]. *)
Ltac all_events_step :=
  first
    [ apply all_events_ret
    | apply all_events_lift
    | apply all_events_raise
    | apply all_events_sys_exit
    | apply all_events_emit; reflexivity
    | solve [auto with quiet]
    | apply all_events_bind; [|intros ?]
    | apply all_events_try; [|intros ?]
    | apply all_events_for_each; intros ? ? ?
    | match goal with
      | |- all_events _ (if ?b then _ else _) => destruct b
      | |- all_events _ (match ?x with _ => _ end) => destruct x
      end ].
Ltac all_events_tac := repeat all_events_step.

Lemma read_project_files_no_model w d :
  all_events no_model (ClassDiagram.read_project_files w d).
Proof.
  unfold ClassDiagram.read_project_files, Scan.get_gitignore_spec,
    ClassDiagram.visit, ClassDiagram.read_one.
  all_events_tac.
Qed.

Lemma read_project_files_no_artifact w d :
  all_events no_artifact (ClassDiagram.read_project_files w d).
Proof.
  unfold ClassDiagram.read_project_files, Scan.get_gitignore_spec,
    ClassDiagram.visit, ClassDiagram.read_one.
  all_events_tac.
Qed.

Lemma generate_diagram_without_key w ts prisma :
  missing (environ w (py "ANTHROPIC_API_KEY")) = true ->
  ClassDiagram.generate_diagram w ts prisma
  = (log ERROR (py "[red]ANTHROPIC_API_KEY not found in environment variables[/red]") ;;
     ret ([], 0%Z, 0%Z)).
Proof. intros H. unfold ClassDiagram.generate_diagram. now rewrite H. Qed.

Lemma generate_diagram_no_artifact w ts prisma :
  all_events no_artifact (ClassDiagram.generate_diagram w ts prisma).
Proof. unfold ClassDiagram.generate_diagram. all_events_tac. Qed.

(** Without the key, [generate_class_diagram] builds no client, calls no
    model and returns no diagram. *)
Lemma generate_class_diagram_without_key w directory :
  missing (environ w (py "ANTHROPIC_API_KEY")) = true ->
  all_events no_model (ClassDiagram.generate_class_diagram w directory)
  /\ exists fl, outcome (ClassDiagram.generate_class_diagram w directory)
                = Returns ([], 0%Z, 0%Z, zero, fl).
Proof.
  intros Hkey. split.
  - unfold ClassDiagram.generate_class_diagram.
    apply all_events_try; [|intros e; all_events_tac].
    apply all_events_bind; [apply read_project_files_no_model|].
    intros [[ts prisma] fl].
    destruct (negb (truthy ts) && negb (truthy prisma)); [all_events_tac|].
    rewrite (generate_diagram_without_key w ts prisma Hkey). all_events_tac.
  - unfold ClassDiagram.generate_class_diagram.
    rewrite outcome_try, outcome_bind.
    pose proof (read_project_files_no_exit w directory) as Hread.
    unfold no_exit in Hread.
    destruct (outcome (ClassDiagram.read_project_files w directory))
      as [[[ts prisma] fl]|e|c]; [| |contradiction].
    + destruct (negb (truthy ts) && negb (truthy prisma)).
      * now exists [].
      * rewrite (generate_diagram_without_key w ts prisma Hkey). now exists fl.
    + now exists [].
Qed.

Lemma generate_class_diagram_no_artifact w directory :
  all_events no_artifact (ClassDiagram.generate_class_diagram w directory).
Proof.
  unfold ClassDiagram.generate_class_diagram.
  apply all_events_try; [|intros e; all_events_tac].
  apply all_events_bind; [apply read_project_files_no_artifact|].
  intros [[ts prisma] fl].
  destruct (negb (truthy ts) && negb (truthy prisma)); [all_events_tac|].
  apply all_events_bind; [apply generate_diagram_no_artifact|].
  intros [[diagram i] o]. all_events_tac.
Qed.

(** Without the key, the class-diagram script uses no model and writes
    no file. *)
Lemma class_diagram_main_without_key w :
  missing (environ w (py "ANTHROPIC_API_KEY")) = true ->
  all_events no_model (ClassDiagram.main w)
  /\ all_events no_artifact (ClassDiagram.main w).
Proof.
  intros Hkey. unfold ClassDiagram.main.
  destruct (missing (environ w (py "PROJECT_DIRECTORY"))).
  { split; all_events_tac. }
  set (directory := match environ w (py "PROJECT_DIRECTORY") with
                    | Some d => d | None => [] end).
  destruct (generate_class_diagram_without_key w directory Hkey) as [Hq [fl Hout]].
  split.
  - apply all_events_bind; [all_events_tac|]. intros _.
    apply all_events_bind; [all_events_tac|]. intros _.
    apply all_events_bind_outcome; [exact Hq|].
    intros r Hr. rewrite Hout in Hr. injection Hr as <-. all_events_tac.
  - apply all_events_bind; [all_events_tac|]. intros _.
    apply all_events_bind; [all_events_tac|]. intros _.
    apply all_events_bind_outcome; [apply generate_class_diagram_no_artifact|].
    intros r Hr. rewrite Hout in Hr. injection Hr as <-. all_events_tac.
Qed.

(** Without the key, the use-case script raises before it reads the file
    or calls the model. *)
Lemma use_case_main_without_key w :
  missing (environ w (py "ANTHROPIC_API_KEY")) = true ->
  UseCase.main w
  = (Raises (ValueError (py "ANTHROPIC_API_KEY environment variable is not set")),
     [Print (py "[bold blue]Kortex Use Case Specification Generator[/bold blue]")]).
Proof.
  intros Hkey. unfold UseCase.main, UseCase.initialize_llm. now rewrite Hkey.
Qed.

End Credentials.

(* ===================================================================== *)
(** * The credential in the three pipelines *)
(* ===================================================================== *)

Module FailFast.
Import EffFacts Totality Credentials CostReport.

Lemma read_typescript_files_no_network w d :
  all_events no_network (CodeExplanation.read_typescript_files w d).
Proof.
  unfold CodeExplanation.read_typescript_files, Scan.get_gitignore_spec,
    CodeExplanation.visit, CodeExplanation.read_one.
  all_events_tac.
Qed.

Lemma create_word_document_no_network w xs o :
  all_events no_network (CodeExplanation.create_word_document w xs o).
Proof.
  unfold CodeExplanation.create_word_document, CodeExplanation.add_section,
    CodeExplanation.docx_call, CodeExplanation.resize_image.
  all_events_tac.
Qed.

(** When the client's constructor raises, the file is given up without
    a call to the model, and the totals stay as they were. *)
Lemma explain_one_client_fails w output_dir st file e :
  new_client w CodeExplanation.model_name (environ w (py "OPENAI_API_KEY")) = Raise e ->
  outcome (CodeExplanation.explain_one w output_dir st file) = Returns st
  /\ all_events no_network (CodeExplanation.explain_one w output_dir st file).
Proof.
  intros Hc. destruct st as [[exps ti] to], file as [file_name file_content].
  unfold CodeExplanation.explain_one,
    CodeExplanation.generate_explanation_with_screenshot,
    CodeExplanation.generate_explanation.
  rewrite Hc. cbn [lift]. split.
  - reflexivity.
  - intros ev H. cbn in H. unfold no_network.
    repeat (destruct H as [<-|H]; [reflexivity|]). destruct H.
Qed.

Lemma fold_left_keep {A S} (xs : list A) (s : S) : fold_left (fun s _ => s) xs s = s.
Proof. induction xs; cbn; auto. Qed.

Lemma generate_code_explanations_client_fails w directory output_dir e :
  new_client w CodeExplanation.model_name (environ w (py "OPENAI_API_KEY")) = Raise e ->
  all_events no_network (CodeExplanation.generate_code_explanations w directory output_dir)
  /\ exists path,
      outcome (CodeExplanation.generate_code_explanations w directory output_dir)
      = Returns ([], 0%Z, 0%Z, zero, path).
Proof.
  intros Hc. unfold CodeExplanation.generate_code_explanations. split.
  - apply all_events_try; [|intros x; all_events_tac].
    apply all_events_bind; [apply read_typescript_files_no_network|].
    intros files. apply all_events_bind.
    + apply all_events_for_each. intros s x _.
      now apply (explain_one_client_fails w output_dir s x e).
    + intros [[exps ti] to]. apply all_events_bind; [all_events_tac|].
      intros c. apply all_events_bind; [apply create_word_document_no_network|].
      intros path. all_events_tac.
  - rewrite outcome_try, outcome_bind.
    pose proof (read_typescript_files_no_exit w directory) as Hread.
    unfold no_exit in Hread.
    destruct (outcome (CodeExplanation.read_typescript_files w directory))
      as [files|x|c]; [| |contradiction].
    + rewrite outcome_bind.
      rewrite (for_each_outcome _ _ (fun s _ => s))
        by (intros s x _; now apply (explain_one_client_fails w output_dir s x e)).
      rewrite fold_left_keep, outcome_bind, outcome_lift, failure_cost.
      rewrite outcome_bind.
      destruct (create_word_document_returns w [] output_dir) as [path ->].
      now exists path.
    + now exists None.
Qed.

(** C3 (as amended). With [ANTHROPIC_API_KEY] unset (or empty): the
    class-diagram pipeline scans the tree first, then returns an empty
    diagram with zero tokens and zero cost; it has built no client, called no
    model and written no file. The use-case pipeline raises [ValueError]
    straight after its banner, before any file or model access. The
    code-explanation pipeline checks no key itself: it hands
    [OPENAI_API_KEY], set or not, to the client's constructor for every
    scanned file, and when the constructor raises it calls no model and
    returns no explanation. *)
Theorem C3_missing_credential (w : World) :
  missing (environ w (py "ANTHROPIC_API_KEY")) = true ->
  (forall directory,
      all_events no_model (ClassDiagram.generate_class_diagram w directory)
      /\ exists fl, outcome (ClassDiagram.generate_class_diagram w directory)
                    = Returns ([], 0%Z, 0%Z, zero, fl))
  /\ all_events no_model (ClassDiagram.main w)
  /\ all_events no_artifact (ClassDiagram.main w)
  /\ UseCase.main w
     = (Raises (ValueError (py "ANTHROPIC_API_KEY environment variable is not set")),
        [Print (py "[bold blue]Kortex Use Case Specification Generator[/bold blue]")])
  /\ (forall directory output_dir e,
         new_client w CodeExplanation.model_name (environ w (py "OPENAI_API_KEY"))
         = Raise e ->
         all_events no_network
                    (CodeExplanation.generate_code_explanations w directory output_dir)
         /\ exists path,
             outcome (CodeExplanation.generate_code_explanations w directory output_dir)
             = Returns ([], 0%Z, 0%Z, zero, path)).
Proof.
  intros Hkey.
  split; [intros directory; now apply generate_class_diagram_without_key|].
  split; [now apply class_diagram_main_without_key|].
  split; [now apply class_diagram_main_without_key|].
  split; [now apply use_case_main_without_key|].
  intros directory output_dir e. apply generate_code_explanations_client_fails.
Qed.

(** C3 in the world without [ANTHROPIC_API_KEY]: the use-case script
    raises after its banner. *)
Lemma C3_missing_credential_witness :
  outcome (UseCase.main Examples.no_anthropic_key)
  = Raises (ValueError (py "ANTHROPIC_API_KEY environment variable is not set")).
Proof.
  rewrite (proj1 (proj2 (proj2 (proj2
             (C3_missing_credential Examples.no_anthropic_key eq_refl))))).
  reflexivity.
Defined.

(** C3 as stated fails for the class-diagram pipeline: without the key
    it still lists the directories and reads every accepted file before it
    looks for the key. *)
Lemma C3_counterexample :
  ~ (forall w : World,
        missing (environ w (py "ANTHROPIC_API_KEY")) = true ->
        all_events no_file_io (ClassDiagram.main w)).
Proof.
  intros H.
  specialize (H Examples.no_anthropic_key eq_refl
                (OpenRead (InProject [py "a.ts"]))).
  assert (Hin : In (OpenRead (InProject [py "a.ts"]))
                   (trace (ClassDiagram.main Examples.no_anthropic_key))).
  { vm_compute. tauto. }
  specialize (H Hin). discriminate H.
Qed.

End FailFast.

(* ===================================================================== *)
(** * The boundaries to the outside *)
(* ===================================================================== *)

Module Boundaries.
Import EffFacts Totality CostReport.

Create HintDb returns discriminated.

(** Splits a goal [returns m] along the structure of [m]. *)
Ltac returns_step :=
  first
    [ apply returns_ret
    | apply returns_emit
    | solve [auto with returns]
    | apply returns_bind; [|intros ?]
    | apply returns_for_each; intros ? ?
    | match goal with
      | |- returns (if ?b then _ else _) => destruct b
      | |- returns (match ?x with _ => _ end) => destruct x
      end ].
Ltac returns_tac := repeat returns_step.

#[local] Hint Resolve
  read_project_files_no_exit generate_diagram_no_exit
  read_typescript_files_no_exit generate_explanation_no_exit
  create_code_screenshot_no_exit generate_explanation_with_screenshot_no_exit
  docx_call_no_exit add_section_no_exit explain_one_no_exit : no_exit.

Lemma generate_class_diagram_returns w directory :
  returns (ClassDiagram.generate_class_diagram w directory).
Proof.
  destruct (generate_class_diagram_report w directory)
    as (d & i & o & c & fl & H & _).
  now exists (d, i, o, c, fl).
Qed.

Lemma save_diagram_to_file_returns w diagram file_path :
  returns (ClassDiagram.save_diagram_to_file w diagram file_path).
Proof.
  unfold ClassDiagram.save_diagram_to_file. apply returns_try.
  - no_exit_tac.
  - intros e. eexists. reflexivity.
Qed.

#[local] Hint Resolve generate_class_diagram_returns save_diagram_to_file_returns
  : returns.

Create HintDb raises discriminated.

(** Splits a goal [raises_only P m] along the structure of [m]. *)
Ltac raises_only_step :=
  first
    [ solve [apply raises_only_returns; returns_tac]
    | solve [auto with raises]
    | apply raises_only_bind; [|intros ?]
    | apply raises_only_for_each; intros ? ?
    | match goal with
      | |- raises_only _ (if ?b then _ else _) => destruct b
      | |- raises_only _ (match ?x with _ => _ end) => destruct x
      end ].
Ltac raises_only_tac := repeat raises_only_step.

(** A print of run-time text ends in no exception but the console's. *)
Lemma rich_print_raises w text : raises_only (console_error w) (rich_print w text).
Proof.
  unfold rich_print. intros e. rewrite outcome_bind, outcome_lift.
  destruct (console_render w text) as [[]|e0] eqn:R; [discriminate|].
  intros [= <-]. now exists text.
Qed.

Lemma rich_print_table_raises w title cells :
  raises_only (console_error w) (rich_print_table w title cells).
Proof.
  unfold rich_print_table. apply raises_only_bind.
  - apply raises_only_for_each. intros [] cell e. rewrite outcome_lift.
    destruct (console_render w cell) as [[]|e0] eqn:R; [discriminate|].
    intros [= <-]. now exists cell.
  - intros _. apply raises_only_returns. returns_tac.
Qed.

Lemma rich_print_no_exit w text : no_exit (rich_print w text).
Proof. unfold rich_print. no_exit_tac. Qed.

Lemma rich_print_table_no_exit w title cells :
  no_exit (rich_print_table w title cells).
Proof. unfold rich_print_table. no_exit_tac. Qed.

Lemma display_file_list_raises w file_list :
  raises_only (console_error w) (ClassDiagram.display_file_list w file_list).
Proof. apply rich_print_table_raises. Qed.

#[local] Hint Resolve rich_print_raises rich_print_table_raises
  display_file_list_raises : raises.
#[local] Hint Resolve rich_print_no_exit rich_print_table_no_exit : no_exit.

(** The class-diagram script ends in no exception but the console's. *)
Lemma class_diagram_main_raises w :
  raises_only (console_error w) (ClassDiagram.main w).
Proof.
  unfold ClassDiagram.main.
  destruct (missing (environ w (py "PROJECT_DIRECTORY"))).
  - intros e E. discriminate.
  - raises_only_tac.
Qed.

(** Once [PROJECT_DIRECTORY] is set, the class-diagram script does not
    leave through [sys.exit]. *)
Lemma class_diagram_main_no_exit w :
  missing (environ w (py "PROJECT_DIRECTORY")) = false ->
  no_exit (ClassDiagram.main w).
Proof.
  intros H. unfold ClassDiagram.main. rewrite H.
  apply no_exit_bind; [exact I|]. intros _.
  apply no_exit_bind; [apply rich_print_no_exit|]. intros _.
  apply no_exit_bind;
    [apply no_exit_returns, generate_class_diagram_returns|].
  intros [[[[d i] o] c] fl]. destruct (truthy d); [|exact I].
  apply no_exit_bind; [exact I|]. intros _.
  apply no_exit_bind; [apply rich_print_no_exit|]. intros _.
  apply no_exit_bind;
    [apply no_exit_returns, save_diagram_to_file_returns|]. intros _.
  apply no_exit_bind; [apply rich_print_table_no_exit|]. intros _.
  apply no_exit_returns. returns_tac.
Qed.

Lemma generate_code_explanations_returns w directory output_dir :
  returns (CodeExplanation.generate_code_explanations w directory output_dir).
Proof.
  destruct (generate_code_explanations_report w directory output_dir)
    as (x & i & o & c & p & H & _).
  now exists (x, i, o, c, p).
Qed.

Lemma create_code_screenshot_returns w file_name code caption output_dir :
  returns (CodeExplanation.create_code_screenshot w file_name code caption output_dir).
Proof.
  unfold CodeExplanation.create_code_screenshot. apply returns_try.
  - no_exit_tac.
  - intros e. eexists. reflexivity.
Qed.

Lemma generate_explanation_with_screenshot_returns w file_name content output_dir :
  returns (CodeExplanation.generate_explanation_with_screenshot
             w file_name content output_dir).
Proof.
  unfold CodeExplanation.generate_explanation_with_screenshot. apply returns_try.
  - no_exit_tac.
  - intros e. eexists. reflexivity.
Qed.

#[local] Hint Resolve generate_code_explanations_returns : returns.

(** The code-explanation script can only raise where it makes its
    output directory, which is outside every [try], or where it prints
    run-time text. *)
Lemma code_explanation_main_raises w :
  raises_only
    (fun e => outcome (CodeExplanation.create_output_directory w) = Raises e
              \/ console_error w e)
    (CodeExplanation.main w).
Proof.
  unfold CodeExplanation.main.
  destruct (missing (environ w (py "PROJECT_DIRECTORY"))).
  - intros e E. discriminate.
  - apply raises_only_bind; [apply raises_only_returns; returns_tac|]. intros _.
    apply raises_only_bind.
    { eapply raises_only_weaken; [|apply rich_print_raises]. intros e H. now right. }
    intros _. apply raises_only_bind.
    { intros e H. now left. }
    intros output_dir.
    eapply raises_only_weaken; [intros e H; right; exact H|].
    raises_only_tac.
Qed.

(** The failure values. *)
Lemma unreadable_file_is_skipped directory spec rel st file e :
  outcome (ClassDiagram.read_one directory spec rel st (file, Raise e)) = Returns st.
Proof.
  unfold ClassDiagram.read_one.
  destruct (ClassDiagram.is_ts file || ClassDiagram.is_prisma file); [|reflexivity].
  destruct (negb _); reflexivity.
Qed.

Lemma unreadable_source_is_skipped directory spec rel fs file e :
  outcome (CodeExplanation.read_one directory spec rel fs (file, Raise e)) = Returns fs.
Proof.
  unfold CodeExplanation.read_one.
  destruct (CodeExplanation.is_source file); [|reflexivity].
  destruct (negb _); reflexivity.
Qed.

Lemma failed_generation_is_empty w ts prisma e :
  missing (environ w (py "ANTHROPIC_API_KEY")) = false ->
  new_client w ClassDiagram.model_name (environ w (py "ANTHROPIC_API_KEY")) = Ok tt ->
  invoke w [ts; prisma] = Raise e ->
  outcome (ClassDiagram.generate_diagram w ts prisma) = Returns ([], 0%Z, 0%Z).
Proof.
  intros Hk Hc Hi. unfold ClassDiagram.generate_diagram. now rewrite Hk, Hc, Hi.
Qed.

Lemma failed_render_is_empty w file_name code caption output_dir e :
  render_image w file_name code caption = Raise e ->
  outcome (CodeExplanation.create_code_screenshot w file_name code caption output_dir)
  = Returns [].
Proof.
  intros Hr. unfold CodeExplanation.create_code_screenshot. now rewrite Hr.
Qed.

Lemma failed_document_is_none w explanations output_dir e :
  docx w NewDocument = Raise e ->
  outcome (CodeExplanation.create_word_document w explanations output_dir)
  = Returns None.
Proof.
  intros Hd. unfold CodeExplanation.create_word_document, CodeExplanation.docx_call.
  now rewrite Hd.
Qed.

End Boundaries.

(* ===================================================================== *)
(** * The claims about failures *)
(* ===================================================================== *)

Module Failures.
Import EffFacts Totality CostReport Boundaries Credentials.

(** C8 (as amended). In the class-diagram and the code-explanation
    pipeline every file read, generation call and image or document render
    sits inside a [try]: [generate_class_diagram], [save_diagram_to_file],
    [generate_code_explanations], [create_code_screenshot] and
    [create_word_document] return whatever the outside does. What the two
    scripts leave unwrapped is the console and one directory: the
    class-diagram script ends in an exception only when [console.print]
    rejects a run-time text (the project directory, the model's answer, a
    file path), and the code-explanation script only then or when
    [os.makedirs] of its output directory fails. A failed read skips the file, a failed generation gives the
    empty diagram with zero tokens, a failed render gives the empty path, a
    failed document gives [None]. (The use-case pipeline wraps nothing: see
    the counterexample.) *)
Theorem C8_boundaries_are_wrapped (w : World) (directory output_dir : str) :
  returns (ClassDiagram.generate_class_diagram w directory)
  /\ (forall diagram file_path,
         returns (ClassDiagram.save_diagram_to_file w diagram file_path))
  /\ raises_only (console_error w) (ClassDiagram.main w)
  /\ returns (CodeExplanation.generate_code_explanations w directory output_dir)
  /\ (forall file_name code caption,
         returns (CodeExplanation.create_code_screenshot
                    w file_name code caption output_dir))
  /\ (forall explanations,
         returns (CodeExplanation.create_word_document w explanations output_dir))
  /\ raises_only
       (fun e => outcome (CodeExplanation.create_output_directory w) = Raises e
                 \/ console_error w e)
       (CodeExplanation.main w)
  /\ (forall spec rel st file e,
         outcome (ClassDiagram.read_one directory spec rel st (file, Raise e))
         = Returns st)
  /\ (forall spec rel fs file e,
         outcome (CodeExplanation.read_one directory spec rel fs (file, Raise e))
         = Returns fs)
  /\ (forall ts prisma e,
         missing (environ w (py "ANTHROPIC_API_KEY")) = false ->
         new_client w ClassDiagram.model_name (environ w (py "ANTHROPIC_API_KEY"))
         = Ok tt ->
         invoke w [ts; prisma] = Raise e ->
         outcome (ClassDiagram.generate_diagram w ts prisma) = Returns ([], 0%Z, 0%Z))
  /\ (forall file_name code caption e,
         render_image w file_name code caption = Raise e ->
         outcome (CodeExplanation.create_code_screenshot
                    w file_name code caption output_dir) = Returns [])
  /\ (forall explanations e,
         docx w NewDocument = Raise e ->
         outcome (CodeExplanation.create_word_document w explanations output_dir)
         = Returns None).
Proof.
  repeat split.
  - apply generate_class_diagram_returns.
  - intros. apply save_diagram_to_file_returns.
  - apply class_diagram_main_raises.
  - apply generate_code_explanations_returns.
  - intros. apply create_code_screenshot_returns.
  - intros. apply create_word_document_returns.
  - apply code_explanation_main_raises.
  - intros. apply unreadable_file_is_skipped.
  - intros. apply unreadable_source_is_skipped.
  - intros ts prisma e. apply failed_generation_is_empty.
  - intros file_name code caption e. apply failed_render_is_empty.
  - intros explanations e. apply failed_document_is_none.
Qed.

(** C8 as stated fails for the use-case pipeline: [analyze_file] opens
    the file outside any [try], so a file that cannot be read ends the
    script in the exception of [open]. *)
Lemma C8_counterexample : ~ (forall w : World, no_raise (UseCase.main w)).
Proof.
  intros H. specialize (H Examples.unreadable_file). vm_compute in H. exact H.
Qed.

(** The console at work in the class-diagram script: an answer that Rich
    does not take for markup ends the script in Rich's exception, after the
    model was called and before the diagram is saved. *)
Example an_answer_that_is_not_markup :
  outcome (ClassDiagram.main Worlds.unprintable_answer)
  = Raises (LibraryError (py "closing tag '[/api]' doesn't match any open tag"))
  /\ Observe.invocations (trace (ClassDiagram.main Worlds.unprintable_answer)) = 1%nat
  /\ Observe.writes (trace (ClassDiagram.main Worlds.unprintable_answer)) = [].
Proof. vm_compute. repeat split; reflexivity. Qed.

(** C4 at its failing input: in a directory without any [.ts] or [.tsx]
    file the scan of [code-explanation.py] accepts nothing, and
    [generate_code_explanations] still has [create_word_document] write
    [code_explanations.docx] before it returns the empty list. *)
Theorem C4_document_written_with_nothing_to_scan :
  ScanSpec.accepted CodeExplanation.is_source [] Examples.nothing_to_scan = []
  /\ outcome (CodeExplanation.generate_code_explanations
                Examples.nothing_to_scan (py "/srv/project") (py "./output"))
     = Returns ([], 0%Z, 0%Z, zero, Some (py "./output/code_explanations.docx"))
  /\ In (Docx (SaveDocument (py "./output/code_explanations.docx")))
        (trace (CodeExplanation.main Examples.nothing_to_scan))
  /\ existsb is_artifact_write (trace (CodeExplanation.main Examples.nothing_to_scan))
     = true.
Proof.
  split; [reflexivity|]. split; [reflexivity|]. split; [|reflexivity].
  vm_compute. tauto.
Qed.

(** C5 at its failing input: the model answers the class-diagram prompt
    with an empty completion. [generate_class_diagram] returns the empty
    diagram together with the tokens of the prompt and their cost, which is
    not zero, and the run logs nothing at [WARNING] or above. *)
Theorem C5_empty_diagram_is_charged :
  invoke Examples.empty_completion
         [ClassDiagram.section (py "a.ts") (py "export const a = 1"); []] = Ok []
  /\ exists (i : Z) (c : float),
      outcome (ClassDiagram.generate_class_diagram
                 Examples.empty_completion (py "/srv/project"))
      = Returns ([], i, 0%Z, c, [py "a.ts"])
      /\ (0 < i)%Z
      /\ calculate_cost i 0 = Ok c
      /\ feqb c zero = false
      /\ forallb (fun ev => negb (is_warning ev))
                 (trace (ClassDiagram.main Examples.empty_completion)) = true.
Proof.
  split; [reflexivity|].
  exists 43%Z, (match calculate_cost 43 0 with Ok c => c | Raise _ => zero end).
  repeat split; vm_compute; reflexivity.
Qed.

End Failures.

(* ===================================================================== *)
(** * Rounding to the nearest float *)
(* ===================================================================== *)

Module Rounding.
Import FloatSpec.
#[local] Open Scope Z_scope.

(** The digit count of the rounding code is the binary size. *)
Lemma digits2_size p : digits2_pos p = Pos.size p.
Proof. induction p; simpl; congruence. Qed.

Lemma digits_bounds p : 2 ^ (Zpos (digits2_pos p) - 1) <= Zpos p < 2 ^ Zpos (digits2_pos p).
Proof.
  rewrite digits2_size. split.
  - pose proof (Pos.size_le p) as H.
    assert (H2 : 2 ^ Zpos (Pos.size p) <= 2 * Zpos p).
    { change (2 * Zpos p) with (Zpos p~0). rewrite <- Pos2Z.inj_pow. now apply Pos2Z.pos_le_pos. }
    replace (Zpos (Pos.size p)) with (Z.succ (Zpos (Pos.size p) - 1)) in H2 by lia.
    rewrite Z.pow_succ_r in H2 by lia. lia.
  - pose proof (Pos.size_gt p) as H.
    rewrite <- Pos2Z.inj_pow. now apply Pos2Z.pos_lt_pos.
Qed.

(** A positive number lies in the binade its digit count names. *)
Lemma Zdigits2_bounds m : 0 < m -> 2 ^ (Zdigits2 m - 1) <= m < 2 ^ Zdigits2 m.
Proof. destruct m; try lia. intros _. apply digits_bounds. Qed.

(** The binade determines the digit count. *)
Lemma Zdigits2_unique m k : 0 < k -> 2 ^ (k - 1) <= m < 2 ^ k -> Zdigits2 m = k.
Proof.
  intros Hk [H1 H2].
  assert (0 < m) by (pose proof (Z.pow_pos_nonneg 2 (k-1)); lia).
  destruct (Zdigits2_bounds m H) as [B1 B2].
  assert (0 < Zdigits2 m) by (destruct m; simpl; lia).
  destruct (Z.lt_trichotomy (Zdigits2 m) k) as [L|[E|G]]; [exfalso| exact E | exfalso].
  - assert (2 ^ Zdigits2 m <= 2 ^ (k - 1)) by (apply Z.pow_le_mono_r; lia). lia.
  - assert (2 ^ k <= 2 ^ (Zdigits2 m - 1)) by (apply Z.pow_le_mono_r; lia). lia.
Qed.

(** One right shift: halve, keep the bit shifted out, accumulate the sticky bit. *)
Lemma shr_1_spec m r s : 0 <= m ->
  shr_1 {| shr_m := m; shr_r := r; shr_s := s |}
  = {| shr_m := m / 2; shr_r := Z.odd m; shr_s := r || s |}.
Proof.
  intros H. destruct m as [|p|p]; try lia.
  - reflexivity.
  - destruct p as [p|p|]; simpl shr_1.
    + f_equal. rewrite Pos2Z.inj_xI. apply Z.div_unique with (r := 1); lia.
    + f_equal. rewrite Pos2Z.inj_xO. apply Z.div_unique with (r := 0); lia.
    + reflexivity.
Qed.

(** Shifting once relocates the same quotient under a doubled divisor. *)
Lemma located_step n h m r s :
  located n h m r s -> located n (2 * h) (m / 2) (Z.odd m) (r || s).
Proof.
  intros (Hh & Hm & Hn & Hr & Hs).
  assert (Em : m = 2 * (m / 2) + (if Z.odd m then 1 else 0)).
  { rewrite (Z.div_mod m 2) at 1 by lia. f_equal. rewrite Zmod_odd. reflexivity. }
  assert (0 <= m / 2) by (apply Z.div_pos; lia).
  set (q := m / 2) in *. clearbody q.
  subst r s.
  destruct (Z.odd m); unfold located; repeat split; nia.
Qed.

Lemma located_shr_1 n h rec :
  located_rec n h rec -> located_rec n (2 * h) (shr_1 rec).
Proof.
  destruct rec as [m r s]. unfold located_rec. cbn [shr_m shr_r shr_s]. intros H.
  assert (Hm : 0 <= m) by (destruct H as (_ & Hm & _); exact Hm).
  rewrite (shr_1_spec m r s Hm). cbn [shr_m shr_r shr_s]. now apply located_step.
Qed.

Lemma pow2_xO p : 2 ^ Zpos p~0 = 2 ^ Zpos p * 2 ^ Zpos p.
Proof. rewrite <- Z.pow_add_r by lia. f_equal. lia. Qed.

Lemma pow2_xI p : 2 ^ Zpos p~1 = 2 * (2 ^ Zpos p * 2 ^ Zpos p).
Proof.
  rewrite <- Z.pow_add_r by lia. rewrite <- Z.pow_succ_r by lia. f_equal. lia.
Qed.

(** Shifting [p] times relocates it under [h * 2^p]. *)
Lemma located_iter n p : forall h rec,
  located_rec n h rec -> located_rec n (h * 2 ^ Zpos p) (iter_pos shr_1 p rec).
Proof.
  induction p as [p IH|p IH|]; intros h rec H; cbn [iter_pos].
  - apply located_shr_1 in H. apply IH in H. apply IH in H.
    rewrite pow2_xI.
    replace (h * (2 * (2 ^ Zpos p * 2 ^ Zpos p)))
      with (2 * h * 2 ^ Zpos p * 2 ^ Zpos p) by ring.
    exact H.
  - apply IH in H. apply IH in H.
    rewrite pow2_xO.
    replace (h * (2 ^ Zpos p * 2 ^ Zpos p)) with (h * 2 ^ Zpos p * 2 ^ Zpos p) by ring.
    exact H.
  - apply located_shr_1 in H. change (2 ^ 1) with 2. now rewrite Z.mul_comm.
Qed.

(** Shifting by a non-negative amount. *)
Lemma located_shr n h rec e s :
  0 <= s -> located_rec n h rec ->
  located_rec n (h * 2 ^ s) (fst (shr rec e s)) /\ snd (shr rec e s) = e + s.
Proof.
  intros Hs H. destruct s as [|p|p]; try lia; cbn [shr fst snd].
  - rewrite Z.mul_1_r. split; [exact H | lia].
  - split; [now apply located_iter | reflexivity].
Qed.

(** A location holds the quotient and the remainder. *)
Lemma located_div n h m r s : located n h m r s -> m = n / h /\ n mod h = n - m * h.
Proof.
  intros (Hh & Hm & Hn & _).
  assert (E : m = n / h) by (apply Z.div_unique with (r := n - m * h); lia).
  split; [exact E|]. rewrite Z.mod_eq by lia. rewrite <- E. lia.
Qed.

(** Rounding a located quotient to nearest even is [rhe]. *)
Lemma located_rhe n h rec :
  located_rec n h rec ->
  round_nearest_even (shr_m rec) (loc_of_shr_record rec) = rhe n h.
Proof.
  destruct rec as [m r s]. unfold located_rec. cbn [shr_m shr_r shr_s]. intros H.
  destruct (located_div _ _ _ _ _ H) as [Em Er].
  destruct H as (Hh & Hm & Hn & Hr & Hs).
  unfold rhe. rewrite <- Em, Er.
  destruct (Z.ltb_spec (2 * (n - m * h)) h), (Z.ltb_spec h (2 * (n - m * h)));
    subst r s; cbn [loc_of_shr_record];
    destruct (Z.leb_spec h (2 * (n - m * h))), (Z.eqb_spec (n - m * h) 0),
      (Z.eqb_spec (2 * (n - m * h)) h); cbn; try reflexivity; lia.
Qed.

(** The rounded quotient is the floor or the next integer. *)
Lemma rhe_bounds n h : 0 < h -> 0 <= n -> n / h <= rhe n h <= n / h + 1.
Proof.
  intros Hh Hn. unfold rhe.
  destruct (2 * (n mod h) <? h); [lia|].
  destruct (h <? 2 * (n mod h)); [lia|].
  destruct (Z.even (n / h)); lia.
Qed.

(** Rounding to nearest even is monotone in the numerator. *)
Lemma rhe_mono n n' h : 0 < h -> 0 <= n <= n' -> rhe n h <= rhe n' h.
Proof.
  intros Hh Hn.
  assert (Hq : n / h <= n' / h) by (apply Z.div_le_mono; lia).
  destruct (Z.eq_dec (n / h) (n' / h)) as [E|NE].
  - assert (Hr : n mod h <= n' mod h).
    { rewrite !Z.mod_eq by lia. rewrite E. lia. }
    unfold rhe. rewrite E.
    destruct (Z.ltb_spec (2 * (n mod h)) h), (Z.ltb_spec (2 * (n' mod h)) h),
      (Z.ltb_spec h (2 * (n mod h))), (Z.ltb_spec h (2 * (n' mod h)));
      destruct (Z.even (n' / h)); lia.
  - pose proof (rhe_bounds n h Hh ltac:(lia)).
    pose proof (rhe_bounds n' h Hh ltac:(lia)). lia.
Qed.

(** An exact multiple rounds to itself. *)
Lemma rhe_exact m h : 0 < h -> rhe (m * h) h = m.
Proof.
  intros Hh. unfold rhe. rewrite Z.div_mul, Z.mod_mul by lia.
  destruct (Z.ltb_spec (2 * 0) h); [reflexivity | lia].
Qed.

(** In the normal range the exponent function is [e - 53]. *)
Lemma fexp_normal e : -1074 <= e - 53 -> fexp prec emax e = e - 53.
Proof. intros H. unfold fexp, emin, prec, emax. lia. Qed.

(** The unit of the last place, once the binade of the quotient is known. *)
Lemma RNZ_unit n d k :
  0 < d -> 53 <= k -> 2 ^ (k - 1) * d <= n < 2 ^ k * d ->
  RNZ n d = 2 ^ (k - 53) * rhe n (d * 2 ^ (k - 53)).
Proof.
  intros Hd Hk [H1 H2]. unfold RNZ.
  assert (E : Zdigits2 (n / d) = k).
  { apply Zdigits2_unique; [lia|]. split.
    - apply Z.div_le_lower_bound; lia.
    - apply Z.div_lt_upper_bound; lia. }
  rewrite E. reflexivity.
Qed.

(** The rounding function of the Standard Library's [SpecFloat], fed a
    significand of at least 53 bits that locates [n / d], returns the float
    whose scaled value is [RNZ n d], or infinity when that is beyond the
    finite floats. *)
Lemma binary_round_aux_spec mz ez l n d :
  0 < d -> -1074 <= ez -> 53 <= Zdigits2 mz ->
  located_rec n (d * 2 ^ (ez + 1074)) (shr_record_of_loc mz l) ->
  normal ez (binary_round_aux prec emax false mz ez l)
  /\ scaled (binary_round_aux prec emax false mz ez l) = Z.min (RNZ n d) TOP.
Proof.
  intros Hd Hez Hdg Hloc.
  set (dg := Zdigits2 mz) in *.
  set (h := d * 2 ^ (ez + 1074)) in *.
  assert (Hmz : shr_m (shr_record_of_loc mz l) = mz) by (destruct l as [|[]]; reflexivity).
  assert (Hmz0 : 0 < mz).
  { destruct Hloc as (_ & H0 & _). rewrite Hmz in H0.
    destruct mz; [discriminate Hdg || (cbn in Hdg; lia) | lia | lia]. }
  destruct (Zdigits2_bounds mz Hmz0) as [Blo Bhi]. fold dg in Blo, Bhi.
  assert (Hn : mz * h <= n < (mz + 1) * h).
  { destruct Hloc as (_ & _ & H & _). now rewrite Hmz in H. }
  assert (Hh : 0 < h) by (destruct Hloc as (H & _); exact H).
  set (s := dg - 53).
  assert (Hs : 0 <= s) by (unfold s; lia).
  unfold binary_round_aux, shr_fexp. fold dg.
  rewrite fexp_normal by lia.
  replace (dg + ez - 53 - ez) with s by (unfold s; lia).
  destruct (located_shr n h (shr_record_of_loc mz l) ez s Hs Hloc) as [Hloc1 He1].
  destruct (shr (shr_record_of_loc mz l) ez s) as [rec1 e1].
  cbn [fst snd] in Hloc1, He1.
  rewrite (located_rhe _ _ _ Hloc1).
  set (H := h * 2 ^ s) in *.
  assert (HP : 0 < 2 ^ s) by (apply Z.pow_pos_nonneg; lia).
  assert (HH : 0 < H) by (unfold H; nia).
  assert (E53 : 2 ^ dg = 2 ^ 53 * 2 ^ s).
  { rewrite <- Z.pow_add_r by lia. f_equal. unfold s. lia. }
  assert (E52 : 2 ^ (dg - 1) = 2 ^ 52 * 2 ^ s).
  { rewrite <- Z.pow_add_r by lia. f_equal. unfold s. lia. }
  assert (Hn0 : 0 <= n) by nia.
  assert (Hq : 2 ^ 52 <= n / H < 2 ^ 53).
  { split.
    - apply Z.div_le_lower_bound; [lia|]. unfold H. nia.
    - apply Z.div_lt_upper_bound; [lia|]. unfold H. nia. }
  pose proof (rhe_bounds n H HH Hn0) as Hrhe.
  set (m' := rhe n H) in *.
  assert (Hm' : 2 ^ 52 <= m' <= 2 ^ 53) by lia.
  (* the value of RNZ *)
  assert (HE : 0 <= e1 + 1074) by lia.
  assert (Hu : 2 ^ (e1 + 1074) = 2 ^ (ez + 1074) * 2 ^ s).
  { rewrite <- Z.pow_add_r by lia. f_equal. lia. }
  assert (HR : RNZ n d = 2 ^ (e1 + 1074) * m').
  { rewrite (RNZ_unit n d (dg + ez + 1074)); [| lia | lia |].
    - replace (dg + ez + 1074 - 53) with (e1 + 1074) by (unfold s in He1; lia).
      unfold m', H, h. rewrite Hu. f_equal. f_equal. ring.
    - replace (dg + ez + 1074 - 1) with ((dg - 1) + (ez + 1074)) by lia.
      replace (dg + ez + 1074) with (dg + (ez + 1074)) by lia.
      rewrite (Z.pow_add_r 2 (dg - 1) (ez + 1074)), (Z.pow_add_r 2 dg (ez + 1074)) by lia.
      unfold h in Hn, Hh.
      clear - Hn Hh Blo Bhi Hd.
      set (A := 2 ^ (ez + 1074)) in *. set (X := 2 ^ (dg - 1)) in *.
      set (Y := 2 ^ dg) in *. clearbody A X Y.
      split.
      + apply Z.le_trans with (mz * (d * A)); [|lia].
        replace (X * A * d) with (X * (d * A)) by ring.
        apply Z.mul_le_mono_nonneg_r; lia.
      + apply Z.lt_le_trans with ((mz + 1) * (d * A)); [lia|].
        replace (Y * A * d) with (Y * (d * A)) by ring.
        apply Z.mul_le_mono_nonneg_r; lia. }
  assert (HTOP : TOP = 2 ^ 53 * 2 ^ (971 + 1074)) by reflexivity.
  destruct (Z.eq_dec m' (2 ^ 53)) as [Etop | Ntop].
  - (* rounded up to the next binade *)
    rewrite Etop.
    replace (Zdigits2 (2 ^ 53)) with 54 by reflexivity.
    rewrite fexp_normal by lia.
    replace (54 + e1 - 53 - e1) with 1 by lia.
    cbn [shr shr_record_of_loc iter_pos shr_m].
    replace (shr_m (shr_1 {| shr_m := 2 ^ 53; shr_r := false; shr_s := false |}))
      with (2 ^ 52) by reflexivity.
    change (2 ^ 52) with (Zpos (Z.to_pos (2 ^ 52))).
    cbv beta iota.
    replace (emax - prec) with 971 by reflexivity.
    destruct (Z.leb_spec (e1 + 1) 971) as [Le|Gt].
    + split.
      * cbn [normal]. split; [|lia]. change (Zpos (Z.to_pos (2 ^ 52))) with (2 ^ 52). lia.
      * cbn [scaled]. change (Zpos (Z.to_pos (2 ^ 52))) with (2 ^ 52).
        rewrite HR, Etop.
        replace (e1 + 1 + 1074) with (Z.succ (e1 + 1074)) by lia.
        rewrite Z.pow_succ_r by lia.
        rewrite Z.min_l; [change (2 ^ 53) with (2 ^ 52 * 2); ring|].
        rewrite HTOP.
        assert (2 ^ (e1 + 1074) <= 2 ^ (971 + 1074)) by (apply Z.pow_le_mono_r; lia).
        nia.
    + split; [exact I|]. cbn [scaled]. rewrite HR, Etop.
      rewrite Z.min_r; [reflexivity|]. rewrite HTOP.
      assert (2 ^ (971 + 1074) <= 2 ^ (e1 + 1074)) by (apply Z.pow_le_mono_r; lia).
      nia.
  - (* the rounded significand fits *)
    assert (Dm : Zdigits2 m' = 53) by (apply Zdigits2_unique; [lia|]; change (53 - 1) with 52; lia).
    rewrite Dm. rewrite fexp_normal by lia.
    replace (53 + e1 - 53 - e1) with 0 by lia.
    cbn [shr shr_record_of_loc shr_m].
    destruct m' as [|pm|pm] eqn:Em; [lia | | lia].
    replace (emax - prec) with 971 by reflexivity.
    destruct (Z.leb_spec e1 971) as [Le|Gt].
    + split.
      * cbn [normal]. lia.
      * cbn [scaled]. rewrite HR.
        rewrite Z.min_l; [ring|]. rewrite HTOP.
        assert (2 ^ (e1 + 1074) <= 2 ^ (971 + 1074)) by (apply Z.pow_le_mono_r; lia).
        nia.
    + split; [exact I|]. cbn [scaled]. rewrite HR.
      rewrite Z.min_r; [reflexivity|]. rewrite HTOP.
      assert (2 * 2 ^ (971 + 1074) <= 2 ^ (e1 + 1074)).
      { rewrite <- Z.pow_succ_r by lia. apply Z.pow_le_mono_r; lia. }
      change (2 ^ 53) with (2 ^ 52 * 2). nia.
Qed.

End Rounding.

(* ===================================================================== *)
(** * Division, product and sum of non-negative floats *)
(* ===================================================================== *)

Module FloatFacts.
Import FloatSpec Rounding.
#[local] Open Scope Z_scope.

Lemma Zdigits2_lower m k : 0 <= k -> 2 ^ k <= m -> k + 1 <= Zdigits2 m.
Proof.
  intros Hk H.
  assert (0 < m) by (pose proof (Z.pow_pos_nonneg 2 k); lia).
  destruct (Zdigits2_bounds m H0) as [_ B].
  destruct (Z.le_gt_cases (k + 1) (Zdigits2 m)) as [L|G]; [exact L|exfalso].
  assert (2 ^ Zdigits2 m <= 2 ^ k).
  { apply Z.pow_le_mono_r; lia. }
  lia.
Qed.

Lemma normal_weaken L L' f : L' <= L -> normal L f -> normal L' f.
Proof.
  intros HL. destruct f as [[]|[]| |[] m e]; cbn; try tauto. lia.
Qed.

(** The location of a remainder under the even divisor [b]. *)
Lemma located_division (m b P : Z) :
  0 < b -> Z.even b = true -> 0 <= m -> 0 < P ->
  located_rec (m * P) (b * P)
              (shr_record_of_loc (m / b) (new_location b (m mod b))).
Proof.
  intros Hb Heven Hm HP.
  pose proof (Z.mod_pos_bound m b Hb) as Hr.
  pose proof (Z.div_mod m b ltac:(lia)) as Hdm.
  assert (Hq : 0 <= m / b) by (apply Z.div_pos; lia).
  set (q := m / b) in *. set (r := m mod b) in *. clearbody q r.
  unfold new_location. rewrite Heven. unfold new_location_even.
  assert (Erem : m * P - q * (b * P) = r * P) by (subst m; ring).
  unfold located_rec.
  destruct (Z.eqb_spec r 0) as [E0|N0].
  - cbn [shr_record_of_loc shr_m shr_r shr_s]. unfold located.
    rewrite Erem. subst r. repeat split; try nia.
  - destruct (Z.compare_spec (2 * r) b) as [E|L|G];
      cbn [shr_record_of_loc shr_m shr_r shr_s]; unfold located; rewrite Erem;
      repeat split; try nia.
Qed.

Lemma div_eucl_pair a b : Z.div_eucl a b = (a / b, a mod b).
Proof. unfold Z.div, Z.modulo. now destruct (Z.div_eucl a b). Qed.

(** The quotient of a non-negative [int] by a million. *)
Lemma SFdiv_int_spec (i : Z) :
  0 <= i ->
  normal (-72) (SFdiv prec emax (of_int i) (of_int 1000000))
  /\ scaled (SFdiv prec emax (of_int i) (of_int 1000000)) = quotient_spec i.
Proof.
  intros Hi. unfold quotient_spec.
  destruct i as [|p|p]; [split; reflexivity | | lia].
  change (Z.pos p =? 0) with false. cbv iota.
  cbn [of_int SFdiv xorb].
  unfold SFdiv_core_binary.
  set (d1 := Zdigits2 (Z.pos p)).
  replace (Zdigits2 1000000) with 20 by reflexivity.
  destruct (Zdigits2_bounds (Zpos p) ltac:(lia)) as [Blo Bhi]. fold d1 in Blo, Bhi.
  assert (Hd1 : 1 <= d1) by (unfold d1; cbn; lia).
  replace (d1 + 0 - (20 + 0)) with (d1 - 20) by lia.
  replace (fexp prec emax (d1 - 20)) with (d1 - 73)
    by (unfold fexp, emin, prec, emax; lia).
  replace (0 - 0) with 0 by lia.
  set (e' := Z.min (d1 - 73) 0).
  set (s := 0 - e').
  assert (Hs : 0 <= s) by (unfold s, e'; lia).
  set (m' := match s with
             | 0 => Z.pos p
             | Z.pos _ => Z.shiftl (Z.pos p) s
             | Z.neg _ => 0
             end).
  assert (Em' : m' = Zpos p * 2 ^ s).
  { unfold m'. destruct s as [|ps|ps]; [lia | | lia].
    now rewrite Z.shiftl_mul_pow2 by lia. }
  clearbody m'.
  assert (HPs : 0 < 2 ^ s) by (apply Z.pow_pos_nonneg; lia).
  assert (Hbig : 2 ^ 72 <= m').
  { rewrite Em'. destruct (Z.le_gt_cases d1 73) as [L|G].
    - replace 72 with ((d1 - 1) + s) by (unfold s, e'; lia).
      rewrite Z.pow_add_r by lia. nia.
    - assert (2 ^ 72 <= 2 ^ (d1 - 1)) by (apply Z.pow_le_mono_r; lia). nia. }
  rewrite div_eucl_pair.
  assert (Ee : 0 <= e' + 1074) by (unfold e'; lia).
  assert (Hloc : located_rec (Zpos p * 2 ^ 1074) (1000000 * 2 ^ (e' + 1074))
                   (shr_record_of_loc (m' / 1000000)
                                      (new_location 1000000 (m' mod 1000000)))).
  { replace (Zpos p * 2 ^ 1074) with (m' * 2 ^ (e' + 1074)).
    - apply located_division; [lia | reflexivity | lia | apply Z.pow_pos_nonneg; lia].
    - rewrite Em', <- Z.mul_assoc, <- Z.pow_add_r by lia. f_equal. f_equal.
      unfold s. lia. }
  assert (Hq : 2 ^ 52 <= m' / 1000000).
  { apply Z.div_le_lower_bound; [lia|].
    apply Z.le_trans with (2 ^ 72); [|exact Hbig]. vm_compute. discriminate. }
  destruct (binary_round_aux_spec (m' / 1000000) e'
              (new_location 1000000 (m' mod 1000000))
              (Zpos p * 2 ^ 1074) 1000000) as [Hn Hv].
  - lia.
  - unfold e'. lia.
  - apply (Zdigits2_lower _ 52); [lia | exact Hq].
  - exact Hloc.
  - split; [|exact Hv].
    apply normal_weaken with (L := e'); [unfold e'; lia | exact Hn].
Qed.

Lemma located_exact m h : 0 < h -> 0 <= m ->
  located_rec (m * h) h (shr_record_of_loc m loc_Exact).
Proof.
  intros Hh Hm. unfold located_rec, located. cbn [shr_record_of_loc shr_m shr_r shr_s].
  repeat split; try nia.
Qed.

(** The product of a normal float and a normal rate with a non-positive exponent. *)
Lemma fmul_normal_spec mx ex mr er :
  2 ^ 52 <= Zpos mx < 2 ^ 53 ->
  2 ^ 52 <= Zpos mr < 2 ^ 53 ->
  er <= 0 -> -1074 <= ex + er ->
  normal (ex + er) (fmul (S754_finite false mx ex) (S754_finite false mr er))
  /\ scaled (fmul (S754_finite false mx ex) (S754_finite false mr er))
     = Z.min (RNZ (Zpos mx * 2 ^ (ex + 1074) * Zpos mr) (2 ^ (- er))) TOP.
Proof.
  intros Hx Hr Her He.
  unfold fmul. cbn [SFmul xorb].
  assert (Hd : 0 < 2 ^ (- er)) by (apply Z.pow_pos_nonneg; lia).
  apply binary_round_aux_spec; [exact Hd | exact He | |].
  - apply (Zdigits2_lower _ 52); [lia|]. rewrite Pos2Z.inj_mul.
    assert (1 <= Zpos mr) by lia. nia.
  - replace (2 ^ (- er) * 2 ^ (ex + er + 1074)) with (2 ^ (ex + 1074))
      by (rewrite <- Z.pow_add_r by lia; f_equal; lia).
    replace (Zpos mx * 2 ^ (ex + 1074) * Zpos mr)
      with (Zpos (mx * mr) * 2 ^ (ex + 1074)) by (rewrite Pos2Z.inj_mul; ring).
    apply located_exact; [apply Z.pow_pos_nonneg; lia | lia].
Qed.

Lemma iter_xO_pow m d : Zpos (Pos.iter xO m d) = Zpos m * 2 ^ Zpos d.
Proof.
  induction d as [|d IH] using Pos.peano_ind.
  - cbn. lia.
  - rewrite Pos.iter_succ, Pos2Z.inj_xO, IH, Pos2Z.inj_succ, Z.pow_succ_r by lia. ring.
Qed.

(** Aligning a significand to a smaller exponent multiplies it by a power of two. *)
Lemma shl_align_value mx ex ez :
  ez <= ex -> Zpos (fst (shl_align mx ex ez)) = Zpos mx * 2 ^ (ex - ez).
Proof.
  intros H. unfold shl_align.
  destruct (ez - ex) as [|d|d] eqn:E; cbn [fst].
  - replace (ex - ez) with 0 by lia. lia.
  - lia.
  - rewrite iter_xO_pow. f_equal. f_equal. lia.
Qed.

(** The sum of two normal floats. *)
Lemma fadd_normal_spec mx ex my ey L :
  -1074 <= L ->
  2 ^ 52 <= Zpos mx < 2 ^ 53 -> L <= ex ->
  2 ^ 52 <= Zpos my < 2 ^ 53 -> L <= ey ->
  normal L (fadd (S754_finite false mx ex) (S754_finite false my ey))
  /\ scaled (fadd (S754_finite false mx ex) (S754_finite false my ey))
     = Z.min (RNZ (Zpos mx * 2 ^ (ex + 1074) + Zpos my * 2 ^ (ey + 1074)) 1) TOP.
Proof.
  intros HL Hx Hex Hy Hey.
  unfold fadd. cbn [SFadd cond_Zopp].
  set (ez := Z.min ex ey).
  rewrite (shl_align_value mx ex ez), (shl_align_value my ey ez) by (unfold ez; lia).
  assert (Px : 0 < 2 ^ (ex - ez)) by (apply Z.pow_pos_nonneg; unfold ez; lia).
  assert (Py : 0 < 2 ^ (ey - ez)) by (apply Z.pow_pos_nonneg; unfold ez; lia).
  remember (Zpos mx * 2 ^ (ex - ez) + Zpos my * 2 ^ (ey - ez)) as m eqn:Em.
  assert (Hm : 2 ^ 52 <= m) by (subst m; nia).
  destruct m as [|pm|pm]; [lia | | lia].
  cbn [binary_normalize]. unfold binary_round.
  assert (Hdg : 53 <= Zpos (digits2_pos pm)).
  { change (Zpos (digits2_pos pm)) with (Zdigits2 (Zpos pm)).
    apply (Zdigits2_lower _ 52); lia. }
  assert (Hal : shl_align pm ez (fexp prec emax (Zpos (digits2_pos pm) + ez)) = (pm, ez)).
  { unfold shl_align. rewrite fexp_normal by (unfold ez; lia).
    destruct (Zpos (digits2_pos pm) + ez - 53 - ez) eqn:E; try reflexivity. lia. }
  rewrite Hal.
  assert (Hsum : Zpos mx * 2 ^ (ex + 1074) + Zpos my * 2 ^ (ey + 1074)
                 = Zpos pm * 2 ^ (ez + 1074)).
  { rewrite Em.
    replace (ex + 1074) with ((ex - ez) + (ez + 1074)) by lia.
    replace (ey + 1074) with ((ey - ez) + (ez + 1074)) by lia.
    rewrite (Z.pow_add_r 2 (ex - ez) (ez + 1074)),
      (Z.pow_add_r 2 (ey - ez) (ez + 1074)) by (unfold ez; lia).
    ring. }
  rewrite Hsum.
  destruct (binary_round_aux_spec (Zpos pm) ez loc_Exact (Zpos pm * 2 ^ (ez + 1074)) 1)
    as [Hn Hv].
  - lia.
  - unfold ez. lia.
  - exact Hdg.
  - rewrite Z.mul_1_l. apply located_exact; [apply Z.pow_pos_nonneg; unfold ez; lia | lia].
  - split; [|exact Hv]. apply normal_weaken with (L := ez); [unfold ez; lia | exact Hn].
Qed.

Lemma div_bounds_mul n d X Y :
  0 < d -> X <= n / d < Y -> X * d <= n < Y * d.
Proof.
  intros Hd [H1 H2].
  pose proof (Z.div_mod n d ltac:(lia)) as E.
  pose proof (Z.mod_pos_bound n d Hd) as B.
  split; nia.
Qed.

(** In the normal range the rounded value stays in the binade of the exact one
    (or reaches the next power of two). *)
Lemma RNZ_range n d k :
  0 < d -> 53 <= k -> 2 ^ (k - 1) * d <= n < 2 ^ k * d ->
  2 ^ (k - 1) <= RNZ n d <= 2 ^ k.
Proof.
  intros Hd Hk Hn. rewrite (RNZ_unit n d k Hd Hk Hn).
  assert (Hu : 0 < 2 ^ (k - 53)) by (apply Z.pow_pos_nonneg; lia).
  assert (E1 : 2 ^ (k - 1) = 2 ^ 52 * 2 ^ (k - 53)).
  { rewrite <- Z.pow_add_r by lia. f_equal. lia. }
  assert (E2 : 2 ^ k = 2 ^ 53 * 2 ^ (k - 53)).
  { rewrite <- Z.pow_add_r by lia. f_equal. lia. }
  set (u := 2 ^ (k - 53)) in *. rewrite E1, E2 in *. clear E1 E2.
  assert (Hdu : 0 < d * u) by nia.
  assert (Hn0 : 0 <= n) by nia.
  pose proof (rhe_bounds n (d * u) Hdu Hn0) as Hr.
  assert (Hq : 2 ^ 52 <= n / (d * u) < 2 ^ 53).
  { split.
    - apply Z.div_le_lower_bound; [lia|]. nia.
    - apply Z.div_lt_upper_bound; [lia|]. nia. }
  clear Hn. set (r := rhe n (d * u)) in *. clearbody r. nia.
Qed.

Lemma normal_quotient n d :
  0 < d -> 2 ^ 52 * d <= n ->
  53 <= Zdigits2 (n / d)
  /\ 2 ^ (Zdigits2 (n / d) - 1) * d <= n < 2 ^ Zdigits2 (n / d) * d.
Proof.
  intros Hd Hn.
  assert (Hq : 2 ^ 52 <= n / d) by (apply Z.div_le_lower_bound; lia).
  split.
  - apply (Zdigits2_lower _ 52); lia.
  - apply div_bounds_mul; [exact Hd|]. apply Zdigits2_bounds. lia.
Qed.

(** Rounding to 53 bits is monotone. *)
Lemma RNZ_mono n n' d :
  0 < d -> 2 ^ 52 * d <= n <= n' -> RNZ n d <= RNZ n' d.
Proof.
  intros Hd [Hn Hnn'].
  destruct (normal_quotient n d Hd Hn) as [Hk Hb].
  destruct (normal_quotient n' d Hd ltac:(lia)) as [Hk' Hb'].
  set (k := Zdigits2 (n / d)) in *. set (k' := Zdigits2 (n' / d)) in *.
  destruct (Z.lt_trichotomy k k') as [L|[E|G]].
  - pose proof (RNZ_range n d k Hd Hk Hb). pose proof (RNZ_range n' d k' Hd Hk' Hb').
    assert (2 ^ k <= 2 ^ (k' - 1)) by (apply Z.pow_le_mono_r; lia). lia.
  - rewrite (RNZ_unit n d k Hd Hk Hb), (RNZ_unit n' d k' Hd Hk' Hb'), <- E.
    assert (Hu : 0 < 2 ^ (k - 53)) by (apply Z.pow_pos_nonneg; lia).
    apply Z.mul_le_mono_nonneg_l; [lia|].
    apply rhe_mono; nia.
  - exfalso. assert (2 ^ k' <= 2 ^ (k - 1)) by (apply Z.pow_le_mono_r; lia). nia.
Qed.

(** A value with a 53-bit significand rounds to itself. *)
Lemma RNZ_exact m E :
  2 ^ 52 <= m < 2 ^ 53 -> 0 <= E -> RNZ (m * 2 ^ E) 1 = m * 2 ^ E.
Proof.
  intros Hm HE.
  assert (HP : 0 < 2 ^ E) by (apply Z.pow_pos_nonneg; lia).
  rewrite (RNZ_unit (m * 2 ^ E) 1 (53 + E)); [| lia | lia |].
  - replace (53 + E - 53) with E by lia. rewrite Z.mul_1_l, rhe_exact by lia. ring.
  - replace (53 + E - 1) with (52 + E) by lia.
    rewrite !Z.mul_1_r, (Z.pow_add_r 2 52 E), (Z.pow_add_r 2 53 E) by lia. nia.
Qed.

Lemma RNZ_TOP : RNZ TOP 1 = TOP.
Proof.
  change TOP with (2 ^ 52 * 2 ^ 2046). apply RNZ_exact; [|lia].
  split; [lia | vm_compute; reflexivity].
Qed.

(** What a normal float is, and where its value lies. *)
Lemma normal_cases L f :
  -1074 <= L -> normal L f ->
  (f = S754_zero false /\ scaled f = 0)
  \/ (f = S754_infinity false /\ scaled f = TOP)
  \/ (exists m e, f = S754_finite false m e
                  /\ 2 ^ 52 <= Zpos m < 2 ^ 53 /\ L <= e <= 971
                  /\ 2 ^ 52 * 2 ^ (L + 1074) <= scaled f < TOP).
Proof.
  intros HL H. destruct f as [[]|[]| |[] m e]; cbn in H; try contradiction.
  - now left.
  - right. now left.
  - right. right. exists m, e. destruct H as [Hm He].
    repeat split; try lia; cbn [scaled].
    + assert (2 ^ (L + 1074) <= 2 ^ (e + 1074)) by (apply Z.pow_le_mono_r; lia).
      assert (0 < 2 ^ (L + 1074)) by (apply Z.pow_pos_nonneg; lia). nia.
    + assert (2 ^ (e + 1074) <= 2 ^ (971 + 1074)) by (apply Z.pow_le_mono_r; lia).
      assert (0 < 2 ^ (e + 1074)) by (apply Z.pow_pos_nonneg; lia).
      change TOP with (2 ^ 53 * 2 ^ (971 + 1074)). nia.
Qed.

(** The order of floats is the order of their scaled values. *)
Lemma fleb_scaled L f f' :
  -1074 <= L -> normal L f -> normal L f' -> scaled f <= scaled f' -> fleb f f' = true.
Proof.
  intros HL Hf Hf' Hle.
  assert (HT : 0 < TOP) by (vm_compute; reflexivity).
  assert (HP : 0 < 2 ^ 52 * 2 ^ (L + 1074)).
  { assert (0 < 2 ^ (L + 1074)) by (apply Z.pow_pos_nonneg; lia). lia. }
  destruct (normal_cases L f HL Hf) as [[-> Hs]|[[-> Hs]|(m & e & -> & Hm & He & Hs)]];
  destruct (normal_cases L f' HL Hf') as [[-> Hs']|[[-> Hs']|(m' & e' & -> & Hm' & He' & Hs')]];
    try reflexivity; try lia.
  unfold fleb, SFleb. cbn [SFcompare].
  cbn [scaled] in Hle.
  destruct (Z.compare_spec e e') as [Ee|Lt|Gt]; [|reflexivity|exfalso].
  - subst e'. assert (0 < 2 ^ (e + 1074)) by (apply Z.pow_pos_nonneg; lia).
    assert (Hmm : Zpos m <= Zpos m') by nia.
    rewrite Pos.compare_cont_spec. cbn [Pos.switch_Eq].
    destruct (Pos.compare_spec m m'); try reflexivity. lia.
  - assert (E : 2 ^ (e + 1074) = 2 ^ (e - e') * 2 ^ (e' + 1074)).
    { rewrite <- Z.pow_add_r by lia. f_equal. lia. }
    assert (2 <= 2 ^ (e - e')).
    { change 2 with (2 ^ 1) at 1. apply Z.pow_le_mono_r; lia. }
    assert (0 < 2 ^ (e' + 1074)) by (apply Z.pow_pos_nonneg; lia).
    rewrite E in Hle. change (2 ^ 53) with (2 * 2 ^ 52) in *. nia.
Qed.

Lemma scaled_nonneg L f : -1074 <= L -> normal L f -> 0 <= scaled f.
Proof.
  intros HL H.
  assert (0 < 2 ^ (L + 1074)) by (apply Z.pow_pos_nonneg; lia).
  destruct (normal_cases L f HL H) as [[_ ->]|[[_ ->]|(m & e & _ & _ & _ & Hs)]].
  - lia.
  - vm_compute. discriminate.
  - lia.
Qed.

(** The division by a million is monotone. *)
Lemma quotient_spec_mono i i' : 0 <= i <= i' -> quotient_spec i <= quotient_spec i'.
Proof.
  intros [Hi Hii']. unfold quotient_spec.
  assert (Hbase : 2 ^ 52 * 1000000 <= 2 ^ 1074) by (vm_compute; discriminate).
  assert (HT : 0 < TOP) by (vm_compute; reflexivity).
  set (W := 2 ^ 1074) in *. clearbody W.
  destruct (Z.eqb_spec i 0) as [E|N]; destruct (Z.eqb_spec i' 0) as [E'|N']; try lia.
  - assert (Hn : 2 ^ 52 * 1000000 <= i' * W).
    { apply Z.le_trans with (1 * W); [lia|]. apply Z.mul_le_mono_nonneg_r; lia. }
    destruct (normal_quotient (i' * W) 1000000 ltac:(lia) Hn) as [Hk Hb].
    pose proof (RNZ_range (i' * W) 1000000 _ ltac:(lia) Hk Hb) as Hr.
    assert (0 < 2 ^ (Zdigits2 (i' * W / 1000000) - 1))
      by (apply Z.pow_pos_nonneg; lia).
    lia.
  - apply Z.min_le_compat_r. apply RNZ_mono; [lia|]. split.
    + apply Z.le_trans with (1 * W); [lia|]. apply Z.mul_le_mono_nonneg_r; lia.
    + apply Z.mul_le_mono_nonneg_r; lia.
Qed.

(** Multiplying by a rate keeps the order. *)
Lemma fmul_rate_mono L q q' mr er :
  -1074 <= L + er -> er <= 0 ->
  2 ^ 52 <= Zpos mr < 2 ^ 53 ->
  normal L q -> normal L q' ->
  scaled q < TOP -> scaled q' < TOP ->
  scaled q <= scaled q' ->
  normal (L + er) (fmul q (S754_finite false mr er))
  /\ normal (L + er) (fmul q' (S754_finite false mr er))
  /\ scaled (fmul q (S754_finite false mr er))
     <= scaled (fmul q' (S754_finite false mr er)).
Proof.
  intros HL Her Hr Hq Hq' Hfin Hfin' Hle.
  assert (HL0 : -1074 <= L) by lia.
  assert (HT : 0 < TOP) by (vm_compute; reflexivity).
  assert (HP : 0 < 2 ^ (L + 1074)) by (apply Z.pow_pos_nonneg; lia).
  destruct (normal_cases L q HL0 Hq) as [[-> Hs]|[[-> Hs]|(m & e & -> & Hm & He & Hs)]];
    [| lia |];
  (destruct (normal_cases L q' HL0 Hq') as [[-> Hs']|[[-> Hs']|(m' & e' & -> & Hm' & He' & Hs')]];
    [| lia |]).
  - repeat split; try exact I. cbn. lia.
  - destruct (fmul_normal_spec m' e' mr er Hm' Hr Her ltac:(lia)) as [Hn Hv].
    split; [exact I|]. split.
    + apply normal_weaken with (L := e' + er); [lia | exact Hn].
    + change (scaled (fmul (S754_zero false) (S754_finite false mr er))) with 0.
      apply (scaled_nonneg (e' + er)); [lia | exact Hn].
  - lia.
  - destruct (fmul_normal_spec m e mr er Hm Hr Her ltac:(lia)) as [Hn Hv].
    destruct (fmul_normal_spec m' e' mr er Hm' Hr Her ltac:(lia)) as [Hn' Hv'].
    split; [apply normal_weaken with (L := e + er); [lia | exact Hn]|].
    split; [apply normal_weaken with (L := e' + er); [lia | exact Hn']|].
    rewrite Hv, Hv'. apply Z.min_le_compat_r.
    assert (Hd : 0 < 2 ^ (- er)) by (apply Z.pow_pos_nonneg; lia).
    apply RNZ_mono; [exact Hd|].
    cbn [scaled] in Hle, Hs, Hs'.
    assert (Hde : 2 ^ (- er) <= 2 ^ (L + 1074)) by (apply Z.pow_le_mono_r; lia).
    split; [|nia].
    apply Z.le_trans with (2 ^ 52 * 2 ^ (L + 1074) * 1); [nia|].
    apply Z.mul_le_mono_nonneg; lia.
Qed.

Lemma RNZ_above_TOP v : TOP <= v -> Z.min (RNZ v 1) TOP = TOP.
Proof.
  intros H. apply Z.min_r. rewrite <- RNZ_TOP at 1.
  apply RNZ_mono; [lia|]. split; [vm_compute; discriminate | exact H].
Qed.

(** The sum of two normal floats, zero and infinity included. *)
Lemma fadd_spec L x y :
  -1074 <= L -> normal L x -> normal L y ->
  normal L (fadd x y) /\ scaled (fadd x y) = sum_spec (scaled x) (scaled y).
Proof.
  intros HL Hx Hy.
  assert (HT : 0 < TOP) by (vm_compute; reflexivity).
  assert (HP : 0 < 2 ^ (L + 1074)) by (apply Z.pow_pos_nonneg; lia).
  unfold sum_spec.
  destruct (normal_cases L x HL Hx) as [[-> Hs]|[[-> Hs]|(m & e & -> & Hm & He & Hs)]];
  destruct (normal_cases L y HL Hy) as [[-> Hs']|[[-> Hs']|(m' & e' & -> & Hm' & He' & Hs')]].
  - split; [exact I | reflexivity].
  - split; [exact I|]. cbn [fadd SFadd]. rewrite Hs, Hs'.
    change (0 + TOP =? 0) with false. cbv iota. now rewrite RNZ_above_TOP by lia.
  - split; [exact Hy|]. change (fadd (S754_zero false) (S754_finite false m' e'))
      with (S754_finite false m' e').
    rewrite Hs. cbn [scaled] in *. rewrite Z.add_0_l.
    destruct (Z.eqb_spec (Zpos m' * 2 ^ (e' + 1074)) 0); [lia|].
    rewrite RNZ_exact by lia. lia.
  - split; [exact I|]. cbn [fadd SFadd]. rewrite Hs, Hs'.
    change (TOP + 0 =? 0) with false. cbv iota. now rewrite RNZ_above_TOP by lia.
  - split; [exact I|]. cbn [fadd SFadd]. rewrite Hs.
    change (TOP + TOP =? 0) with false. cbv iota. now rewrite RNZ_above_TOP by lia.
  - split; [exact I|]. change (fadd (S754_infinity false) (S754_finite false m' e'))
      with (S754_infinity false). rewrite Hs.
    destruct (Z.eqb_spec (TOP + scaled (S754_finite false m' e')) 0); [lia|].
    now rewrite RNZ_above_TOP by lia.
  - split; [exact Hx|]. change (fadd (S754_finite false m e) (S754_zero false))
      with (S754_finite false m e).
    rewrite Hs'. cbn [scaled] in *. rewrite Z.add_0_r.
    destruct (Z.eqb_spec (Zpos m * 2 ^ (e + 1074)) 0); [lia|].
    rewrite RNZ_exact by lia. lia.
  - split; [exact I|]. change (fadd (S754_finite false m e) (S754_infinity false))
      with (S754_infinity false). rewrite Hs'.
    destruct (Z.eqb_spec (scaled (S754_finite false m e) + TOP) 0); [lia|].
    now rewrite RNZ_above_TOP by lia.
  - destruct (fadd_normal_spec m e m' e' L HL Hm ltac:(lia) Hm' ltac:(lia)) as [Hn Hv].
    split; [exact Hn|]. rewrite Hv. cbn [scaled] in *.
    destruct (Z.eqb_spec (Zpos m * 2 ^ (e + 1074) + Zpos m' * 2 ^ (e' + 1074)) 0);
      [lia | reflexivity].
Qed.

(** Addition is monotone in both arguments. *)
Lemma sum_spec_mono L a a' b b' :
  -1074 <= L ->
  (a = 0 \/ 2 ^ 52 * 2 ^ (L + 1074) <= a) ->
  (b = 0 \/ 2 ^ 52 * 2 ^ (L + 1074) <= b) ->
  (a' = 0 \/ 2 ^ 52 * 2 ^ (L + 1074) <= a') ->
  (b' = 0 \/ 2 ^ 52 * 2 ^ (L + 1074) <= b') ->
  a <= a' -> b <= b' ->
  sum_spec a b <= sum_spec a' b'.
Proof.
  intros HL Ha Hb Ha' Hb' Haa Hbb.
  assert (HT : 0 < TOP) by (vm_compute; reflexivity).
  assert (HP : 2 ^ 52 * 1 <= 2 ^ 52 * 2 ^ (L + 1074)).
  { apply Z.mul_le_mono_nonneg_l; [lia|].
    change 1 with (2 ^ 0). apply Z.pow_le_mono_r; lia. }
  assert (H52 : 0 < 2 ^ 52) by (apply Z.pow_pos_nonneg; lia).
  set (P := 2 ^ 52 * 2 ^ (L + 1074)) in *. clearbody P.
  unfold sum_spec.
  destruct (Z.eqb_spec (a + b) 0) as [E|N]; destruct (Z.eqb_spec (a' + b') 0) as [E'|N'].
  - lia.
  - assert (Hn : 2 ^ 52 * 1 <= a' + b') by lia.
    destruct (normal_quotient (a' + b') 1 ltac:(lia) Hn) as [Hk Hbnd].
    pose proof (RNZ_range (a' + b') 1 _ ltac:(lia) Hk Hbnd) as Hr.
    assert (0 < 2 ^ (Zdigits2 ((a' + b') / 1) - 1)) by (apply Z.pow_pos_nonneg; lia).
    lia.
  - exfalso. lia.
  - apply Z.min_le_compat_r. apply RNZ_mono; [lia|]. lia.
Qed.

End FloatFacts.

(* ===================================================================== *)
(** * The order of costs *)
(* ===================================================================== *)

Module CostOrder.
Import FloatSpec Rounding FloatFacts.
#[local] Open Scope Z_scope.

Lemma Zdigits2_upper m k : 0 < m -> m < 2 ^ k -> Zdigits2 m <= k.
Proof.
  intros Hm Hk. destruct (Zdigits2_bounds m Hm) as [Hlo _].
  destruct (Z.le_gt_cases (Zdigits2 m) k) as [H|H]; [exact H|].
  exfalso. assert (2 ^ k <= 2 ^ (Zdigits2 m - 1)).
  { destruct (Z.lt_ge_cases k 0) as [Hneg|Hpos].
    - rewrite (Z.pow_neg_r 2 k Hneg) in Hk. lia.
    - apply Z.pow_le_mono_r; lia. }
  lia.
Qed.

(** Below [2^1023] the quotient by a million is a finite float. *)
Lemma quotient_spec_finite i : 0 <= i < 2 ^ 1023 -> quotient_spec i < TOP.
Proof.
  intros [Hi Hb]. unfold quotient_spec.
  assert (HT : 0 < TOP) by (vm_compute; reflexivity).
  destruct (Z.eqb_spec i 0) as [E|N]; [exact HT|].
  apply Z.min_lt_iff. left.
  assert (Hbase : 2 ^ 52 * 1000000 <= 2 ^ 1074) by (vm_compute; discriminate).
  assert (HW : 0 < 2 ^ 1074) by (vm_compute; reflexivity).
  assert (Hn : 2 ^ 52 * 1000000 <= i * 2 ^ 1074).
  { apply Z.le_trans with (1 * 2 ^ 1074); [rewrite Z.mul_1_l; exact Hbase|].
    apply Z.mul_le_mono_nonneg_r; lia. }
  destruct (normal_quotient (i * 2 ^ 1074) 1000000 ltac:(lia) Hn) as [Hk Hbnd].
  pose proof (RNZ_range (i * 2 ^ 1074) 1000000 _ ltac:(lia) Hk Hbnd) as Hr.
  assert (Hq : i * 2 ^ 1074 / 1000000 < 2 ^ 2097).
  { apply Z.div_lt_upper_bound; [lia|].
    apply Z.lt_le_trans with (2 ^ 1023 * 2 ^ 1074).
    - apply Z.mul_lt_mono_pos_r; [exact HW | exact Hb].
    - vm_compute. discriminate. }
  assert (Hd : Zdigits2 (i * 2 ^ 1074 / 1000000) <= 2097).
  { apply Zdigits2_upper; [|exact Hq].
    assert (0 < 2 ^ (Zdigits2 (i * 2 ^ 1074 / 1000000) - 1))
      by (apply Z.pow_pos_nonneg; lia).
    apply Z.lt_le_trans with (2 ^ 52).
    - vm_compute; reflexivity.
    - apply Z.div_le_lower_bound; [lia|]. rewrite Z.mul_comm. exact Hn. }
  apply Z.le_lt_trans with (2 ^ 2097).
  - apply Z.le_trans with (2 ^ Zdigits2 (i * 2 ^ 1074 / 1000000)); [apply Hr|].
    apply Z.pow_le_mono_r; lia.
  - vm_compute. reflexivity.
Qed.

(** What a successful division by a million returns. *)
Lemma int_truediv_million i q :
  0 <= i -> int_truediv i 1000000 = Ok q ->
  normal (-72) q /\ scaled q = quotient_spec i /\ scaled q < TOP.
Proof.
  intros Hi. unfold int_truediv. change (1000000 =? 0) with false. cbv iota.
  destruct (SFdiv_int_spec i Hi) as [Hn Hs].
  set (q0 := SFdiv prec emax (of_int i) (of_int 1000000)) in *. clearbody q0.
  destruct (is_infinite q0) eqn:Einf; [discriminate|].
  intros [= <-]. split; [exact Hn|]. split; [exact Hs|].
  assert (HT : 0 < TOP) by (vm_compute; reflexivity).
  destruct (normal_cases (-72) q0 ltac:(lia) Hn)
    as [[_ H]|[[-> _]|(m & e & _ & _ & _ & H)]]; [lia | discriminate | lia].
Qed.

(** The division succeeds as soon as the rounded quotient is finite. *)
Lemma int_truediv_defined i :
  0 <= i -> quotient_spec i < TOP ->
  int_truediv i 1000000 = Ok (SFdiv prec emax (of_int i) (of_int 1000000)).
Proof.
  intros Hi Hfin. unfold int_truediv. change (1000000 =? 0) with false. cbv iota.
  destruct (SFdiv_int_spec i Hi) as [Hn Hs].
  set (q0 := SFdiv prec emax (of_int i) (of_int 1000000)) in *. clearbody q0.
  destruct (normal_cases (-72) q0 ltac:(lia) Hn)
    as [[-> _]|[[_ H]|(m & e & -> & _)]]; [reflexivity | lia | reflexivity].
Qed.

(** A division that succeeds for [i'] succeeds for every smaller count, with
    a quotient that is not larger. *)
Lemma int_truediv_downward i i' q' :
  0 <= i <= i' -> int_truediv i' 1000000 = Ok q' ->
  exists q, int_truediv i 1000000 = Ok q
    /\ normal (-72) q /\ normal (-72) q'
    /\ scaled q < TOP /\ scaled q' < TOP /\ scaled q <= scaled q'.
Proof.
  intros Hi H'.
  destruct (int_truediv_million i' q' ltac:(lia) H') as (Hn' & Hs' & Hf').
  pose proof (quotient_spec_mono i i' Hi) as Hm.
  assert (Hfin : quotient_spec i < TOP) by lia.
  pose proof (int_truediv_defined i ltac:(lia) Hfin) as Hq.
  destruct (int_truediv_million i _ ltac:(lia) Hq) as (Hn & Hs & Hf).
  eexists. split; [exact Hq|]. repeat split; try assumption. lia.
Qed.

(** A cost that is returned is the sum of the two products. *)
Lemma calculate_cost_inv i o c :
  calculate_cost i o = Ok c ->
  exists qi qo,
    int_truediv i 1000000 = Ok qi /\ int_truediv o 1000000 = Ok qo
    /\ c = fadd (fmul qi PRICE_PER_1M_INPUT_TOKENS)
                (fmul qo PRICE_PER_1M_OUTPUT_TOKENS).
Proof.
  unfold calculate_cost.
  destruct (int_truediv i 1000000) as [qi|]; [|discriminate].
  destruct (int_truediv o 1000000) as [qo|]; [|discriminate].
  intros [= <-]. exists qi, qo. repeat split.
Qed.

Lemma normal_domain L f :
  -1074 <= L <= 971 -> normal L f ->
  scaled f = 0 \/ 2 ^ 52 * 2 ^ (L + 1074) <= scaled f.
Proof.
  intros HL Hn.
  destruct (normal_cases L f ltac:(lia) Hn)
    as [[_ H]|[[_ H]|(m & e & _ & _ & _ & H)]]; [now left | right | right; lia].
  rewrite H. unfold TOP. rewrite <- Z.pow_add_r by lia.
  apply Z.pow_le_mono_r; lia.
Qed.

(** The cost of a run is never below the cost of a run that used fewer
    tokens, and never below zero. *)
Lemma cost_order i i' o o' c' :
  0 <= i <= i' -> 0 <= o <= o' ->
  calculate_cost i' o' = Ok c' ->
  exists c, calculate_cost i o = Ok c
    /\ fleb zero c = true /\ fleb c c' = true.
Proof.
  intros Hi Ho H'.
  destruct (calculate_cost_inv i' o' c' H') as (qi' & qo' & Hqi' & Hqo' & ->).
  destruct (int_truediv_downward i i' qi' Hi Hqi')
    as (qi & Hqi & Ni & Ni' & Fi & Fi' & Li).
  destruct (int_truediv_downward o o' qo' Ho Hqo')
    as (qo & Hqo & No & No' & Fo & Fo' & Lo).
  exists (fadd (fmul qi PRICE_PER_1M_INPUT_TOKENS)
               (fmul qo PRICE_PER_1M_OUTPUT_TOKENS)).
  split; [unfold calculate_cost; rewrite Hqi, Hqo; reflexivity|].
  destruct (fmul_rate_mono (-72) qi qi' 4503599627370496 (-54)
              ltac:(lia) ltac:(lia)
              ltac:(split; [vm_compute; discriminate | vm_compute; reflexivity])
              Ni Ni' Fi Fi' Li) as (Na & Na' & La).
  destruct (fmul_rate_mono (-72) qo qo' 5629499534213120 (-52)
              ltac:(lia) ltac:(lia)
              ltac:(split; [vm_compute; discriminate | vm_compute; reflexivity])
              No No' Fo Fo' Lo) as (Nb & Nb' & Lb).
  change (S754_finite false 4503599627370496 (-54))
    with PRICE_PER_1M_INPUT_TOKENS in *.
  change (S754_finite false 5629499534213120 (-52))
    with PRICE_PER_1M_OUTPUT_TOKENS in *.
  set (a := fmul qi PRICE_PER_1M_INPUT_TOKENS) in *.
  set (a' := fmul qi' PRICE_PER_1M_INPUT_TOKENS) in *.
  set (b := fmul qo PRICE_PER_1M_OUTPUT_TOKENS) in *.
  set (b' := fmul qo' PRICE_PER_1M_OUTPUT_TOKENS) in *.
  clearbody a a' b b'.
  change (-72 + -54) with (-126) in *. change (-72 + -52) with (-124) in *.
  apply (normal_weaken (-124) (-126)) in Nb; [|lia].
  apply (normal_weaken (-124) (-126)) in Nb'; [|lia].
  destruct (fadd_spec (-126) a b ltac:(lia) Na Nb) as [Nc Sc].
  destruct (fadd_spec (-126) a' b' ltac:(lia) Na' Nb') as [Nc' Sc'].
  split.
  - apply (fleb_scaled (-126)); [lia | exact I | exact Nc |].
    change (scaled zero) with 0. apply (scaled_nonneg (-126)); [lia | exact Nc].
  - apply (fleb_scaled (-126)); [lia | exact Nc | exact Nc' |].
    rewrite Sc, Sc'. apply (sum_spec_mono (-126)); try assumption; try lia;
      apply normal_domain; (lia || assumption).
Qed.

(** Below [2^1023] tokens the cost is defined. *)
Lemma cost_defined i o :
  0 <= i < 2 ^ 1023 -> 0 <= o < 2 ^ 1023 -> exists c, calculate_cost i o = Ok c.
Proof.
  intros Hi Ho. unfold calculate_cost.
  rewrite (int_truediv_defined i ltac:(lia) (quotient_spec_finite i Hi)).
  rewrite (int_truediv_defined o ltac:(lia) (quotient_spec_finite o Ho)).
  eexists. reflexivity.
Qed.

(** X1. The divisor is the constant [1_000_000]: [calculate_cost] never raises
    [ZeroDivisionError]. *)
Lemma cost_never_divides_by_zero i o msg :
  calculate_cost i o <> Raise (ZeroDivisionError msg).
Proof.
  unfold calculate_cost, int_truediv. change (1000000 =? 0) with false. cbv iota.
  destruct (is_infinite (SFdiv prec emax (of_int i) (of_int 1000000)));
    [discriminate|].
  destruct (is_infinite (SFdiv prec emax (of_int o) (of_int 1000000)));
    discriminate.
Qed.

(** Where the cost stops being defined: from [(2^1024 - 2^970) * 10^6]
    tokens the quotient rounds beyond the largest float and the division
    raises [OverflowError]; one token below, the cost is returned. *)
Lemma cost_beyond_the_floats :
  calculate_cost ((2 ^ 1024 - 2 ^ 970) * 1000000) 0
  = Raise (OverflowError (py "integer division result too large for a float"))
  /\ exists c, calculate_cost ((2 ^ 1024 - 2 ^ 970) * 1000000 - 1) 0 = Ok c.
Proof. split; [vm_compute; reflexivity|]. vm_compute. eexists. reflexivity. Qed.

(** C9. For non-negative token counts [calculate_cost] is monotonically
    non-decreasing in each of its two arguments, never returns a negative
    cost, and returns exactly zero for zero tokens. The cost is a float:
    below [2^1023] tokens it is always returned; when it is returned for
    [i'] and [o'] it is returned for all smaller counts, and is not larger
    there. *)
Theorem C9_cost_is_monotone_and_non_negative :
  calculate_cost 0 0 = Ok zero
  /\ (forall i o, 0 <= i < 2 ^ 1023 -> 0 <= o < 2 ^ 1023 ->
        exists c, calculate_cost i o = Ok c)
  /\ (forall i o c, 0 <= i -> 0 <= o ->
        calculate_cost i o = Ok c -> fleb zero c = true)
  /\ (forall i i' o o' c', 0 <= i <= i' -> 0 <= o <= o' ->
        calculate_cost i' o' = Ok c' ->
        exists c, calculate_cost i o = Ok c /\ fleb c c' = true).
Proof.
  split; [reflexivity|]. split; [exact cost_defined|]. split.
  - intros i o c Hi Ho H.
    destruct (cost_order i i o o c ltac:(lia) ltac:(lia) H) as (c0 & H0 & Hz & _).
    rewrite H in H0. injection H0 as <-. exact Hz.
  - intros i i' o o' c' Hi Ho H.
    destruct (cost_order i i' o o' c' Hi Ho H) as (c & Hc & _ & Hle).
    exists c. split; assumption.
Qed.

(** The order at 12000 and 3000 tokens against 24000 and 4000. *)
Lemma C9_cost_is_monotone_and_non_negative_witness :
  exists c, calculate_cost 12000 3000 = Ok c
    /\ fleb c (fadd (literal 6 3) (literal 5 3)) = true.
Proof.
  apply (proj2 (proj2 (proj2 C9_cost_is_monotone_and_non_negative))
           12000 24000 3000 4000); [lia | lia | vm_compute; reflexivity].
Defined.

End CostOrder.

(* ===================================================================== *)
(** * Counting on traces *)
(* ===================================================================== *)

Module TraceFacts.
Import EffFacts Observe.

Lemma invocations_app (t1 t2 : list event) :
  invocations (t1 ++ t2) = (invocations t1 + invocations t2)%nat.
Proof. unfold invocations. now rewrite filter_app, length_app. Qed.

Lemma invocations_quiet {A} (m : M A) :
  all_events no_network m -> invocations (trace m) = O.
Proof.
  unfold all_events, no_network, invocations. induction (trace m) as [|ev t IH]; intros H.
  - reflexivity.
  - cbn [filter]. rewrite (H ev (or_introl eq_refl)). apply IH.
    intros ev' Hin. apply H. now right.
Qed.

Lemma invocations_bind {A B} (m : M A) (f : A -> M B) (a b : nat) :
  (invocations (trace m) <= a)%nat ->
  (forall x, outcome m = Returns x -> invocations (trace (f x)) <= b)%nat ->
  (invocations (trace (bind m f)) <= a + b)%nat.
Proof.
  intros Hm Hf. rewrite trace_bind, invocations_app.
  destruct (outcome m) as [x| |] eqn:E.
  - specialize (Hf x eq_refl). lia.
  - cbn. lia.
  - cbn. lia.
Qed.

Lemma invocations_try {A} (m : M A) (h : exn -> M A) (a b : nat) :
  (invocations (trace m) <= a)%nat ->
  (forall e, outcome m = Raises e -> invocations (trace (h e)) <= b)%nat ->
  (invocations (trace (try_except m h)) <= a + b)%nat.
Proof.
  intros Hm Hh. rewrite trace_try, invocations_app.
  destruct (outcome m) as [|e|] eqn:E.
  - cbn. lia.
  - specialize (Hh e eq_refl). lia.
  - cbn. lia.
Qed.

Lemma invocations_for_each {A S} (xs : list A) (body : S -> A -> M S) (k : nat) :
  (forall s x, invocations (trace (body s x)) <= k)%nat ->
  forall s, (invocations (trace (for_each xs body s)) <= k * List.length xs)%nat.
Proof.
  intros Hb. induction xs as [|x xs IH]; intros s.
  - cbn. lia.
  - cbn [for_each List.length].
    pose proof (invocations_bind (body s x) (for_each xs body) k (k * List.length xs)
                  (Hb s x) (fun s' _ => IH s')).
    lia.
Qed.

Lemma writes_app (t1 t2 : list event) : writes (t1 ++ t2) = writes t1 ++ writes t2.
Proof. unfold writes. apply flat_map_app. Qed.

Lemma targets_app (t1 t2 : list event) : targets (t1 ++ t2) = targets t1 ++ targets t2.
Proof. unfold targets. apply flat_map_app. Qed.

Lemma writes_quiet {A} (m : M A) : all_events no_artifact m -> writes (trace m) = [].
Proof.
  unfold all_events, no_artifact. induction (trace m) as [|ev t IH]; intros H.
  - reflexivity.
  - unfold writes in *. cbn [flat_map].
    rewrite IH by (intros ev' Hin; apply H; now right).
    specialize (H ev (or_introl eq_refl)). destruct ev; try reflexivity; discriminate.
Qed.

Lemma targets_quiet {A} (m : M A) : all_events no_artifact m -> targets (trace m) = [].
Proof.
  unfold all_events, no_artifact. induction (trace m) as [|ev t IH]; intros H.
  - reflexivity.
  - unfold targets in *. cbn [flat_map].
    rewrite IH by (intros ev' Hin; apply H; now right).
    specialize (H ev (or_introl eq_refl)).
    destruct ev as [| | |p| | | | | | | |op| |]; try reflexivity; try discriminate.
    destruct op; try reflexivity; discriminate.
Qed.

Lemma trace_bind_returns {A B} (m : M A) (f : A -> M B) (a : A) :
  outcome m = Returns a -> trace (bind m f) = trace m ++ trace (f a).
Proof. intros H. now rewrite trace_bind, H. Qed.

Lemma outcome_bind_returns {A B} (m : M A) (f : A -> M B) (a : A) :
  outcome m = Returns a -> outcome (bind m f) = outcome (f a).
Proof. intros H. now rewrite outcome_bind, H. Qed.

Lemma trace_print {B} (s : str) (k : M B) :
  trace (console_print s ;; k) = Print s :: trace k.
Proof. destruct k as [o t]. reflexivity. Qed.

Lemma trace_emit {B} (ev : event) (k : M B) : trace (emit ev ;; k) = ev :: trace k.
Proof. destruct k as [o t]. reflexivity. Qed.

Lemma outcome_emit {B} (ev : event) (k : M B) : outcome (emit ev ;; k) = outcome k.
Proof. destruct k as [o t]. reflexivity. Qed.

Lemma outcome_print {B} (s : str) (k : M B) :
  outcome (console_print s ;; k) = outcome k.
Proof. destruct k as [o t]. reflexivity. Qed.

Lemma trace_rich_print {B} (w : World) (s : str) (k : M B) :
  trace (rich_print w s ;; k)
  = match console_render w s with
    | Ok _ => Print s :: trace k
    | Raise _ => []
    end.
Proof.
  unfold rich_print. destruct (console_render w s) as [[]|e]; destruct k; reflexivity.
Qed.

Lemma outcome_rich_print {B} (w : World) (s : str) (k : M B) :
  outcome (rich_print w s ;; k)
  = match console_render w s with
    | Ok _ => outcome k
    | Raise e => Raises e
    end.
Proof.
  unfold rich_print. destruct (console_render w s) as [[]|e]; destruct k; reflexivity.
Qed.

Lemma writes_print (s : str) (t : list event) : writes (Print s :: t) = writes t.
Proof. reflexivity. Qed.

Lemma targets_print (s : str) (t : list event) : targets (Print s :: t) = targets t.
Proof. reflexivity. Qed.

Lemma invocations_print (s : str) (t : list event) :
  invocations (Print s :: t) = invocations t.
Proof. reflexivity. Qed.

Lemma spacers_app (t1 t2 : list event) :
  spacers (t1 ++ t2) = (spacers t1 + spacers t2)%nat.
Proof. unfold spacers. now rewrite filter_app, length_app. Qed.

Lemma spacers_quiet {A} (m : M A) : all_events no_spacer m -> spacers (trace m) = O.
Proof.
  unfold all_events, no_spacer, spacers. induction (trace m) as [|ev t IH]; intros H.
  - reflexivity.
  - cbn [filter]. rewrite (H ev (or_introl eq_refl)). apply IH.
    intros ev' Hin. apply H. now right.
Qed.

End TraceFacts.

(* ===================================================================== *)
(** * How the two scanning scripts start *)
(* ===================================================================== *)

Module EntryPoints.
Import EffFacts Totality CostReport Boundaries Observe TraceFacts.

#[local] Hint Resolve
  generate_class_diagram_returns save_diagram_to_file_returns
  generate_code_explanations_returns : returns.

Lemma code_explanation_main_no_exit w :
  missing (environ w (py "PROJECT_DIRECTORY")) = false ->
  no_exit (CodeExplanation.main w).
Proof.
  intros H. unfold CodeExplanation.main. rewrite H.
  apply no_exit_bind; [exact I|]. intros _.
  apply no_exit_bind; [apply rich_print_no_exit|]. intros _.
  apply no_exit_bind.
  - unfold CodeExplanation.create_output_directory. no_exit_tac.
  - intros output_dir. apply no_exit_bind.
    + apply no_exit_returns. apply generate_code_explanations_returns.
    + intros [[[[xs i] o] c] p]. destruct xs as [|x xs].
      * exact I.
      * apply no_exit_bind; [|intros _; apply no_exit_returns; returns_tac].
        destruct p as [path|]; [|exact I].
        apply no_exit_bind; [exact I|]. intros _. apply rich_print_no_exit.
Qed.

(** X4. Both scanning scripts leave with exit status 1 exactly when
    [PROJECT_DIRECTORY] is unset or empty, and then they have only printed
    the banner and the two lines of advice. *)
Theorem scripts_exit_without_project_directory (w : World) :
  (outcome (ClassDiagram.main w) = Exits 1%Z
   <-> missing (environ w (py "PROJECT_DIRECTORY")) = true)
  /\ (outcome (CodeExplanation.main w) = Exits 1%Z
      <-> missing (environ w (py "PROJECT_DIRECTORY")) = true)
  /\ (forall c, outcome (ClassDiagram.main w) = Exits c
                \/ outcome (CodeExplanation.main w) = Exits c -> c = 1%Z)
  /\ (missing (environ w (py "PROJECT_DIRECTORY")) = true ->
      trace (ClassDiagram.main w)
      = [Print (py "[bold green]Class Diagram Generator for TypeScript and Prisma[/bold green]");
         Print (py "[bold red]PROJECT_DIRECTORY not found in environment variables[/bold red]");
         Print (py "Please set the PROJECT_DIRECTORY in your .env file")]
      /\ trace (CodeExplanation.main w)
         = [Print (py "[bold green]Code Explanation Generator for TypeScript[/bold green]");
            Print (py "[bold red]PROJECT_DIRECTORY not found in environment variables[/bold red]");
            Print (py "Please set the PROJECT_DIRECTORY in your .env file")]).
Proof.
  destruct (missing (environ w (py "PROJECT_DIRECTORY"))) eqn:H.
  - assert (E1 : ClassDiagram.main w
                 = (Exits 1%Z,
                    [Print (py "[bold green]Class Diagram Generator for TypeScript and Prisma[/bold green]");
                     Print (py "[bold red]PROJECT_DIRECTORY not found in environment variables[/bold red]");
                     Print (py "Please set the PROJECT_DIRECTORY in your .env file")]))
      by (unfold ClassDiagram.main; now rewrite H).
    assert (E2 : CodeExplanation.main w
                 = (Exits 1%Z,
                    [Print (py "[bold green]Code Explanation Generator for TypeScript[/bold green]");
                     Print (py "[bold red]PROJECT_DIRECTORY not found in environment variables[/bold red]");
                     Print (py "Please set the PROJECT_DIRECTORY in your .env file")]))
      by (unfold CodeExplanation.main; now rewrite H).
    rewrite E1, E2. repeat split; try reflexivity.
    intros c [E|E]; cbn in E; congruence.
  - pose proof (class_diagram_main_no_exit w H) as R1.
    pose proof (code_explanation_main_no_exit w H) as R2.
    unfold no_exit in R1, R2.
    repeat split; try discriminate.
    + intros E. rewrite E in R1. destruct R1.
    + intros E. rewrite E in R2. destruct R2.
    + intros c [E|E]; [rewrite E in R1; destruct R1 | rewrite E in R2; destruct R2].
Qed.

End EntryPoints.

(* ===================================================================== *)
(** * The generation call of the class diagram *)
(* ===================================================================== *)

Module Generation.
Import EffFacts Totality CostReport Credentials Boundaries Observe TraceFacts.
Import ClassDiagram.

(** How [generate_diagram] ends, from what the outside answers. *)
Lemma generate_diagram_outcome (w : World) (ts prisma : str) :
  outcome (generate_diagram w ts prisma)
  = if missing (environ w (py "ANTHROPIC_API_KEY")) then Returns ([], 0%Z, 0%Z)
    else match new_client w model_name (environ w (py "ANTHROPIC_API_KEY")) with
         | Raise e => Raises e
         | Ok _ =>
             match invoke w [ts; prisma] with
             | Raise _ => Returns ([], 0%Z, 0%Z)
             | Ok d =>
                 match get_num_tokens w (format_prompt w [ts; prisma]),
                       get_num_tokens w d with
                 | Ok i, Ok o => Returns (d, i, o)
                 | _, _ => Returns ([], 0%Z, 0%Z)
                 end
             end
         end.
Proof.
  unfold generate_diagram.
  destruct (missing (environ w (py "ANTHROPIC_API_KEY"))); [reflexivity|].
  destruct (new_client w model_name (environ w (py "ANTHROPIC_API_KEY"))) as [[]|e0];
    [|reflexivity].
  cbn. destruct (invoke w [ts; prisma]) as [d0|e1]; [|reflexivity].
  cbn. destruct (get_num_tokens w (format_prompt w [ts; prisma])) as [i0|e2];
    [|reflexivity].
  cbn. destruct (get_num_tokens w d0) as [o0|e3]; reflexivity.
Qed.

Lemma generate_diagram_invocations (w : World) (ts prisma : str) :
  (invocations (trace (generate_diagram w ts prisma)) <= 1)%nat.
Proof.
  unfold generate_diagram.
  destruct (missing (environ w (py "ANTHROPIC_API_KEY"))); [cbn; lia|].
  destruct (new_client w model_name (environ w (py "ANTHROPIC_API_KEY"))) as [[]|e0];
    [|cbn; lia].
  cbn. destruct (invoke w [ts; prisma]) as [d0|e1]; [|cbn; lia].
  cbn. destruct (get_num_tokens w (format_prompt w [ts; prisma])) as [i0|e2];
    [|cbn; lia].
  cbn. destruct (get_num_tokens w d0) as [o0|e3]; cbn; lia.
Qed.

(** X5. [generate_diagram] raises exactly when the key is set and the client's
    constructor, which sits before the [try], raises. A diagram that is
    not empty is the model's answer, with the tokenizer's two counts. The
    model is called at most once: there is no retry. *)
Theorem generate_diagram_result (w : World) (ts prisma : str) :
  (forall e,
      outcome (generate_diagram w ts prisma) = Raises e
      <-> missing (environ w (py "ANTHROPIC_API_KEY")) = false
          /\ new_client w model_name (environ w (py "ANTHROPIC_API_KEY")) = Raise e)
  /\ (forall d i o,
         outcome (generate_diagram w ts prisma) = Returns (d, i, o) ->
         d <> [] ->
         invoke w [ts; prisma] = Ok d
         /\ get_num_tokens w (format_prompt w [ts; prisma]) = Ok i
         /\ get_num_tokens w d = Ok o)
  /\ (invocations (trace (generate_diagram w ts prisma)) <= 1)%nat.
Proof.
  split; [|split; [|apply generate_diagram_invocations]].
  - intros e. rewrite generate_diagram_outcome.
    destruct (missing (environ w (py "ANTHROPIC_API_KEY"))).
    + split; [discriminate | intros [? _]; discriminate].
    + destruct (new_client w model_name (environ w (py "ANTHROPIC_API_KEY")))
        as [[]|e0].
      * split; [|intros [_ ?]; discriminate].
        destruct (invoke w [ts; prisma]) as [d0|]; [|discriminate].
        destruct (get_num_tokens w (format_prompt w [ts; prisma])); [|discriminate].
        destruct (get_num_tokens w d0); discriminate.
      * split; [intros [= <-]; split; reflexivity | intros [_ [= <-]]; reflexivity].
  - intros d i o. rewrite generate_diagram_outcome.
    destruct (missing (environ w (py "ANTHROPIC_API_KEY")));
      [intros [= <- <- <-]; congruence|].
    destruct (new_client w model_name (environ w (py "ANTHROPIC_API_KEY")))
      as [[]|e0]; [|discriminate].
    destruct (invoke w [ts; prisma]) as [d0|]; [|intros [= <- <- <-]; congruence].
    destruct (get_num_tokens w (format_prompt w [ts; prisma])) as [i0|];
      [|intros [= <- <- <-]; congruence].
    destruct (get_num_tokens w d0) as [o0|] eqn:Ho;
      [|intros [= <- <- <-]; congruence].
    intros [= <- <- <-] _. repeat split. exact Ho.
Qed.

End Generation.

(* ===================================================================== *)
(** * The class-diagram pipeline, end to end *)
(* ===================================================================== *)

Module DiagramPipeline.
Import EffFacts Totality CostReport Credentials Boundaries Observe TraceFacts.
Import Generation.
Import ClassDiagram.

Lemma get_gitignore_spec_raises (w : World) (e : exn) :
  outcome (Scan.get_gitignore_spec w) = Raises e ->
  trace (Scan.get_gitignore_spec w)
  = [PathExists (InProject [py ".gitignore"]); OpenRead (InProject [py ".gitignore"])].
Proof.
  unfold Scan.get_gitignore_spec.
  destruct (Scan.gitignore_entry w) as [[content|e0]|]; [| reflexivity | discriminate].
  cbn. destruct (PathSpec.from_lines (glob w) (PathSpec.splitlines content));
    [discriminate | reflexivity].
Qed.

Lemma read_project_files_stops (w : World) (directory : str) (e : exn) :
  outcome (Scan.get_gitignore_spec w) = Raises e ->
  read_project_files w directory
  = (Raises e,
     [PathExists (InProject [py ".gitignore"]); OpenRead (InProject [py ".gitignore"])]).
Proof.
  intros H. pose proof (get_gitignore_spec_raises w e H) as T.
  unfold read_project_files.
  destruct (Scan.get_gitignore_spec w) as [o t]. cbn in H, T. subst o t. reflexivity.
Qed.

Lemma read_typescript_files_stops (w : World) (directory : str) (e : exn) :
  outcome (Scan.get_gitignore_spec w) = Raises e ->
  CodeExplanation.read_typescript_files w directory
  = (Raises e,
     [PathExists (InProject [py ".gitignore"]); OpenRead (InProject [py ".gitignore"])]).
Proof.
  intros H. pose proof (get_gitignore_spec_raises w e H) as T.
  unfold CodeExplanation.read_typescript_files.
  destruct (Scan.get_gitignore_spec w) as [o t]. cbn in H, T. subst o t. reflexivity.
Qed.

(** X6. An ignore file that exists but cannot be read or compiled stops both
    pipelines before they read a project file, build a client or write
    anything: the failure value is returned and the error is logged. *)
Theorem unreadable_gitignore_stops_the_run (w : World) (directory output_dir : str)
        (e : exn) :
  outcome (Scan.get_gitignore_spec w) = Raises e ->
  generate_class_diagram w directory
  = (Returns failure,
     [PathExists (InProject [py ".gitignore"]);
      OpenRead (InProject [py ".gitignore"]);
      Log ERROR (py "[red]Error in main pipeline: " ++ str_of_exn e ++ py "[/red]")])
  /\ CodeExplanation.generate_code_explanations w directory output_dir
     = (Returns CodeExplanation.failure,
        [PathExists (InProject [py ".gitignore"]);
         OpenRead (InProject [py ".gitignore"]);
         Log ERROR (py "[red]Error in main pipeline: " ++ str_of_exn e ++ py "[/red]")]).
Proof.
  intros H. split.
  - unfold generate_class_diagram. now rewrite (read_project_files_stops w directory e H).
  - unfold CodeExplanation.generate_code_explanations.
    now rewrite (read_typescript_files_stops w directory e H).
Qed.

(** An instance. *)
Lemma unreadable_gitignore_stops_the_run_witness :
  generate_class_diagram Worlds.gitignore_is_directory (py "/srv/project")
  = (Returns failure,
     [PathExists (InProject [py ".gitignore"]);
      OpenRead (InProject [py ".gitignore"]);
      Log ERROR (py "[red]Error in main pipeline: Is a directory[/red]")])
  /\ CodeExplanation.generate_code_explanations
       Worlds.gitignore_is_directory (py "/srv/project") (py "./output")
     = (Returns CodeExplanation.failure,
        [PathExists (InProject [py ".gitignore"]);
         OpenRead (InProject [py ".gitignore"]);
         Log ERROR (py "[red]Error in main pipeline: Is a directory[/red]")]).
Proof.
  apply (unreadable_gitignore_stops_the_run
           Worlds.gitignore_is_directory (py "/srv/project") (py "./output")
           (OSError (py "Is a directory"))).
  reflexivity.
Defined.

(** X7. When the scan comes back with no TypeScript text and no schema text,
    [generate_class_diagram] stops there: it logs the error and returns the
    failure value (with an empty file list, whatever was read), and has
    neither built a client, called the model or the tokenizer, nor written
    a file. *)
Theorem nothing_to_draw_makes_no_call (w : World) (directory : str) (fl : list str) :
  outcome (read_project_files w directory) = Returns ([], [], fl) ->
  outcome (generate_class_diagram w directory) = Returns failure
  /\ all_events no_model (generate_class_diagram w directory)
  /\ all_events no_artifact (generate_class_diagram w directory)
  /\ In (Log ERROR (py "[red]No TypeScript files or Prisma schema found in directory: "
                    ++ directory ++ py "[/red]"))
        (trace (generate_class_diagram w directory)).
Proof.
  intros H. split; [|split; [|split]].
  - unfold generate_class_diagram. rewrite outcome_try, outcome_bind, H. reflexivity.
  - unfold generate_class_diagram. apply all_events_try; [|intros e0; all_events_tac].
    apply all_events_bind_outcome; [apply read_project_files_no_model|].
    intros r Hr. rewrite H in Hr. injection Hr as <-. cbn [truthy negb andb].
    all_events_tac.
  - apply generate_class_diagram_no_artifact.
  - unfold generate_class_diagram. rewrite trace_try, trace_bind, H.
    apply in_or_app. left. apply in_or_app. right. cbn. now left.
Qed.

(** An instance. *)
Lemma nothing_to_draw_makes_no_call_witness :
  outcome (read_project_files Worlds.empty_schema_only (py "/srv/project"))
  = Returns ([], [], [py "schema.prisma"])
  /\ outcome (generate_class_diagram Worlds.empty_schema_only (py "/srv/project"))
     = Returns failure.
Proof.
  assert (H : outcome (read_project_files Worlds.empty_schema_only (py "/srv/project"))
              = Returns ([], [], [py "schema.prisma"])) by (vm_compute; reflexivity).
  split; [exact H|].
  exact (proj1 (nothing_to_draw_makes_no_call
                  Worlds.empty_schema_only (py "/srv/project") [py "schema.prisma"] H)).
Defined.

(** A diagram that [generate_class_diagram] returns is empty or the
    model's answer. *)
Lemma generate_class_diagram_answer (w : World) (directory : str)
      (d : str) (i o : Z) (c : float) (fl : list str) :
  outcome (generate_class_diagram w directory) = Returns (d, i, o, c, fl) ->
  d <> [] ->
  exists ts prisma, invoke w [ts; prisma] = Ok d.
Proof.
  unfold generate_class_diagram. rewrite outcome_try, outcome_bind.
  destruct (outcome (read_project_files w directory)) as [[[ts prisma] fl0]|e|code].
  - destruct (negb (truthy ts) && negb (truthy prisma)).
    + cbn. intros [= <- <- <- <- <-]. congruence.
    + rewrite outcome_bind, generate_diagram_outcome.
      destruct (missing (environ w (py "ANTHROPIC_API_KEY"))).
      { rewrite outcome_bind, outcome_lift, failure_cost. cbn.
        intros [= <- <- <- <- <-]. congruence. }
      destruct (new_client w model_name (environ w (py "ANTHROPIC_API_KEY")))
        as [[]|e0]; [|cbn; intros [= <- <- <- <- <-]; congruence].
      destruct (invoke w [ts; prisma]) as [d0|e1] eqn:Hi.
      2:{ rewrite outcome_bind, outcome_lift, failure_cost. cbn.
          intros [= <- <- <- <- <-]. congruence. }
      destruct (get_num_tokens w (format_prompt w [ts; prisma])) as [i0|e2].
      2:{ rewrite outcome_bind, outcome_lift, failure_cost. cbn.
          intros [= <- <- <- <- <-]. congruence. }
      destruct (get_num_tokens w d0) as [o0|e3].
      2:{ rewrite outcome_bind, outcome_lift, failure_cost. cbn.
          intros [= <- <- <- <- <-]. congruence. }
      rewrite outcome_bind, outcome_lift.
      destruct (calculate_cost i0 o0) as [c0|e4].
      * cbn. intros [= <- <- <- <- <-] _. now exists ts, prisma.
      * cbn. intros [= <- <- <- <- <-]. congruence.
  - cbn. intros [= <- <- <- <- <-]. congruence.
  - discriminate.
Qed.

Lemma generate_class_diagram_invocations (w : World) (directory : str) :
  (invocations (trace (generate_class_diagram w directory)) <= 1)%nat.
Proof.
  unfold generate_class_diagram.
  apply (invocations_try _ _ 1 0); [|intros e _; cbn; lia].
  apply (invocations_bind _ _ 0 1).
  - rewrite invocations_quiet; [lia|].
    intros ev Hin. pose proof (read_project_files_no_model w directory ev Hin) as N.
    unfold no_model in N. unfold no_network. destruct ev; try reflexivity; discriminate.
  - intros [[ts prisma] fl] _.
    destruct (negb (truthy ts) && negb (truthy prisma)); [cbn; lia|].
    apply (invocations_bind _ _ 1 0); [apply generate_diagram_invocations|].
    intros [[d i] o] _.
    apply (invocations_bind _ _ 0 0); [rewrite trace_lift; cbn; lia|].
    intros c _. cbn. lia.
Qed.

Lemma save_diagram_to_file_writes (w : World) (diagram file_path : str) :
  targets (trace (save_diagram_to_file w diagram file_path)) = [file_path]
  /\ writes (trace (save_diagram_to_file w diagram file_path))
     = match open_write w file_path with
       | Raise _ => []
       | Ok _ =>
           (Local file_path, py "```mermaid" ++ nl)
           :: match write_text w file_path (py "```mermaid" ++ nl) with
              | Raise _ => []
              | Ok _ =>
                  (Local file_path, diagram)
                  :: match write_text w file_path diagram with
                     | Raise _ => []
                     | Ok _ => [(Local file_path, nl ++ py "```")]
                     end
              end
       end
  /\ invocations (trace (save_diagram_to_file w diagram file_path)) = O.
Proof.
  unfold save_diagram_to_file, write.
  destruct (open_write w file_path) as [[]|e]; [|repeat split; reflexivity].
  destruct (write_text w file_path (py "```mermaid" ++ nl)) as [[]|e1];
    [|repeat split; reflexivity].
  destruct (write_text w file_path diagram) as [[]|e2]; [|repeat split; reflexivity].
  destruct (write_text w file_path (nl ++ py "```")) as [[]|e3];
    repeat split; reflexivity.
Qed.

Lemma rich_print_table_prints (w : World) (title : str) (cells : list str) :
  all_events (fun ev => match ev with Print _ => True | _ => False end)
             (rich_print_table w title cells).
Proof.
  unfold rich_print_table. apply all_events_bind.
  - apply all_events_for_each. intros [] cell _. apply all_events_lift.
  - intros _. apply all_events_bind.
    + intros ev [<-|[]]. exact I.
    + intros _. apply all_events_for_each. intros s x _ ev [<-|[]]. exact I.
Qed.

Lemma prints_are_quiet (t : list event) :
  (forall ev, In ev t -> match ev with Print _ => True | _ => False end) ->
  writes t = [] /\ targets t = [] /\ invocations t = O.
Proof.
  induction t as [|ev t IH]; intros H; [repeat split|].
  destruct IH as (W & T & I); [intros ev' Hin; apply H; now right|].
  specialize (H ev (or_introl eq_refl)). destruct ev; try destruct H.
  unfold writes, targets, invocations in *. cbn. now rewrite W, T, I.
Qed.

(** X8. The class-diagram script writes to no file but
    [combined_class_diagram.md]. Its calls of [f.write] there are, in
    order, the opening Mermaid fence, an answer of the model that is not
    empty, and the closing fence: all three unless one of the first two
    fails, and then none after the one that failed. It calls the model at
    most once. *)
Theorem class_diagram_main_output (w : World) :
  (forall p, In p (targets (trace (main w))) -> p = py "combined_class_diagram.md")
  /\ (writes (trace (main w)) = []
      \/ exists ts prisma d k,
          invoke w [ts; prisma] = Ok d /\ d <> []
          /\ (1 <= k <= 3)%nat
          /\ writes (trace (main w))
             = firstn k
                 [(Local (py "combined_class_diagram.md"), py "```mermaid" ++ nl);
                  (Local (py "combined_class_diagram.md"), d);
                  (Local (py "combined_class_diagram.md"), nl ++ py "```")]
          /\ (forall j, (j + 1 < k)%nat ->
                write_text w (py "combined_class_diagram.md")
                  (nth j [py "```mermaid" ++ nl; d; nl ++ py "```"] []) = Ok tt)
          /\ ((k < 3)%nat ->
              exists e,
                write_text w (py "combined_class_diagram.md")
                  (nth (k - 1) [py "```mermaid" ++ nl; d; nl ++ py "```"] [])
                = Raise e))
  /\ (invocations (trace (main w)) <= 1)%nat.
Proof.
  unfold main.
  destruct (missing (environ w (py "PROJECT_DIRECTORY"))).
  { cbn. repeat split; [intros p [] | now left | lia]. }
  set (directory := match environ w (py "PROJECT_DIRECTORY") with
                    | Some d => d | None => [] end).
  destruct (generate_class_diagram_returns w directory) as [[[[[d i] o] c] fl] R].
  pose proof (generate_class_diagram_answer w directory d i o c fl R) as Ans.
  pose proof (generate_class_diagram_invocations w directory) as Inv.
  pose proof (writes_quiet _ (generate_class_diagram_no_artifact w directory)) as W.
  pose proof (targets_quiet _ (generate_class_diagram_no_artifact w directory)) as T.
  rewrite trace_print, trace_rich_print.
  destruct (console_render w _) as [[]|e0].
  2:{ cbn. repeat split; [intros p [] | now left | lia]. }
  rewrite (trace_bind_returns _ _ _ R). cbv beta iota.
  rewrite !writes_print, !targets_print, !invocations_print.
  rewrite writes_app, targets_app, invocations_app, W, T.
  destruct d as [|ch d]; cbn [truthy].
  { cbn. repeat split; [intros p [] | now left | lia]. }
  specialize (Ans ltac:(discriminate)). destruct Ans as (ts & prisma & Hi).
  rewrite trace_print, trace_rich_print.
  destruct (console_render w (ch :: d)) as [[]|e1].
  2:{ cbn. repeat split; [intros p [] | now left | lia]. }
  destruct (save_diagram_to_file_writes w (ch :: d) (py "combined_class_diagram.md"))
    as (ST & SW & SI).
  destruct (save_diagram_to_file_returns w (ch :: d) (py "combined_class_diagram.md"))
    as [[] SR].
  rewrite (trace_bind_returns _ _ _ SR).
  match goal with
  | |- context [trace (display_file_list w fl ;; ?k)] =>
      set (rest := display_file_list w fl ;; k)
  end.
  assert (P : all_events (fun ev => match ev with Print _ => True | _ => False end)
                         rest).
  { apply all_events_bind; [apply rich_print_table_prints|]. intros _.
    repeat (apply all_events_bind; [intros ev [<-|[]]; exact I | intros _]).
    intros ev [<-|[]]. exact I. }
  destruct (prints_are_quiet _ P) as (DW & DT & DI).
  rewrite !writes_print, !targets_print, !invocations_print.
  rewrite !writes_app, !targets_app, !invocations_app.
  rewrite ST, SW, SI, DW, DT, DI. cbn [app]. rewrite !app_nil_r.
  split; [|split].
  - intros p [<-|[]]. reflexivity.
  - destruct (open_write w (py "combined_class_diagram.md")); [right | now left].
    exists ts, prisma, (ch :: d).
    destruct (write_text w (py "combined_class_diagram.md") (py "```mermaid" ++ nl))
      as [[]|e2] eqn:W1.
    2:{ exists 1%nat. repeat split; [exact Hi | discriminate | lia | lia | lia |].
        intros _. now exists e2. }
    destruct (write_text w (py "combined_class_diagram.md") (ch :: d))
      as [[]|e3] eqn:W2.
    2:{ exists 2%nat. repeat split; [exact Hi | discriminate | lia | lia | |].
        - intros [|j] Hj; [exact W1 | lia].
        - intros _. now exists e3. }
    exists 3%nat. repeat split; [exact Hi | discriminate | lia | lia | |].
    + intros [|[|j]] Hj; [exact W1 | exact W2 | lia].
    + lia.
  - lia.
Qed.

(** An answer that the file's encoding lacks: the opening fence is
    written, the call for the answer fails, the closing fence is never
    written, and the script goes on to its tables. *)
Example an_answer_that_cannot_be_encoded :
  writes (trace (main Worlds.unwritable_answer))
  = [(Local (py "combined_class_diagram.md"), py "```mermaid" ++ nl);
     (Local (py "combined_class_diagram.md"), Examples.caption_response)]
  /\ outcome (main Worlds.unwritable_answer) = Returns tt
  /\ In (Log ERROR (py "[red]Error saving diagram to file: 'ascii' codec can't encode character[/red]"))
        (trace (main Worlds.unwritable_answer)).
Proof.
  split; [vm_compute; reflexivity|]. split; [vm_compute; reflexivity|].
  vm_compute. tauto.
Qed.

End DiagramPipeline.

(* ===================================================================== *)
(** * The code-explanation pipeline, file by file *)
(* ===================================================================== *)

Module ExplanationPipeline.
Import EffFacts Totality CostReport Credentials FailFast Boundaries Observe TraceFacts.
Import CodeExplanation Entry.

Lemma for_each_fold {A S} (R : list A -> S -> Prop) (body : S -> A -> M S) :
  (forall done x s s',
      R done s -> outcome (body s x) = Returns s' -> R (done ++ [x]) s') ->
  forall xs done s s',
    R done s -> outcome (for_each xs body s) = Returns s' -> R (done ++ xs) s'.
Proof.
  intros Hstep. induction xs as [|x xs IH]; intros done s s' HR H.
  - cbn in H. injection H as <-. now rewrite app_nil_r.
  - cbn [for_each] in H. rewrite outcome_bind in H.
    destruct (outcome (body s x)) as [s1| |] eqn:E; try discriminate.
    replace (done ++ x :: xs) with ((done ++ [x]) ++ xs) by now rewrite <- app_assoc.
    apply (IH _ s1); [|exact H]. now apply (Hstep done x s).
Qed.

Lemma generate_explanation_with_screenshot_cases w file_name content output_dir :
  (exists caption explanation it ot path,
      outcome (generate_explanation w file_name content)
      = Returns (caption, explanation, it, ot)
      /\ outcome (generate_explanation_with_screenshot w file_name content output_dir)
         = Returns (caption, explanation, path, it, ot))
  \/ outcome (generate_explanation_with_screenshot w file_name content output_dir)
     = Returns ([], [], [], 0%Z, 0%Z).
Proof.
  unfold generate_explanation_with_screenshot.
  rewrite outcome_try, outcome_bind.
  pose proof (generate_explanation_no_exit w file_name content) as N.
  unfold no_exit in N.
  destruct (outcome (generate_explanation w file_name content))
    as [[[[caption explanation] it] ot]|e|c]; [| now right | contradiction].
  left. rewrite outcome_bind.
  destruct (create_code_screenshot_returns w file_name content caption output_dir)
    as [path ->].
  now exists caption, explanation, it, ot, path.
Qed.

(** One step of the loop of [generate_code_explanations]: the file is
    dropped, or its entry is appended with an explanation that is not
    empty and its two token counts are added. *)
Lemma explain_one_step w output_dir xs i o file_name content :
  outcome (explain_one w output_dir (xs, i, o) (file_name, content))
  = Returns (xs, i, o)
  \/ exists caption explanation path it ot,
      explanation <> []
      /\ outcome (generate_explanation w file_name content)
         = Returns (caption, explanation, it, ot)
      /\ outcome (explain_one w output_dir (xs, i, o) (file_name, content))
         = Returns (xs ++ [(file_name, caption, explanation, path)],
                    (i + it)%Z, (o + ot)%Z).
Proof.
  unfold explain_one. rewrite outcome_try, outcome_bind.
  destruct (generate_explanation_with_screenshot_cases w file_name content output_dir)
    as [(caption & explanation & it & ot & path & G & ->)| ->].
  - destruct explanation as [|ch explanation]; [now left|].
    right. exists caption, (ch :: explanation), path, it, ot.
    repeat split; [discriminate | exact G].
  - now left.
Qed.

Lemma loop_invariant_step w output_dir done file st st' :
  loop_invariant done st ->
  outcome (explain_one w output_dir st file) = Returns st' ->
  loop_invariant (done ++ [file]) st'.
Proof.
  destruct st as [[xs i] o], file as [file_name content].
  intros (F & I & L & Z0) H.
  destruct (explain_one_step w output_dir xs i o file_name content)
    as [E|(caption & explanation & path & it & ot & Ne & _ & E)];
    rewrite E in H; injection H as <-.
  - split; [exact F|]. split; [|split; [|exact Z0]].
    + rewrite map_app. now apply incl_appl.
    + rewrite length_app. lia.
  - split; [|split; [|split]].
    + apply Forall_app. split; [exact F|]. constructor; [exact Ne | constructor].
    + rewrite !map_app. apply incl_app; [now apply incl_appl|].
      apply incl_appr. cbn. apply incl_refl.
    + rewrite !length_app. cbn. lia.
    + intros N. destruct xs; discriminate.
Qed.

(** X9. Whatever the model answers, every entry of the report that
    [generate_code_explanations] returns has an explanation that is not
    empty and names a file of the scan, there are no more entries than
    scanned files, and a report without entries has zero tokens and zero
    cost. *)
Theorem report_holds_only_explained_files (w : World) (directory output_dir : str)
        (files : list (str * str))
        (xs : list entry) (i o : Z) (c : float) (p : option str) :
  outcome (read_typescript_files w directory) = Returns files ->
  outcome (generate_code_explanations w directory output_dir)
  = Returns (xs, i, o, c, p) ->
  Forall (fun e => explanation_of e <> []) xs
  /\ incl (map file_name_of xs) (map fst files)
  /\ (List.length xs <= List.length files)%nat
  /\ (xs = [] -> i = 0%Z /\ o = 0%Z /\ c = zero).
Proof.
  intros Hfiles. unfold generate_code_explanations.
  rewrite outcome_try, outcome_bind, Hfiles, outcome_bind.
  destruct (returns_for_each files (explain_one w output_dir) ([], 0%Z, 0%Z)
              (explain_one_returns w output_dir)) as [[[xs0 i0] o0] E].
  rewrite E.
  assert (Inv : loop_invariant ([] ++ files) (xs0, i0, o0)).
  { apply (for_each_fold loop_invariant (explain_one w output_dir)
             (loop_invariant_step w output_dir) files [] ([], 0%Z, 0%Z));
      [|exact E].
    split; [constructor|]. split; [apply incl_refl|]. split; [cbn; lia|].
    intros _. split; reflexivity. }
  cbn [app] in Inv. destruct Inv as (F & I & L & Z0).
  rewrite outcome_bind, outcome_lift.
  destruct (calculate_cost i0 o0) as [c0|e] eqn:C.
  - rewrite outcome_bind.
    destruct (create_word_document_returns w xs0 output_dir) as [path ->].
    intros [= <- <- <- <- <-].
    split; [exact F|]. split; [exact I|]. split; [exact L|].
    intros ->. destruct (Z0 eq_refl) as [-> ->].
    rewrite failure_cost in C. injection C as <-. repeat split.
  - cbn. intros [= <- <- <- <- <-].
    split; [constructor|]. split; [intros x []|]. split; [cbn; lia|].
    intros _. repeat split.
Qed.

(** An instance. *)
Lemma report_holds_only_explained_files_witness :
  exists files xs i o c p,
    outcome (read_typescript_files Examples.healthy (py "/srv/project")) = Returns files
    /\ outcome (generate_code_explanations Examples.healthy (py "/srv/project")
                                           (py "./output"))
       = Returns (xs, i, o, c, p)
    /\ List.length files = 3%nat
    /\ List.length xs = 3%nat
    /\ Forall (fun e => explanation_of e <> []) xs
    /\ incl (map file_name_of xs) (map fst files)
    /\ (List.length xs <= List.length files)%nat
    /\ (xs = [] -> i = 0%Z /\ o = 0%Z /\ c = zero).
Proof.
  do 6 eexists.
  split; [vm_compute; reflexivity|]. split; [vm_compute; reflexivity|].
  split; [reflexivity|]. split; [reflexivity|].
  eapply (report_holds_only_explained_files
            Examples.healthy (py "/srv/project") (py "./output"));
    vm_compute; reflexivity.
Defined.

Lemma generate_explanation_invocations w file_name content :
  (invocations (trace (generate_explanation w file_name content)) <= 1)%nat.
Proof.
  unfold generate_explanation.
  destruct (new_client w model_name (environ w (py "OPENAI_API_KEY"))) as [[]|e0];
    [|cbn; lia].
  cbn. destruct (invoke w [file_name; content]) as [r|e1]; [|cbn; lia].
  cbn. destruct (parse_response r) as [[caption explanation]|e2]; [|cbn; lia].
  cbn. destruct (get_num_tokens w (format_prompt w [file_name; content])) as [i0|e3];
    [|cbn; lia].
  cbn. destruct (get_num_tokens w r) as [o0|e4]; cbn; lia.
Qed.

Lemma create_code_screenshot_no_network w file_name code caption output_dir :
  all_events no_network (create_code_screenshot w file_name code caption output_dir).
Proof. unfold create_code_screenshot. all_events_tac. Qed.

Lemma explain_one_invocations w output_dir st file :
  (invocations (trace (explain_one w output_dir st file)) <= 1)%nat.
Proof.
  destruct st as [[xs i] o], file as [file_name content]. unfold explain_one.
  apply (invocations_try _ _ 1 0); [|intros e _; cbn; lia].
  apply (invocations_bind _ _ 1 0).
  - unfold generate_explanation_with_screenshot.
    apply (invocations_try _ _ 1 0); [|intros e _; cbn; lia].
    apply (invocations_bind _ _ 1 0); [apply generate_explanation_invocations|].
    intros [[[caption explanation] it] ot] _.
    apply (invocations_bind _ _ 0 0).
    + rewrite invocations_quiet; [lia | apply create_code_screenshot_no_network].
    + intros path _. cbn. lia.
  - intros [[[[caption explanation] path] it] ot] _.
    destruct (truthy explanation); cbn; lia.
Qed.

(** X10. The code-explanation pipeline calls the model at most once for each
    file the scan returned, and not at all when the scan raised. *)
Theorem one_generation_call_per_file (w : World) (directory output_dir : str) :
  (invocations (trace (generate_code_explanations w directory output_dir))
   <= match outcome (read_typescript_files w directory) with
      | Returns files => List.length files
      | _ => 0
      end)%nat.
Proof.
  unfold generate_code_explanations.
  set (n := match outcome (read_typescript_files w directory) with
            | Returns files => List.length files
            | _ => O
            end).
  apply (Nat.le_trans _ (0 + n + 0)); [|lia].
  apply invocations_try; [|intros e _; cbn; lia].
  apply invocations_bind.
  - rewrite invocations_quiet; [lia | apply read_typescript_files_no_network].
  - intros files Hf. unfold n. rewrite Hf.
    apply (Nat.le_trans _ (1 * List.length files + 0)); [|lia].
    apply invocations_bind.
    + apply invocations_for_each. intros s x. apply explain_one_invocations.
    + intros [[xs i] o] _.
      apply (invocations_bind _ _ 0 0); [rewrite trace_lift; cbn; lia|].
      intros c _. apply (invocations_bind _ _ 0 0).
      * rewrite invocations_quiet; [lia | apply create_word_document_no_network].
      * intros p _. cbn. lia.
Qed.

Lemma create_code_screenshot_trace w file_name code caption output_dir :
  In (RenderImage file_name)
     (trace (create_code_screenshot w file_name code caption output_dir))
  /\ (render_image w file_name code caption = Ok tt ->
      makedirs w (Scan.path_join output_dir (py "screenshots")) = Ok tt ->
      In (OpenWrite
            (Local (Scan.path_join
                      (Scan.path_join output_dir (py "screenshots"))
                      (Fs.splitext_root (Fs.basename file_name) ++ py ".png"))))
         (trace (create_code_screenshot w file_name code caption output_dir))).
Proof.
  unfold create_code_screenshot. split.
  - rewrite trace_try, trace_emit. apply in_or_app. left. now left.
  - intros Hr Hm. rewrite Hr. cbn [lift]. rewrite Hm. cbn [lift].
    rewrite trace_try. apply in_or_app. left.
    cbn. destruct (open_write w _); cbn; right; right; now left.
Qed.

(** X11. A file whose explanation comes back empty (the model or the tokenizer
    failed, the answer had no blank line, or nothing followed it) is left
    out of the report and adds no tokens, but its screenshot has been
    rendered all the same, and written when the image library and
    [os.makedirs] succeed. *)
Theorem dropped_file_still_gets_a_screenshot
        (w : World) (output_dir : str) (st : list entry * Z * Z)
        (file_name content caption : str) (it ot : Z) :
  outcome (generate_explanation w file_name content) = Returns (caption, [], it, ot) ->
  outcome (explain_one w output_dir st (file_name, content)) = Returns st
  /\ In (RenderImage file_name)
        (trace (explain_one w output_dir st (file_name, content)))
  /\ (render_image w file_name content caption = Ok tt ->
      makedirs w (Scan.path_join output_dir (py "screenshots")) = Ok tt ->
      In (OpenWrite
            (Local (Scan.path_join
                      (Scan.path_join output_dir (py "screenshots"))
                      (Fs.splitext_root (Fs.basename file_name) ++ py ".png"))))
         (trace (explain_one w output_dir st (file_name, content)))).
Proof.
  intros G. destruct st as [[xs i] o].
  destruct (create_code_screenshot_returns w file_name content caption output_dir)
    as [path S].
  destruct (create_code_screenshot_trace w file_name content caption output_dir)
    as [T1 T2].
  assert (GO : outcome (generate_explanation_with_screenshot w file_name content output_dir)
               = Returns (caption, [], path, it, ot)).
  { unfold generate_explanation_with_screenshot.
    now rewrite outcome_try, outcome_bind, G, outcome_bind, S. }
  assert (GT : forall ev,
             In ev (trace (create_code_screenshot w file_name content caption output_dir)) ->
             In ev (trace (explain_one w output_dir (xs, i, o) (file_name, content)))).
  { intros ev Hin. unfold explain_one. rewrite trace_try. apply in_or_app. left.
    rewrite trace_bind. apply in_or_app. left.
    unfold generate_explanation_with_screenshot.
    rewrite trace_try. apply in_or_app. left.
    rewrite trace_bind, G. apply in_or_app. right.
    rewrite trace_bind. apply in_or_app. now left. }
  split; [|split].
  - unfold explain_one. now rewrite outcome_try, outcome_bind, GO.
  - apply GT, T1.
  - intros Hr Hm. apply GT, T2; assumption.
Qed.

(** An instance. *)
Lemma dropped_file_still_gets_a_screenshot_witness :
  outcome (explain_one Worlds.model_down (py "./output") ([], 0%Z, 0%Z)
                       (py "a.ts", py "export const a = 1"))
  = Returns ([], 0%Z, 0%Z)
  /\ In (RenderImage (py "a.ts"))
        (trace (explain_one Worlds.model_down (py "./output") ([], 0%Z, 0%Z)
                            (py "a.ts", py "export const a = 1")))
  /\ In (OpenWrite (Local (py "./output/screenshots/a.png")))
        (trace (explain_one Worlds.model_down (py "./output") ([], 0%Z, 0%Z)
                            (py "a.ts", py "export const a = 1"))).
Proof.
  destruct (dropped_file_still_gets_a_screenshot
              Worlds.model_down (py "./output") ([], 0%Z, 0%Z)
              (py "a.ts") (py "export const a = 1") [] 0%Z 0%Z eq_refl)
    as (H1 & H2 & H3).
  split; [exact H1|]. split; [exact H2|]. exact (H3 eq_refl eq_refl).
Defined.

End ExplanationPipeline.

(* ===================================================================== *)
(** * The Word document *)
(* ===================================================================== *)

Module WordDocument.
Import EffFacts Totality CostReport Credentials FailFast Boundaries Observe TraceFacts.
Import CodeExplanation Entry.

#[local] Hint Resolve docx_call_no_exit add_section_no_exit resize_image_no_exit : no_exit.

Lemma bind_returns_inv {A B} (m : M A) (f : A -> M B) (b : B) :
  outcome (bind m f) = Returns b ->
  exists a, outcome m = Returns a /\ outcome (f a) = Returns b.
Proof.
  rewrite outcome_bind. destruct (outcome m) as [a| |]; try discriminate.
  intros H. now exists a.
Qed.

Lemma for_each_stops {A S} (xs : list A) (body : S -> A -> M S) (x : A) :
  In x xs ->
  (forall s s', outcome (body s x) <> Returns s') ->
  forall s s', outcome (for_each xs body s) <> Returns s'.
Proof.
  intros Hin Hx. induction xs as [|y xs IH]; [destruct Hin|].
  intros s s' H. cbn [for_each] in H.
  apply bind_returns_inv in H as (s1 & H1 & H2).
  destruct Hin as [->|Hin].
  - now apply (Hx s s1).
  - now apply (IH Hin s1 s').
Qed.

Lemma add_section_stops w explanations output_dir item e :
  path_exists w (Scan.path_join output_dir (screenshot_of item)) = true ->
  outcome (resize_image w (Scan.path_join output_dir (screenshot_of item))) = Raises e ->
  forall u u', outcome (add_section w explanations output_dir u item) <> Returns u'.
Proof.
  destruct item as [[[file_name caption] explanation] screenshot_path].
  cbn [screenshot_of]. intros Hp Hr u u' H. unfold add_section in H.
  apply bind_returns_inv in H as (? & _ & H).
  rewrite outcome_emit in H.
  apply bind_returns_inv in H as (? & H & _).
  rewrite Hp in H.
  apply bind_returns_inv in H as (? & H & _).
  rewrite Hr in H. discriminate.
Qed.

Lemma add_section_no_save w explanations output_dir u item :
  all_events no_save (add_section w explanations output_dir u item).
Proof.
  destruct item as [[[file_name caption] explanation] screenshot_path].
  unfold add_section, resize_image, docx_call. all_events_tac.
Qed.

(** X12. One screenshot that exists but cannot be measured costs the whole
    document: [create_word_document] returns [None] and nothing is
    saved. *)
Theorem unreadable_screenshot_loses_the_document
        (w : World) (explanations : list entry) (output_dir : str)
        (item : entry) (e : exn) :
  In item explanations ->
  path_exists w (Scan.path_join output_dir (screenshot_of item)) = true ->
  outcome (resize_image w (Scan.path_join output_dir (screenshot_of item))) = Raises e ->
  outcome (create_word_document w explanations output_dir) = Returns None
  /\ all_events no_save (create_word_document w explanations output_dir).
Proof.
  intros Hin Hp Hr.
  pose proof (for_each_stops explanations (add_section w explanations output_dir) item
                Hin (add_section_stops w explanations output_dir item e Hp Hr)) as Stop.
  unfold create_word_document. split.
  - rewrite outcome_try.
    match goal with |- match outcome ?m with _ => _ end = _ =>
      assert (N : no_exit m) by no_exit_tac;
      destruct (outcome m) as [r|e0|c] eqn:E
    end.
    + exfalso.
      apply bind_returns_inv in E as (? & _ & E).
      apply bind_returns_inv in E as (? & _ & E).
      apply bind_returns_inv in E as (? & _ & E).
      apply bind_returns_inv in E as (u & E & _).
      now apply (Stop tt u).
    + reflexivity.
    + unfold no_exit in N. rewrite E in N. destruct N.
  - apply all_events_try; [|intros e0; all_events_tac].
    unfold docx_call.
    apply all_events_bind; [all_events_tac|]. intros _.
    apply all_events_bind; [all_events_tac|]. intros _.
    apply all_events_bind; [all_events_tac|]. intros _.
    apply all_events_bind_outcome.
    + apply all_events_for_each. intros s x _. apply add_section_no_save.
    + intros u Hu. exfalso. now apply (Stop tt u).
Qed.

(** An instance. *)
Lemma unreadable_screenshot_loses_the_document_witness :
  outcome (create_word_document
             Worlds.output_directory_exists
             [(py "a.ts", py "A constant", py "The module exports one value.", [])]
             (py "./output"))
  = Returns None
  /\ all_events no_save
       (create_word_document
          Worlds.output_directory_exists
          [(py "a.ts", py "A constant", py "The module exports one value.", [])]
          (py "./output")).
Proof.
  apply (unreadable_screenshot_loses_the_document
           Worlds.output_directory_exists
           [(py "a.ts", py "A constant", py "The module exports one value.", [])]
           (py "./output")
           (py "a.ts", py "A constant", py "The module exports one value.", [])
           (OSError (py "Is a directory")));
    [now left | reflexivity | reflexivity].
Defined.

Lemma entry_eqb_eq (a b : entry) : entry_eqb a b = true <-> a = b.
Proof.
  destruct a as [[[a1 a2] a3] a4], b as [[[b1 b2] b3] b4]. unfold entry_eqb.
  rewrite !andb_true_iff, !ScanFacts.str_eqb_eq. split.
  - intros [[[-> ->] ->] ->]. reflexivity.
  - intros [= -> -> -> ->]. repeat split.
Qed.

(** In a list without repetitions, [index] finds an element where it is. *)
Lemma index_nodup (x : entry) (before after : list entry) :
  NoDup (before ++ x :: after) -> index x (before ++ x :: after) = List.length before.
Proof.
  induction before as [|y before IH]; intros N.
  - cbn [app index List.length].
    now rewrite (proj2 (entry_eqb_eq x x) eq_refl).
  - cbn [app] in *. inversion N as [|? ? Hy N']; subst. cbn [index List.length].
    destruct (entry_eqb y x) eqn:E.
    + apply entry_eqb_eq in E. subst y. exfalso. apply Hy.
      apply in_or_app. right. now left.
    + f_equal. now apply IH.
Qed.

Lemma docx_call_no_spacer w op :
  is_spacer (Docx op) = false -> all_events no_spacer (docx_call w op).
Proof.
  intros H. unfold docx_call. apply all_events_bind.
  - intros ev [<-|[]]. exact H.
  - intros _. apply all_events_lift.
Qed.

Lemma docx_call_returns_inv w op u :
  outcome (docx_call w op) = Returns u -> trace (docx_call w op) = [Docx op].
Proof. unfold docx_call. destruct (docx w op); [reflexivity | discriminate]. Qed.

(** The spacers after one entry: two, unless [index] puts the entry
    last. *)
Lemma add_section_spacers w explanations output_dir u item u' :
  outcome (add_section w explanations output_dir u item) = Returns u' ->
  spacers (trace (add_section w explanations output_dir u item))
  = if (index item explanations <? List.length explanations - 1)%nat then 2%nat else O.
Proof.
  destruct item as [[[file_name caption] explanation] screenshot_path].
  unfold add_section. intros H.
  apply bind_returns_inv in H as (a1 & H1 & H).
  rewrite (trace_bind_returns _ _ _ H1), spacers_app.
  rewrite spacers_quiet by (apply docx_call_no_spacer; reflexivity).
  rewrite outcome_emit in H. rewrite trace_emit.
  change (spacers (?ev :: ?t)) with (spacers t).
  apply bind_returns_inv in H as (a2 & H2 & H).
  rewrite (trace_bind_returns _ _ _ H2), spacers_app.
  rewrite spacers_quiet.
  2:{ destruct (path_exists w _); [|all_events_tac].
      unfold resize_image, docx_call. all_events_tac. }
  apply bind_returns_inv in H as (a3 & H3 & H).
  rewrite (trace_bind_returns _ _ _ H3), spacers_app.
  rewrite spacers_quiet by (apply docx_call_no_spacer; reflexivity).
  destruct (index _ explanations <? List.length explanations - 1)%nat; [|reflexivity].
  apply bind_returns_inv in H as (a4 & H4 & H5).
  rewrite (trace_bind_returns _ _ _ H4), spacers_app.
  rewrite !(docx_call_returns_inv _ _ _ H4). reflexivity.
Qed.

Lemma for_each_spacers w explanations output_dir (after : list entry) :
  forall before u u',
    explanations = before ++ after ->
    NoDup explanations ->
    outcome (for_each after (add_section w explanations output_dir) u) = Returns u' ->
    spacers (trace (for_each after (add_section w explanations output_dir) u))
    = (2 * (List.length after - 1))%nat.
Proof.
  induction after as [|item after IH]; intros before u u' E N H.
  - reflexivity.
  - cbn [for_each] in *.
    apply bind_returns_inv in H as (u1 & H1 & H2).
    rewrite (trace_bind_returns _ _ _ H1), spacers_app.
    rewrite (add_section_spacers _ _ _ _ _ _ H1).
    rewrite (IH (before ++ [item]) u1 u'); [| now rewrite <- app_assoc | exact N | exact H2].
    assert (I : index item explanations = List.length before)
      by (subst explanations; now apply index_nodup).
    rewrite I. subst explanations. rewrite length_app. cbn [List.length].
    destruct after as [|next after].
    + cbn [List.length].
      replace (List.length before <? List.length before + 1 - 1)%nat with false
        by (symmetry; apply Nat.ltb_ge; lia).
      reflexivity.
    + cbn [List.length].
      replace (List.length before <? List.length before + S (S (List.length after)) - 1)%nat
        with true by (symmetry; apply Nat.ltb_lt; lia).
      lia.
Qed.

(** X13. A document of entries that are all different gets two spacer
    paragraphs after every entry but the last, and is saved as
    [code_explanations.docx] in the output directory. *)
Theorem spacers_separate_the_entries
        (w : World) (explanations : list entry) (output_dir path : str) :
  NoDup explanations ->
  outcome (create_word_document w explanations output_dir) = Returns (Some path) ->
  path = Scan.path_join output_dir (py "code_explanations.docx")
  /\ spacers (trace (create_word_document w explanations output_dir))
     = (2 * (List.length explanations - 1))%nat
  /\ In (Docx (SaveDocument path))
        (trace (create_word_document w explanations output_dir)).
Proof.
  intros N. unfold create_word_document. rewrite outcome_try, trace_try.
  match goal with |- match outcome ?m with _ => _ end = _ -> _ =>
    destruct (outcome m) as [r|e0|c] eqn:E; [|discriminate|discriminate]
  end.
  intros [= ->]. rewrite app_nil_r.
  pose proof E as E0.
  apply bind_returns_inv in E as (a1 & H1 & E).
  apply bind_returns_inv in E as (a2 & H2 & E).
  apply bind_returns_inv in E as (a3 & H3 & E).
  apply bind_returns_inv in E as (a4 & H4 & E).
  cbv zeta in E.
  apply bind_returns_inv in E as (a5 & H5 & E).
  unfold log in E. rewrite outcome_emit in E. cbn [ret outcome fst] in E.
  injection E as <-.
  split; [reflexivity|].
  rewrite (trace_bind_returns _ _ _ H1), (trace_bind_returns _ _ _ H2),
    (trace_bind_returns _ _ _ H3), (trace_bind_returns _ _ _ H4).
  cbv zeta. rewrite (trace_bind_returns _ _ _ H5).
  rewrite (docx_call_returns_inv _ _ _ H1), (docx_call_returns_inv _ _ _ H2),
    (docx_call_returns_inv _ _ _ H3), (docx_call_returns_inv _ _ _ H5).
  split.
  - rewrite !spacers_app, (for_each_spacers w explanations output_dir explanations
                             [] tt a4 eq_refl N H4).
    cbn. lia.
  - apply in_or_app. right. apply in_or_app. right. apply in_or_app. right.
    apply in_or_app. right. apply in_or_app. left. now left.
Qed.

(** An instance. *)
Lemma spacers_separate_the_entries_witness :
  spacers (trace (create_word_document
                    Examples.healthy
                    [(py "a.ts", py "A", py "First.", py "screenshots/a.png");
                     (py "b.ts", py "B", py "Second.", py "screenshots/b.png");
                     (py "c.ts", py "C", py "Third.", py "screenshots/c.png")]
                    (py "./output")))
  = 4%nat.
Proof.
  assert (N : NoDup [(py "a.ts", py "A", py "First.", py "screenshots/a.png");
                     (py "b.ts", py "B", py "Second.", py "screenshots/b.png");
                     (py "c.ts", py "C", py "Third.", py "screenshots/c.png")])
    by (repeat constructor; cbn; intuition discriminate).
  assert (R : outcome (create_word_document
                         Examples.healthy
                         [(py "a.ts", py "A", py "First.", py "screenshots/a.png");
                          (py "b.ts", py "B", py "Second.", py "screenshots/b.png");
                          (py "c.ts", py "C", py "Third.", py "screenshots/c.png")]
                         (py "./output"))
              = Returns (Some (py "./output/code_explanations.docx")))
    by (vm_compute; reflexivity).
  exact (proj1 (proj2 (spacers_separate_the_entries
                         Examples.healthy _ (py "./output")
                         (py "./output/code_explanations.docx") N R))).
Defined.

End WordDocument.

(* ===================================================================== *)
(** * The names of the screenshots *)
(* ===================================================================== *)

Module Screenshots.
Import EffFacts Totality CostReport Boundaries Observe TraceFacts.
Import CodeExplanation.

Lemma basename_from_plain (name cur : str) :
  ~ In 47%N name -> Fs.basename_from cur name = rev cur ++ name.
Proof.
  revert cur. induction name as [|c name IH]; intros cur H.
  - cbn. now rewrite app_nil_r.
  - cbn [Fs.basename_from].
    destruct (N.eqb_spec c 47) as [->|_]; [exfalso; apply H; now left|].
    rewrite IH by (intros Hin; apply H; now right).
    cbn [rev]. now rewrite <- app_assoc.
Qed.

Lemma basename_from_after (dir name cur : str) :
  Fs.basename_from cur (dir ++ 47%N :: name) = Fs.basename_from [] name.
Proof.
  revert cur. induction dir as [|c dir IH]; intros cur.
  - cbn. reflexivity.
  - cbn [app Fs.basename_from]. destruct (c =? 47)%N; apply IH.
Qed.

(** [os.path.basename] gives back the name that [os.path.join] put after
    a directory. *)
Lemma basename_join (dir name : str) :
  ~ In 47%N name -> Fs.basename (dir ++ Fs.sep ++ name) = name.
Proof.
  intros H. unfold Fs.basename. change (Fs.sep ++ name) with (47%N :: name).
  rewrite basename_from_after. now rewrite basename_from_plain.
Qed.

Lemma create_code_screenshot_path w file_name code caption output_dir path :
  outcome (create_code_screenshot w file_name code caption output_dir) = Returns path ->
  path = []
  \/ path = Scan.path_join (py "screenshots")
                           (Fs.splitext_root (Fs.basename file_name) ++ py ".png").
Proof.
  unfold create_code_screenshot. rewrite outcome_try, outcome_emit.
  destruct (render_image w file_name code caption) as [[]|e0];
    [|cbn; intros [= <-]; now left].
  cbn [lift]. rewrite outcome_bind. cbn [outcome fst]. rewrite outcome_emit.
  destruct (makedirs w (Scan.path_join output_dir (py "screenshots"))) as [[]|e1];
    [|cbn; intros [= <-]; now left].
  cbn [lift]. rewrite outcome_bind. cbn [outcome fst]. rewrite outcome_emit.
  destruct (open_write w _) as [[]|e2]; cbn; intros [= <-]; [now right | now left].
Qed.

(** X14. The screenshot of a source file is named after the base name of the
    file alone: two files of the same name in different directories get
    the same screenshot file, and the second run over it replaces the
    first. *)
Theorem screenshots_of_equal_names_collide
        (w : World) (dir1 dir2 name code1 code2 caption1 caption2 output_dir : str)
        (path1 path2 : str) :
  ~ In 47%N name ->
  outcome (create_code_screenshot w (dir1 ++ Fs.sep ++ name) code1 caption1 output_dir)
  = Returns path1 ->
  outcome (create_code_screenshot w (dir2 ++ Fs.sep ++ name) code2 caption2 output_dir)
  = Returns path2 ->
  path1 <> [] -> path2 <> [] ->
  path1 = path2
  /\ path1 = Scan.path_join (py "screenshots") (Fs.splitext_root name ++ py ".png").
Proof.
  intros Hn H1 H2 N1 N2.
  apply create_code_screenshot_path in H1 as [->|H1]; [congruence|].
  apply create_code_screenshot_path in H2 as [->|H2]; [congruence|].
  rewrite basename_join in H1, H2 by exact Hn. split; congruence.
Qed.

(** An instance. *)
Lemma screenshots_of_equal_names_collide_witness :
  outcome (create_code_screenshot Examples.healthy (py "src/users/index.ts")
             (py "export const users = 1") (py "Users") (py "./output"))
  = Returns (py "screenshots/index.png")
  /\ outcome (create_code_screenshot Examples.healthy (py "src/orders/index.ts")
                (py "export const orders = 2") (py "Orders") (py "./output"))
     = Returns (py "screenshots/index.png")
  /\ py "screenshots/index.png" = py "screenshots/index.png"
  /\ py "screenshots/index.png"
     = Scan.path_join (py "screenshots") (Fs.splitext_root (py "index.ts") ++ py ".png").
Proof.
  split; [reflexivity|]. split; [reflexivity|].
  apply (screenshots_of_equal_names_collide
           Examples.healthy (py "src/users") (py "src/orders") (py "index.ts")
           (py "export const users = 1") (py "export const orders = 2")
           (py "Users") (py "Orders") (py "./output"));
    [cbv; intuition discriminate | reflexivity | reflexivity
     | discriminate | discriminate].
Defined.

End Screenshots.

(* ===================================================================== *)
(** * The response parser on any response *)
(* ===================================================================== *)

Module Parsing.
Import StrFacts CodeExplanation.











End Parsing.

(* ===================================================================== *)
(** * The two scans side by side *)
(* ===================================================================== *)

Module TwoScans.
Import EffFacts ScanSpec ScanFacts ClassDiagramScan CodeExplanationScan DiagramPayload.
Import Totality StrFacts.

Lemma filter_flat_map {A B} (P : B -> bool) (f : A -> list B) (xs : list A) :
  filter P (flat_map f xs) = flat_map (fun x => filter P (f x)) xs.
Proof.
  induction xs as [|x xs IH]; [reflexivity|].
  cbn [flat_map]. now rewrite filter_app, IH.
Qed.

Lemma flat_map_ext_in {A B} (f g : A -> list B) (xs : list A) :
  (forall x, In x xs -> f x = g x) -> flat_map f xs = flat_map g xs.
Proof.
  induction xs as [|x xs IH]; intros H; [reflexivity|].
  cbn [flat_map]. rewrite (H x (or_introl eq_refl)), IH; [reflexivity|].
  intros y Hy. apply H. now right.
Qed.

(** A character that a prefix does not hold does not help to find it. *)
Lemma startswith_before (p a r : str) (c : N) :
  ~ In c p -> startswith (a ++ c :: r) p = startswith a p.
Proof.
  revert a. induction p as [|x p IH]; intros a H.
  - now rewrite !startswith_nil.
  - destruct a as [|y a].
    + cbn [app]. rewrite startswith_cons.
      destruct (N.eqb_spec x c) as [->|_]; [exfalso; apply H; now left | reflexivity].
    + cbn [app]. rewrite !startswith_cons, IH; [reflexivity|].
      intros Hin. apply H. now right.
Qed.

Lemma join_last (rel : list str) (file : str) :
  join Fs.sep (rel ++ [file]) = file
  \/ exists before, join Fs.sep (rel ++ [file]) = before ++ 47%N :: file.
Proof.
  induction rel as [|d rel IH].
  - now left.
  - right. cbn [app join].
    destruct (rel ++ [file]) as [|x l] eqn:E; [now destruct rel|].
    destruct IH as [IH|[before IH]]; rewrite IH.
    + exists d. reflexivity.
    + exists (d ++ Fs.sep ++ before). now rewrite <- !app_assoc.
Qed.

(** A path ends in [.ts] exactly when its last component does. *)
Lemma endswith_relpath (rel : list str) (file : str) :
  endswith (Fs.relpath (rel ++ [file])) (py ".ts") = endswith file (py ".ts").
Proof.
  unfold Fs.relpath.
  destruct (rel ++ [file]) as [|x l] eqn:E; [now destruct rel|]. rewrite <- E.
  destruct (join_last rel file) as [->|[before ->]]; [reflexivity|].
  unfold endswith. rewrite rev_app_distr. cbn [rev]. rewrite <- app_assoc.
  cbn [app]. apply startswith_before. cbv. intuition discriminate.
Qed.

Lemma accepted_entry_shape allow spec rel entry a :
  In a (accepted_entry allow spec rel entry) ->
  path_of a = Fs.relpath (rel ++ [name_of a]).
Proof.
  destruct entry as [file data]. unfold accepted_entry.
  destruct (allow file && negb (PathSpec.match_file spec _)); [|intros []].
  destruct data; [|intros []]. intros [<-|[]]. reflexivity.
Qed.

Lemma accepted_shape allow spec w a :
  In a (accepted allow spec w) ->
  endswith (path_of a) (py ".ts") = ClassDiagram.is_ts (name_of a).
Proof.
  unfold accepted, accepted_on. intros H.
  apply in_flat_map in H as ([rel files] & _ & H). unfold accepted_step in H.
  destruct (Scan.skipped_dir rel || PathSpec.match_file spec (Fs.relpath rel));
    [destruct H|].
  apply in_flat_map in H as (entry & _ & H).
  rewrite (accepted_entry_shape _ _ _ _ _ H). apply endswith_relpath.
Qed.

(** Among the [.ts] files, the two allow-lists accept the same. *)
Lemma accepted_entry_ts spec rel entry :
  filter (fun a => ClassDiagram.is_ts (name_of a))
         (accepted_entry diagram_input spec rel entry)
  = filter (fun a => ClassDiagram.is_ts (name_of a))
           (accepted_entry CodeExplanation.is_source spec rel entry).
Proof.
  destruct entry as [file data]. unfold accepted_entry, CodeExplanation.is_source.
  rewrite ClassDiagramScan.diagram_input_allow.
  destruct (ClassDiagram.is_ts file) eqn:T.
  - unfold ClassDiagram.is_ts in T. rewrite T, orb_true_r. reflexivity.
  - assert (F : forall b : bool, filter (fun a : accepted_file => ClassDiagram.is_ts (name_of a))
                            (if b then match data with
                                       | Ok content =>
                                           [(file, Fs.relpath (rel ++ [file]), content)]
                                       | Raise _ => []
                                       end
                             else []) = []).
    { intros [|]; [|reflexivity]. destruct data; [|reflexivity].
      cbn [filter name_of fst]. now rewrite T. }
    now rewrite !F.
Qed.

Lemma accepted_ts spec w :
  filter (fun a => ClassDiagram.is_ts (name_of a)) (accepted diagram_input spec w)
  = filter (fun a => ClassDiagram.is_ts (name_of a))
           (accepted CodeExplanation.is_source spec w).
Proof.
  unfold accepted, accepted_on. rewrite !filter_flat_map.
  apply flat_map_ext_in. intros [rel files] _. unfold accepted_step.
  destruct (Scan.skipped_dir rel || PathSpec.match_file spec (Fs.relpath rel));
    [reflexivity|].
  unfold accepted_in. rewrite !filter_flat_map.
  apply flat_map_ext_in. intros entry _. apply accepted_entry_ts.
Qed.

Lemma filter_map_swap {A B} (P : B -> bool) (g : A -> B) (xs : list A) :
  filter P (map g xs) = map g (filter (fun x => P (g x)) xs).
Proof.
  induction xs as [|x xs IH]; [reflexivity|].
  cbn [map filter]. destruct (P (g x)); cbn [map]; now rewrite IH.
Qed.

(** X16. The two scans of one project agree on its [.ts] files: the
    TypeScript text of the class diagram is made, in the same order, of the
    [.ts] files that the code explanations are written for (which cover
    the [.tsx] files besides). *)
Theorem the_two_scans_agree_on_ts_files
        (w : World) (directory : str)
        (ts prisma : str) (fl : list str) (files : list (str * str)) :
  outcome (ClassDiagram.read_project_files w directory) = Returns (ts, prisma, fl) ->
  outcome (CodeExplanation.read_typescript_files w directory) = Returns files ->
  ts = List.concat
         (map (fun f => ClassDiagram.section (fst f) (snd f))
              (filter (fun f => endswith (fst f) (py ".ts")) files))
  /\ filter (fun p => endswith p (py ".ts")) fl
     = map fst (filter (fun f => endswith (fst f) (py ".ts")) files).
Proof.
  intros H1 H2.
  pose proof (get_gitignore_spec_no_exit w) as N. unfold no_exit in N.
  destruct (outcome (Scan.get_gitignore_spec w)) as [spec|e|c] eqn:G.
  2:{ unfold ClassDiagram.read_project_files in H1.
      rewrite outcome_bind, G in H1. discriminate. }
  2:{ destruct N. }
  rewrite (read_project_files_payload w directory spec G) in H1.
  rewrite (read_typescript_files_outcome w directory spec G) in H2.
  injection H1 as <- _ <-. injection H2 as <-.
  assert (E : filter (fun f : str * str => endswith (fst f) (py ".ts"))
                (map (fun a => (path_of a, content_of a))
                     (accepted CodeExplanation.is_source spec w))
              = map (fun a => (path_of a, content_of a))
                    (filter (fun a => ClassDiagram.is_ts (name_of a))
                            (accepted diagram_input spec w))).
  { rewrite filter_map_swap. cbn [fst]. rewrite accepted_ts. f_equal.
    apply filter_ext_in. intros a Ha. now apply accepted_shape in Ha. }
  rewrite E. split.
  - unfold typescript_payload. now rewrite map_map.
  - rewrite filter_map_swap, map_map. cbn [fst]. f_equal.
    apply filter_ext_in. intros a Ha. now apply accepted_shape in Ha.
Qed.

(** An instance. *)
Lemma the_two_scans_agree_on_ts_files_witness :
  exists ts prisma fl files,
    outcome (ClassDiagram.read_project_files Examples.healthy (py "/srv/project"))
    = Returns (ts, prisma, fl)
    /\ outcome (CodeExplanation.read_typescript_files Examples.healthy (py "/srv/project"))
       = Returns files
    /\ fl = [py "a.ts"; py "keep.gen.ts"; py "schema.prisma"; py "src/schema.prisma"]
    /\ map fst files = [py "a.ts"; py "keep.gen.ts"; py "src/t.tsx"]
    /\ ts = List.concat
              (map (fun f => ClassDiagram.section (fst f) (snd f))
                   (filter (fun f => endswith (fst f) (py ".ts")) files))
    /\ filter (fun p => endswith p (py ".ts")) fl
       = map fst (filter (fun f => endswith (fst f) (py ".ts")) files).
Proof.
  do 4 eexists.
  split; [vm_compute; reflexivity|]. split; [vm_compute; reflexivity|].
  split; [reflexivity|]. split; [reflexivity|].
  eapply (the_two_scans_agree_on_ts_files Examples.healthy (py "/srv/project"));
    vm_compute; reflexivity.
Defined.

End TwoScans.

(* ===================================================================== *)
(** * The directories a scan lists *)
(* ===================================================================== *)

Module Listings.
Import EffFacts ScanSpec ScanFacts Totality Credentials Observe.

Lemma get_gitignore_spec_no_listing w : all_events no_listing (Scan.get_gitignore_spec w).
Proof. unfold Scan.get_gitignore_spec. all_events_tac. Qed.

Lemma diagram_read_one_no_listing d s rel st entry :
  all_events no_listing (ClassDiagram.read_one d s rel st entry).
Proof. destruct entry. unfold ClassDiagram.read_one. all_events_tac. Qed.

Lemma explanation_read_one_no_listing d s rel fs entry :
  all_events no_listing (CodeExplanation.read_one d s rel fs entry).
Proof. destruct entry. unfold CodeExplanation.read_one. all_events_tac. Qed.

Lemma diagram_visit_lists d s st rel files rel' :
  In (ListDir rel') (trace (ClassDiagram.visit d s st (rel, files))) -> rel' = rel.
Proof.
  unfold ClassDiagram.visit. rewrite TraceFacts.trace_emit. intros [[= ->]|H]; [reflexivity|].
  exfalso.
  assert (Q : all_events no_listing
                (if Scan.skipped_dir rel then ret st
                 else if PathSpec.match_file s (Fs.relpath rel) then ret st
                      else for_each files (ClassDiagram.read_one d s rel) st)).
  { destruct (Scan.skipped_dir rel); [all_events_tac|].
    destruct (PathSpec.match_file s (Fs.relpath rel)); [all_events_tac|].
    apply all_events_for_each. intros ? ? _. apply diagram_read_one_no_listing. }
  specialize (Q _ H). discriminate.
Qed.

Lemma explanation_visit_lists d s fs rel files rel' :
  In (ListDir rel') (trace (CodeExplanation.visit d s fs (rel, files))) -> rel' = rel.
Proof.
  unfold CodeExplanation.visit. rewrite TraceFacts.trace_emit.
  intros [[= ->]|H]; [reflexivity|].
  exfalso.
  assert (Q : all_events no_listing
                (if Scan.skipped_dir rel then ret fs
                 else if PathSpec.match_file s (Fs.relpath rel) then ret fs
                      else for_each files (CodeExplanation.read_one d s rel) fs)).
  { destruct (Scan.skipped_dir rel); [all_events_tac|].
    destruct (PathSpec.match_file s (Fs.relpath rel)); [all_events_tac|].
    apply all_events_for_each. intros ? ? _. apply explanation_read_one_no_listing. }
  specialize (Q _ H). discriminate.
Qed.

Lemma kept_components (rel : list str) (d : str) :
  forallb Scan.keep_dir rel = true -> In d rel -> ~ In d Scan.pruned_names.
Proof.
  intros K Hd Hp. rewrite forallb_forall in K. specialize (K d Hd).
  unfold Scan.keep_dir in K. apply negb_true_iff in K.
  apply str_in_In in Hp. congruence.
Qed.

(** X17. Neither scan lists a directory named [.git], [node_modules], [dist]
    or [build], or any directory below one: the walk does not enter
    them. *)
Theorem pruned_directories_are_never_listed
        (w : World) (directory : str) (rel : list str) (d : str) :
  In (ListDir rel) (trace (ClassDiagram.read_project_files w directory))
  \/ In (ListDir rel) (trace (CodeExplanation.read_typescript_files w directory)) ->
  In d rel ->
  ~ In d [py ".git"; py "node_modules"; py "dist"; py "build"].
Proof.
  intros H Hd. apply (kept_components rel d); [|exact Hd].
  destruct H as [H|H].
  - unfold ClassDiagram.read_project_files in H.
    apply in_trace_bind in H as [H|(spec & _ & H)].
    { pose proof (get_gitignore_spec_no_listing w _ H). discriminate. }
    apply in_trace_bind in H as [H|(st & _ & H)].
    + apply in_trace_for_each in H as ([rel0 files] & st' & Hin & H).
      apply diagram_visit_lists in H. subst rel0.
      apply (walk_project_kept w _ Hin).
    + cbn in H. destruct H as [H|[]]. discriminate.
  - unfold CodeExplanation.read_typescript_files in H.
    apply in_trace_bind in H as [H|(spec & _ & H)].
    { pose proof (get_gitignore_spec_no_listing w _ H). discriminate. }
    apply in_trace_bind in H as [H|(st & _ & H)].
    + apply in_trace_for_each in H as ([rel0 files] & st' & Hin & H).
      apply explanation_visit_lists in H. subst rel0.
      apply (walk_project_kept w _ Hin).
    + cbn in H. destruct H as [H|[]]. discriminate.
Qed.

(** An instance. *)
Lemma pruned_directories_are_never_listed_witness :
  In (ListDir [py "tests"; py "deep"])
     (trace (ClassDiagram.read_project_files Examples.healthy (py "/srv/project")))
  /\ ~ In (py "deep") [py ".git"; py "node_modules"; py "dist"; py "build"].
Proof.
  assert (H : In (ListDir [py "tests"; py "deep"])
                 (trace (ClassDiagram.read_project_files Examples.healthy
                           (py "/srv/project")))).
  { vm_compute. do 7 right. now left. }
  split; [exact H|].
  apply (pruned_directories_are_never_listed
           Examples.healthy (py "/srv/project") [py "tests"; py "deep"] (py "deep")
           (or_introl H)).
  right. now left.
Defined.

End Listings.

(* ===================================================================== *)
(** * The report of the use-case script *)
(* ===================================================================== *)

Module UseCaseReport.
Import EffFacts Observe TraceFacts.
Import UseCase.

Lemma analyze_file_cases (w : World) (file_path : str) :
  (exists content analysis,
      read_text w file_path = Ok content
      /\ analyze_file w file_path = (Returns analysis, [OpenRead (Local file_path)]))
  \/ (exists e,
         read_text w file_path = Raise e
         /\ analyze_file w file_path = (Raises e, [OpenRead (Local file_path)])).
Proof.
  unfold analyze_file. destruct (read_text w file_path) as [content|e].
  - left. exists content. cbn [lift]. cbv zeta.
    destruct (contains (Fs.basename file_path) (py "Controller")).
    + eexists. split; reflexivity.
    + destruct (str_eqb (Fs.basename file_path) (py "schema.prisma"));
        eexists; split; reflexivity.
  - right. exists e. split; reflexivity.
Qed.

(** The calls of [f.write] that [save_use_case] makes: the four chunks
    of the report in order, up to the first call that fails. *)
Lemma save_use_case_cases (w : World) (file_path use_case : str) (n : Z) :
  let path := Scan.path_join OUTPUT_DIR
                (py "use_case_" ++ Fs.splitext_root (Fs.basename file_path)
                 ++ py ".md") in
  (writes (trace (save_use_case w file_path use_case n)) = []
   \/ exists cost k,
       estimated_cost n = Ok cost
       /\ (1 <= k <= 4)%nat
       /\ writes (trace (save_use_case w file_path use_case n))
          = firstn k
              (map (pair (Local path))
                 [use_case;
                  nl ++ nl ++ py "---" ++ nl ++ nl;
                  py "Token usage: " ++ str_of_int n ++ nl;
                  py "Estimated cost: $" ++ format_4f w cost])
       /\ (forall j, (j + 1 < k)%nat ->
             write_text w path
               (nth j [use_case;
                       nl ++ nl ++ py "---" ++ nl ++ nl;
                       py "Token usage: " ++ str_of_int n ++ nl;
                       py "Estimated cost: $" ++ format_4f w cost] []) = Ok tt)
       /\ ((k < 4)%nat ->
           exists e,
             write_text w path
               (nth (k - 1) [use_case;
                             nl ++ nl ++ py "---" ++ nl ++ nl;
                             py "Token usage: " ++ str_of_int n ++ nl;
                             py "Estimated cost: $" ++ format_4f w cost] [])
             = Raise e
             /\ outcome (save_use_case w file_path use_case n) = Raises e))
  /\ invocations (trace (save_use_case w file_path use_case n)) = O.
Proof.
  cbv zeta. unfold save_use_case, write, rich_print.
  destruct (makedirs w OUTPUT_DIR) as [[]|e0]; [|split; [now left | reflexivity]].
  cbn [lift]. cbv zeta.
  destruct (estimated_cost n) as [cost|e1]; [|split; [now left | reflexivity]].
  cbn [lift bind emit].
  destruct (open_write w _) as [[]|e2]; [|split; [now left | reflexivity]].
  destruct (write_text w _ use_case) as [[]|e3] eqn:W1.
  2:{ split; [|reflexivity]. right. exists cost, 1%nat.
      split; [reflexivity|]. split; [lia|]. split; [reflexivity|].
      split; [intros j Hj; lia|]. intros _. exists e3. split; [exact W1 | reflexivity]. }
  destruct (write_text w _ (nl ++ nl ++ py "---" ++ nl ++ nl)) as [[]|e4] eqn:W2.
  2:{ split; [|reflexivity]. right. exists cost, 2%nat.
      split; [reflexivity|]. split; [lia|]. split; [reflexivity|].
      split; [intros [|j] Hj; [exact W1 | lia]|].
      intros _. exists e4. split; [exact W2 | reflexivity]. }
  destruct (write_text w _ (py "Token usage: " ++ str_of_int n ++ nl))
    as [[]|e5] eqn:W3.
  2:{ split; [|reflexivity]. right. exists cost, 3%nat.
      split; [reflexivity|]. split; [lia|]. split; [reflexivity|].
      split; [intros [|[|j]] Hj; [exact W1 | exact W2 | lia]|].
      intros _. exists e5. split; [exact W3 | reflexivity]. }
  assert (F : forall j, (j + 1 < 4)%nat ->
                write_text w
                  (Scan.path_join OUTPUT_DIR
                     (py "use_case_" ++ Fs.splitext_root (Fs.basename file_path)
                      ++ py ".md"))
                  (nth j [use_case;
                          nl ++ nl ++ py "---" ++ nl ++ nl;
                          py "Token usage: " ++ str_of_int n ++ nl;
                          py "Estimated cost: $" ++ format_4f w cost] []) = Ok tt).
  { intros [|[|[|j]]] Hj; [exact W1 | exact W2 | exact W3 | lia]. }
  destruct (write_text w _ (py "Estimated cost: $" ++ format_4f w cost)) as [[]|e6].
  2:{ split; [|reflexivity]. right. exists cost, 4%nat.
      split; [reflexivity|]. split; [lia|]. split; [reflexivity|].
      split; [exact F | lia]. }
  destruct (console_render w _) as [[]|e7].
  2:{ split; [|reflexivity]. right. exists cost, 4%nat.
      split; [reflexivity|]. split; [lia|]. split; [reflexivity|].
      split; [exact F | lia]. }
  destruct (console_render w _) as [[]|e8];
    (split; [|reflexivity]; right; exists cost, 4%nat;
     split; [reflexivity|]; split; [lia|]; split; [reflexivity|];
     split; [exact F | lia]).
Qed.

Lemma generate_use_case_cases (w : World) (analysis : str) :
  (exists response n,
      invoke w [analysis] = Ok response
      /\ get_num_tokens w (format_prompt w [analysis] ++ response) = Ok n
      /\ generate_use_case w analysis
         = (Returns (response, n),
            [Invoke [analysis]; CountTokens (format_prompt w [analysis] ++ response)]))
  \/ (exists e t,
         generate_use_case w analysis = (Raises e, t)
         /\ writes t = [] /\ (invocations t <= 1)%nat).
Proof.
  unfold generate_use_case. destruct (invoke w [analysis]) as [response|e0].
  - cbn [lift]. cbv zeta.
    destruct (get_num_tokens w (format_prompt w [analysis] ++ response)) as [n|e1] eqn:T.
    + left. exists response, n. split; [reflexivity|]. split; [exact T|].
      cbn. now rewrite T.
    + right. do 2 eexists. split; [cbn; rewrite T; reflexivity|].
      split; [reflexivity | cbn; lia].
  - right. do 2 eexists. split; [reflexivity|]. split; [reflexivity | cbn; lia].
Qed.

(** X18. The use-case script starts its report only when all went well
    before: the key is set, the file was read, the model answered and the
    tokenizer counted. Its calls of [f.write] are the answer, a rule, the
    token count and the estimated cost, in this order, in
    [./output/use_case_<stem>.md]: all four unless one of the first three
    fails, and then none after the one that failed, and the script ends in
    its exception. The model is called at most once, and only after the file
    was read. *)
Theorem use_case_report_is_written_last (w : World) :
  (writes (trace (main w)) = []
   \/ exists analysis response n cost k,
       missing (environ w (py "ANTHROPIC_API_KEY")) = false
       /\ outcome (analyze_file w (argv_file_path w)) = Returns analysis
       /\ invoke w [analysis] = Ok response
       /\ get_num_tokens w (format_prompt w [analysis] ++ response) = Ok n
       /\ estimated_cost n = Ok cost
       /\ (1 <= k <= 4)%nat
       /\ writes (trace (main w))
          = firstn k
              (map (pair (Local (Scan.path_join OUTPUT_DIR
                                   (py "use_case_"
                                    ++ Fs.splitext_root (Fs.basename (argv_file_path w))
                                    ++ py ".md"))))
                 [response;
                  nl ++ nl ++ py "---" ++ nl ++ nl;
                  py "Token usage: " ++ str_of_int n ++ nl;
                  py "Estimated cost: $" ++ format_4f w cost])
       /\ (forall j, (j + 1 < k)%nat ->
             write_text w
               (Scan.path_join OUTPUT_DIR
                  (py "use_case_" ++ Fs.splitext_root (Fs.basename (argv_file_path w))
                   ++ py ".md"))
               (nth j [response;
                       nl ++ nl ++ py "---" ++ nl ++ nl;
                       py "Token usage: " ++ str_of_int n ++ nl;
                       py "Estimated cost: $" ++ format_4f w cost] []) = Ok tt)
       /\ ((k < 4)%nat ->
           exists e,
             write_text w
               (Scan.path_join OUTPUT_DIR
                  (py "use_case_" ++ Fs.splitext_root (Fs.basename (argv_file_path w))
                   ++ py ".md"))
               (nth (k - 1) [response;
                             nl ++ nl ++ py "---" ++ nl ++ nl;
                             py "Token usage: " ++ str_of_int n ++ nl;
                             py "Estimated cost: $" ++ format_4f w cost] [])
             = Raise e
             /\ outcome (main w) = Raises e))
  /\ (invocations (trace (main w)) <= 1)%nat
  /\ (invocations (trace (main w)) = 1%nat ->
      missing (environ w (py "ANTHROPIC_API_KEY")) = false
      /\ exists content, read_text w (argv_file_path w) = Ok content).
Proof.
  unfold main, initialize_llm. cbv zeta.
  destruct (missing (environ w (py "ANTHROPIC_API_KEY"))) eqn:K.
  { cbn. split; [now left|]. split; [lia | discriminate]. }
  destruct (new_client w ANTHROPIC_MODEL (environ w (py "ANTHROPIC_API_KEY")))
    as [[]|e0].
  2:{ cbn. split; [now left|]. split; [lia | discriminate]. }
  destruct (analyze_file_cases w (argv_file_path w))
    as [(content & analysis & R & A)|(e1 & R & A)].
  2:{ rewrite A. cbn. split; [now left|]. split; [lia | discriminate]. }
  assert (O : outcome (analyze_file w (argv_file_path w)) = Returns analysis)
    by now rewrite A.
  rewrite trace_print, outcome_print.
  rewrite (trace_bind_returns (emit (NewClient ANTHROPIC_MODEL) ;; lift (Ok tt)) _ tt
             eq_refl).
  rewrite (outcome_bind_returns (emit (NewClient ANTHROPIC_MODEL) ;; lift (Ok tt)) _ tt
             eq_refl).
  rewrite (trace_bind_returns _ _ _ O), (outcome_bind_returns _ _ _ O), A.
  change (trace (emit (NewClient ANTHROPIC_MODEL) ;; lift (Ok tt)))
    with [NewClient ANTHROPIC_MODEL].
  cbn [trace snd app].
  rewrite trace_rich_print, outcome_rich_print.
  destruct (console_render w (py "[yellow]Analyzing:[/yellow] " ++ argv_file_path w))
    as [[]|e2].
  2:{ cbn. split; [now left|]. split; [lia | discriminate]. }
  rewrite trace_rich_print, outcome_rich_print.
  destruct (console_render w analysis) as [[]|e3].
  2:{ cbn. split; [now left|]. split; [lia | discriminate]. }
  destruct (generate_use_case_cases w analysis)
    as [(response & n & I & T & G)|(e4 & t & G & GW & GI)].
  2:{ rewrite G. cbn [bind outcome fst trace snd].
      unfold writes, invocations in *.
      cbn [flat_map app filter is_network List.length]. rewrite GW.
      split; [now left|].
      split; [exact GI|]. intros _. split; [reflexivity | now exists content]. }
  rewrite (trace_bind_returns _ _ (response, n)) by now rewrite G.
  rewrite (outcome_bind_returns _ _ (response, n)) by now rewrite G.
  rewrite G. cbn [trace snd app]. cbv beta iota.
  destruct (save_use_case_cases w (argv_file_path w) response n) as [SW SI].
  cbv zeta in SW.
  set (ts := trace (save_use_case w (argv_file_path w) response n)) in *.
  clearbody ts.
  unfold invocations in *. cbn [filter is_network List.length]. rewrite SI.
  split; [|split; [lia | intros _; split; [reflexivity | now exists content]]].
  unfold writes in *. cbn [flat_map app].
  destruct SW as [SW|(cost & k & C & Hk & SW & Hok & Hfail)]; [now left|].
  right. exists analysis, response, n, cost, k. repeat split; try assumption; lia.
Qed.

(** An answer that the file's encoding lacks: the first call of
    [f.write] fails, the report is left empty and the script ends in the
    exception. *)
Example a_report_that_cannot_be_encoded :
  writes (trace (main Worlds.unwritable_answer))
  = [(Local (py "./output/use_case_UserController.md"), Examples.caption_response)]
  /\ outcome (main Worlds.unwritable_answer)
     = Raises (ValueError (py "'ascii' codec can't encode character")).
Proof. split; vm_compute; reflexivity. Qed.

End UseCaseReport.

(* ===================================================================== *)
(** * Where the cost is defined *)
(* ===================================================================== *)

Module CostDomain.
Import FloatSpec Rounding FloatFacts CostOrder CostLimit.
#[local] Open Scope Z_scope.

Lemma int_truediv_at_first_overflow :
  int_truediv first_overflow 1000000
  = Raise (OverflowError (py "integer division result too large for a float")).
Proof. vm_compute. reflexivity. Qed.

Lemma int_truediv_below_first_overflow :
  exists q, int_truediv (first_overflow - 1) 1000000 = Ok q.
Proof. vm_compute. eexists. reflexivity. Qed.

Lemma first_overflow_positive : 0 < first_overflow.
Proof. vm_compute. reflexivity. Qed.

(** The division by a million is defined exactly below [first_overflow]. *)
Lemma int_truediv_domain (i : Z) :
  0 <= i ->
  (i < first_overflow -> exists q, int_truediv i 1000000 = Ok q)
  /\ (first_overflow <= i ->
      int_truediv i 1000000
      = Raise (OverflowError (py "integer division result too large for a float"))).
Proof.
  intros Hi. split.
  - intros Hlt. destruct int_truediv_below_first_overflow as [q' Hq'].
    destruct (int_truediv_downward i (first_overflow - 1) q' ltac:(lia) Hq')
      as (q & Hq & _).
    now exists q.
  - intros Hge. destruct (int_truediv i 1000000) as [q|e] eqn:E.
    + exfalso. pose proof first_overflow_positive.
      destruct (int_truediv_downward first_overflow i q ltac:(lia) E) as (q0 & Hq0 & _).
      rewrite int_truediv_at_first_overflow in Hq0. discriminate.
    + revert E. unfold int_truediv. change (1000000 =? 0) with false. cbv iota.
      destruct (is_infinite _); [intros [= <-]; reflexivity | discriminate].
Qed.

(** X2. For non-negative token counts, [calculate_cost] returns a cost
    exactly when both counts are below [(2^1024 - 2^970) * 10^6]; from
    there on the division raises [OverflowError]. *)
Theorem calculate_cost_is_defined_below_the_overflow (i o : Z) :
  0 <= i -> 0 <= o ->
  ((exists c, calculate_cost i o = Ok c) <-> i < first_overflow /\ o < first_overflow)
  /\ (first_overflow <= i \/ first_overflow <= o ->
      calculate_cost i o
      = Raise (OverflowError (py "integer division result too large for a float"))).
Proof.
  intros Hi Ho.
  destruct (int_truediv_domain i Hi) as [Di Ri].
  destruct (int_truediv_domain o Ho) as [Do Ro].
  split; [split|].
  - intros [c Hc]. apply calculate_cost_inv in Hc as (qi & qo & Hqi & Hqo & _).
    split.
    + destruct (Z.lt_ge_cases i first_overflow) as [L|G]; [exact L|].
      rewrite (Ri G) in Hqi. discriminate.
    + destruct (Z.lt_ge_cases o first_overflow) as [L|G]; [exact L|].
      rewrite (Ro G) in Hqo. discriminate.
  - intros [Li Lo]. destruct (Di Li) as [qi Hqi]. destruct (Do Lo) as [qo Hqo].
    unfold calculate_cost. rewrite Hqi, Hqo. eexists. reflexivity.
  - intros [G|G]; unfold calculate_cost.
    + now rewrite (Ri G).
    + rewrite (Ro G).
      destruct (Z.lt_ge_cases i first_overflow) as [L|G'].
      * destruct (Di L) as [qi ->]. reflexivity.
      * now rewrite (Ri G').
Qed.

(** An instance. *)
Lemma calculate_cost_is_defined_below_the_overflow_witness :
  ((exists c, calculate_cost 12000 3000 = Ok c)
   <-> 12000 < first_overflow /\ 3000 < first_overflow)
  /\ (first_overflow <= 12000 \/ first_overflow <= 3000 ->
      calculate_cost 12000 3000
      = Raise (OverflowError (py "integer division result too large for a float"))).
Proof.
  apply (calculate_cost_is_defined_below_the_overflow 12000 3000); lia.
Defined.

End CostDomain.

(* ===================================================================== *)
(** * The estimate of the use-case script *)
(* ===================================================================== *)

Module Estimate.
Import FloatSpec Rounding FloatFacts CostOrder CostLimit.
#[local] Open Scope Z_scope.

(** The quotient of a non-negative [int] by a thousand. *)
Lemma SFdiv_thousand_spec (i : Z) :
  0 <= i ->
  normal (-62) (SFdiv prec emax (of_int i) (of_int 1000))
  /\ scaled (SFdiv prec emax (of_int i) (of_int 1000)) = thousandth_spec i.
Proof.
  intros Hi. unfold thousandth_spec.
  destruct i as [|p|p]; [split; reflexivity | | lia].
  change (Z.pos p =? 0) with false. cbv iota.
  cbn [of_int SFdiv xorb].
  unfold SFdiv_core_binary.
  set (d1 := Zdigits2 (Z.pos p)).
  replace (Zdigits2 1000) with 10 by reflexivity.
  destruct (Zdigits2_bounds (Zpos p) ltac:(lia)) as [Blo Bhi]. fold d1 in Blo, Bhi.
  assert (Hd1 : 1 <= d1) by (unfold d1; cbn; lia).
  replace (d1 + 0 - (10 + 0)) with (d1 - 10) by lia.
  replace (fexp prec emax (d1 - 10)) with (d1 - 63)
    by (unfold fexp, emin, prec, emax; lia).
  replace (0 - 0) with 0 by lia.
  set (e' := Z.min (d1 - 63) 0).
  set (s := 0 - e').
  assert (Hs : 0 <= s) by (unfold s, e'; lia).
  set (m' := match s with
             | 0 => Z.pos p
             | Z.pos _ => Z.shiftl (Z.pos p) s
             | Z.neg _ => 0
             end).
  assert (Em' : m' = Zpos p * 2 ^ s).
  { unfold m'. destruct s as [|ps|ps]; [lia | | lia].
    now rewrite Z.shiftl_mul_pow2 by lia. }
  clearbody m'.
  assert (HPs : 0 < 2 ^ s) by (apply Z.pow_pos_nonneg; lia).
  assert (Hbig : 2 ^ 62 <= m').
  { rewrite Em'. destruct (Z.le_gt_cases d1 63) as [L|G].
    - replace 62 with ((d1 - 1) + s) by (unfold s, e'; lia).
      rewrite Z.pow_add_r by lia. nia.
    - assert (2 ^ 62 <= 2 ^ (d1 - 1)) by (apply Z.pow_le_mono_r; lia). nia. }
  rewrite div_eucl_pair.
  assert (Ee : 0 <= e' + 1074) by (unfold e'; lia).
  assert (Hloc : located_rec (Zpos p * 2 ^ 1074) (1000 * 2 ^ (e' + 1074))
                   (shr_record_of_loc (m' / 1000)
                                      (new_location 1000 (m' mod 1000)))).
  { replace (Zpos p * 2 ^ 1074) with (m' * 2 ^ (e' + 1074)).
    - apply located_division; [lia | reflexivity | lia | apply Z.pow_pos_nonneg; lia].
    - rewrite Em', <- Z.mul_assoc, <- Z.pow_add_r by lia. f_equal. f_equal.
      unfold s. lia. }
  assert (Hq : 2 ^ 52 <= m' / 1000).
  { apply Z.div_le_lower_bound; [lia|].
    apply Z.le_trans with (2 ^ 62); [|exact Hbig]. vm_compute. discriminate. }
  destruct (binary_round_aux_spec (m' / 1000) e'
              (new_location 1000 (m' mod 1000))
              (Zpos p * 2 ^ 1074) 1000) as [Hn Hv].
  - lia.
  - unfold e'. lia.
  - apply (Zdigits2_lower _ 52); [lia | exact Hq].
  - exact Hloc.
  - split; [|exact Hv].
    apply normal_weaken with (L := e'); [unfold e'; lia | exact Hn].
Qed.

Lemma thousandth_spec_mono i i' : 0 <= i <= i' -> thousandth_spec i <= thousandth_spec i'.
Proof.
  intros [Hi Hii']. unfold thousandth_spec.
  assert (Hbase : 2 ^ 52 * 1000 <= 2 ^ 1074) by (vm_compute; discriminate).
  assert (HT : 0 < TOP) by (vm_compute; reflexivity).
  set (W := 2 ^ 1074) in *. clearbody W.
  destruct (Z.eqb_spec i 0) as [E|N]; destruct (Z.eqb_spec i' 0) as [E'|N']; try lia.
  - assert (Hn : 2 ^ 52 * 1000 <= i' * W).
    { apply Z.le_trans with (1 * W); [lia|]. apply Z.mul_le_mono_nonneg_r; lia. }
    destruct (normal_quotient (i' * W) 1000 ltac:(lia) Hn) as [Hk Hb].
    pose proof (RNZ_range (i' * W) 1000 _ ltac:(lia) Hk Hb) as Hr.
    assert (0 < 2 ^ (Zdigits2 (i' * W / 1000) - 1))
      by (apply Z.pow_pos_nonneg; lia).
    lia.
  - apply Z.min_le_compat_r. apply RNZ_mono; [lia|]. split.
    + apply Z.le_trans with (1 * W); [lia|]. apply Z.mul_le_mono_nonneg_r; lia.
    + apply Z.mul_le_mono_nonneg_r; lia.
Qed.

Lemma int_truediv_thousand i q :
  0 <= i -> int_truediv i 1000 = Ok q ->
  normal (-62) q /\ scaled q = thousandth_spec i /\ scaled q < TOP.
Proof.
  intros Hi. unfold int_truediv. change (1000 =? 0) with false. cbv iota.
  destruct (SFdiv_thousand_spec i Hi) as [Hn Hs].
  set (q0 := SFdiv prec emax (of_int i) (of_int 1000)) in *. clearbody q0.
  destruct (is_infinite q0) eqn:Einf; [discriminate|].
  intros [= <-]. split; [exact Hn|]. split; [exact Hs|].
  assert (HT : 0 < TOP) by (vm_compute; reflexivity).
  destruct (normal_cases (-62) q0 ltac:(lia) Hn)
    as [[_ H]|[[-> _]|(m & e & _ & _ & _ & H)]]; [lia | discriminate | lia].
Qed.

Lemma int_truediv_thousand_defined i :
  0 <= i -> thousandth_spec i < TOP ->
  int_truediv i 1000 = Ok (SFdiv prec emax (of_int i) (of_int 1000)).
Proof.
  intros Hi Hfin. unfold int_truediv. change (1000 =? 0) with false. cbv iota.
  destruct (SFdiv_thousand_spec i Hi) as [Hn Hs].
  set (q0 := SFdiv prec emax (of_int i) (of_int 1000)) in *. clearbody q0.
  destruct (normal_cases (-62) q0 ltac:(lia) Hn)
    as [[-> _]|[[_ H]|(m & e & -> & _)]]; [reflexivity | lia | reflexivity].
Qed.

Lemma int_truediv_thousand_downward i i' q' :
  0 <= i <= i' -> int_truediv i' 1000 = Ok q' ->
  exists q, int_truediv i 1000 = Ok q
    /\ normal (-62) q /\ normal (-62) q'
    /\ scaled q < TOP /\ scaled q' < TOP /\ scaled q <= scaled q'.
Proof.
  intros Hi H'.
  destruct (int_truediv_thousand i' q' ltac:(lia) H') as (Hn' & Hs' & Hf').
  pose proof (thousandth_spec_mono i i' Hi) as Hm.
  assert (Hfin : thousandth_spec i < TOP) by lia.
  pose proof (int_truediv_thousand_defined i ltac:(lia) Hfin) as Hq.
  destruct (int_truediv_thousand i _ ltac:(lia) Hq) as (Hn & Hs & Hf).
  eexists. split; [exact Hq|]. repeat split; try assumption. lia.
Qed.

(** X3. The estimate of the use-case script, [(token_usage / 1000) * 0.002]
    in floats, is zero for zero tokens, never negative, and never
    smaller for more tokens; where it is defined for a count, it is
    defined for every smaller one. *)
Theorem estimated_cost_is_monotone (i i' : Z) (c' : float) :
  0 <= i <= i' ->
  estimated_cost i' = Ok c' ->
  estimated_cost 0 = Ok zero
  /\ exists c, estimated_cost i = Ok c /\ fleb zero c = true /\ fleb c c' = true.
Proof.
  intros Hi H'. split; [reflexivity|].
  unfold estimated_cost in H'.
  destruct (int_truediv i' 1000) as [q'|e] eqn:Q'; [|discriminate].
  injection H' as <-.
  destruct (int_truediv_thousand_downward i i' q' Hi Q')
    as (q & Hq & N & N' & F & F' & L).
  exists (fmul q PRICE_PER_1K_TOKENS). split; [unfold estimated_cost; now rewrite Hq|].
  destruct (fmul_rate_mono (-62) q q' 4611686018427388 (-61)
              ltac:(lia) ltac:(lia)
              ltac:(split; [vm_compute; discriminate | vm_compute; reflexivity])
              N N' F F' L) as (Na & Na' & La).
  change (S754_finite false 4611686018427388 (-61)) with PRICE_PER_1K_TOKENS in *.
  split.
  - apply (fleb_scaled (-62 + -61)); [lia | exact I | exact Na |].
    change (scaled zero) with 0. apply (scaled_nonneg (-62 + -61)); [lia | exact Na].
  - apply (fleb_scaled (-62 + -61)); [lia | exact Na | exact Na' | exact La].
Qed.

(** An instance. *)
Lemma estimated_cost_is_monotone_witness :
  estimated_cost 0 = Ok zero
  /\ exists c, estimated_cost 15000 = Ok c
               /\ fleb zero c = true /\ fleb c (literal 4 2) = true.
Proof.
  apply (estimated_cost_is_monotone 15000 20000 (literal 4 2));
    [lia | vm_compute; reflexivity].
Defined.

End Estimate.

(* ===================================================================== *)
(** * The lexer of a screenshot *)
(* ===================================================================== *)

Module LexerChoice.
Import Screenshots Lexer.

Lemma drop_ext_rev_found (ext rest : str) :
  ~ In 46%N ext -> Fs.drop_ext_rev (ext ++ 46%N :: rest) = Some rest.
Proof.
  induction ext as [|c ext IH]; intros H.
  - reflexivity.
  - cbn [app Fs.drop_ext_rev].
    destruct (N.eqb_spec c 46) as [->|_]; [exfalso; apply H; now left|].
    apply IH. intros Hin. apply H. now right.
Qed.

(** [os.path.splitext] cuts a name at its last dot. *)
Lemma splitext_root_ext (c : N) (stem ext : str) :
  c <> 46%N -> ~ In 46%N ext ->
  Fs.splitext_root ((c :: stem) ++ 46%N :: ext) = c :: stem.
Proof.
  intros Hc He. unfold Fs.splitext_root.
  cbn [app Fs.leading_dots]. destruct (N.eqb_spec c 46) as [E|_]; [contradiction|].
  cbn [skipn firstn].
  change (c :: stem ++ 46%N :: ext) with ((c :: stem) ++ 46%N :: ext).
  set (name := c :: stem). clearbody name.
  rewrite rev_app_distr. cbn [rev]. rewrite <- app_assoc. cbn [app].
  rewrite drop_ext_rev_found by (rewrite <- in_rev; exact He).
  cbn [app]. apply rev_involutive.
Qed.

Lemma splitext_ext_of (dir : str) (c : N) (stem ext : str) :
  c <> 46%N -> ~ In 47%N (c :: stem) -> ~ In 46%N ext -> ~ In 47%N ext ->
  splitext_ext (dir ++ Fs.sep ++ (c :: stem) ++ 46%N :: ext) = 46%N :: ext.
Proof.
  intros Hc Hs He Hx. unfold splitext_ext. cbv zeta.
  rewrite basename_join.
  - rewrite splitext_root_ext by assumption. apply StrFacts.skipn_app_exact.
  - intros Hin. apply in_app_or in Hin as [Hin|[Hin|Hin]];
      [now apply Hs | discriminate | now apply Hx].
Qed.

(** X19. A [.tsx] or [.jsx] file is always highlighted as JavaScript, whatever
    lexers are installed; a [.ts] file gets the lexer registered for [ts],
    and the JavaScript lexer when there is none. *)
Theorem tsx_is_highlighted_as_javascript
        (known : str -> bool) (dir : str) (c : N) (stem : str) :
  c <> 46%N -> ~ In 47%N (c :: stem) ->
  get_lexer_for_file known (dir ++ Fs.sep ++ (c :: stem) ++ py ".tsx") = JavascriptLexer
  /\ get_lexer_for_file known (dir ++ Fs.sep ++ (c :: stem) ++ py ".jsx") = JavascriptLexer
  /\ get_lexer_for_file known (dir ++ Fs.sep ++ (c :: stem) ++ py ".ts")
     = if known (py "ts") then ByName (py "ts") else JavascriptLexer.
Proof.
  intros Hc Hs. unfold get_lexer_for_file. cbv zeta.
  change (py ".tsx") with (46%N :: py "tsx").
  change (py ".jsx") with (46%N :: py "jsx").
  change (py ".ts") with (46%N :: py "ts").
  rewrite !splitext_ext_of by (assumption || (cbv; intuition discriminate)).
  repeat split.
Qed.

(** An instance. *)
Lemma tsx_is_highlighted_as_javascript_witness :
  get_lexer_for_file (fun alias => str_eqb alias (py "ts")) (py "src/App.tsx")
  = JavascriptLexer
  /\ get_lexer_for_file (fun alias => str_eqb alias (py "ts")) (py "src/App.jsx")
     = JavascriptLexer
  /\ get_lexer_for_file (fun alias => str_eqb alias (py "ts")) (py "src/App.ts")
     = ByName (py "ts").
Proof.
  apply (tsx_is_highlighted_as_javascript
           (fun alias => str_eqb alias (py "ts")) (py "src") 65%N (py "pp"));
    [discriminate | cbv; intuition discriminate].
Defined.

End LexerChoice.

(* ===================================================================== *)
(** * The size of a picture in the document *)
(* ===================================================================== *)

Module Resizing.
Import EffFacts TraceFacts WordDocument.
Import CodeExplanation.

(** X20. [resize_image] never makes a picture higher: the new height is the
    old one, cut at 792 (nine inches of 88 dots). A picture of height 0
    ends it in [ZeroDivisionError], a picture that cannot be opened in the
    error of [Image.open]. *)
Theorem resize_image_caps_the_height (w : World) (image_path : str) :
  (forall new_width new_height,
      outcome (resize_image w image_path) = Returns (new_width, new_height) ->
      exists width height,
        image_size w image_path = Ok (width, height)
        /\ height <> 0%Z
        /\ new_height = Z.min height 792
        /\ (new_height <= 792)%Z /\ (new_height <= height)%Z)
  /\ (forall width,
         image_size w image_path = Ok (width, 0%Z) ->
         outcome (resize_image w image_path)
         = Raises (ZeroDivisionError (py "division by zero")))
  /\ (forall e,
         image_size w image_path = Raise e ->
         outcome (resize_image w image_path) = Raises e).
Proof.
  unfold resize_image. split; [|split].
  - intros nw nh. rewrite outcome_emit, outcome_bind, outcome_lift.
    destruct (image_size w image_path) as [[width height]|e]; [|discriminate].
    rewrite outcome_bind, outcome_lift.
    destruct (Z.eqb_spec height 0) as [->|Hh]; [discriminate|].
    destruct (int_truediv width height) as [ratio|e]; [|discriminate].
    cbv zeta. rewrite outcome_bind, outcome_lift.
    destruct (int_of_float _) as [nw0|e]; [|discriminate].
    cbn. intros [= <- <-]. exists width, height.
    change (9 * 88)%Z with 792%Z. repeat split; [exact Hh | lia | lia].
  - intros width H. now rewrite outcome_emit, outcome_bind, outcome_lift, H.
  - intros e H. now rewrite outcome_emit, outcome_bind, outcome_lift, H.
Qed.

End Resizing.

(* ===================================================================== *)
(** * The files a scan returns *)
(* ===================================================================== *)

Module ScanComplete.
Import EffFacts ScanSpec ScanFacts ClassDiagramScan CodeExplanationScan DiagramPayload.
Import Totality Tree.

Lemma walk_head keep pre t : In (pre, Fs.files_of t) (Fs.walk keep pre t).
Proof. destruct t. now left. Qed.

Lemma walk_descends keep pre files dirs name sub step :
  In (name, sub) dirs -> keep name = true ->
  In step (Fs.walk keep (pre ++ [name]) sub) ->
  In step (Fs.walk keep pre (Fs.Dir files dirs)).
Proof.
  intros Hin K Hs. cbn [Fs.walk]. right.
  induction dirs as [|[n s] dirs IH]; [destruct Hin|].
  destruct Hin as [[= -> ->]|Hin].
  - rewrite K. apply in_or_app. now left.
  - destruct (keep n); [apply in_or_app; right|]; now apply IH.
Qed.

Lemma walk_reaches keep (rel : list str) :
  forall t pre fs,
    forallb keep rel = true -> In fs (dirs_at rel t) ->
    In (pre ++ rel, fs) (Fs.walk keep pre t).
Proof.
  induction rel as [|name rel IH]; intros t pre fs K H.
  - cbn in H. destruct H as [<-|[]]. rewrite app_nil_r. apply walk_head.
  - cbn [forallb] in K. apply andb_true_iff in K as [Kn Kr].
    cbn [dirs_at] in H. apply in_flat_map in H as ([n sub] & Hd & H).
    cbn [fst snd] in H. destruct (str_eqb n name) eqn:E; [|destruct H].
    apply str_eqb_eq in E. subst n.
    destruct t as [files dirs]. cbn [Fs.dirs_of] in Hd.
    apply (walk_descends keep pre files dirs name sub _ Hd Kn).
    replace (pre ++ name :: rel) with ((pre ++ [name]) ++ rel)
      by now rewrite <- app_assoc.
    now apply IH.
Qed.

Lemma walk_only_reaches keep (t : Fs.tree) :
  forall pre step,
    In step (Fs.walk keep pre t) ->
    exists rel, fst step = pre ++ rel /\ forallb keep rel = true
                /\ In (snd step) (dirs_at rel t).
Proof.
  induction t as [files dirs IH] using tree_induction.
  intros pre step Hin. cbn [Fs.walk] in Hin. destruct Hin as [<-|Hin].
  - exists []. rewrite app_nil_r. repeat split. now left.
  - assert (G : exists name sub,
               In (name, sub) dirs /\ keep name = true
               /\ In step (Fs.walk keep (pre ++ [name]) sub)).
    { clear IH. induction dirs as [|[n s] dirs IHd]; [destruct Hin|].
      destruct (keep n) eqn:K.
      - apply in_app_or in Hin as [Hin|Hin].
        + exists n, s. repeat split; [now left | exact K | exact Hin].
        + destruct (IHd Hin) as (name & sub & H1 & H2 & H3).
          exists name, sub. repeat split; [now right | exact H2 | exact H3].
      - destruct (IHd Hin) as (name & sub & H1 & H2 & H3).
        exists name, sub. repeat split; [now right | exact H2 | exact H3]. }
    destruct G as (name & sub & Hd & K & Hs).
    rewrite Forall_forall in IH. specialize (IH (name, sub) Hd (pre ++ [name]) step Hs).
    cbn [snd] in IH. destruct IH as (rel & E & F & D).
    exists (name :: rel). rewrite E, <- app_assoc. split; [reflexivity|].
    split; [cbn [forallb]; now rewrite K, F|].
    cbn [dirs_at Fs.dirs_of]. apply in_flat_map. exists (name, sub).
    split; [exact Hd|]. cbn [fst snd].
    now rewrite (proj2 (str_eqb_eq name name) eq_refl).
Qed.

(** [os.walk], pruned, reaches exactly the directories all of whose
    names were kept. *)
Lemma walk_project_iff (w : World) (rel : list str) (fs : list (str * result str)) :
  In (rel, fs) (Scan.walk_project w)
  <-> forallb Scan.keep_dir rel = true /\ In fs (listings w rel).
Proof.
  unfold Scan.walk_project, listings. destruct (tree w) as [t|]; [|cbn; tauto].
  split.
  - intros H. apply walk_only_reaches in H as (rel' & E & F & D).
    cbn [fst snd app] in *. subst rel'. now split.
  - intros [F D]. now apply (walk_reaches Scan.keep_dir rel t []).
Qed.

Lemma not_in_str_in (x : str) (xs : list str) : str_in x xs = false <-> ~ In x xs.
Proof.
  rewrite <- str_in_In. destruct (str_in x xs); split; intros; congruence.
Qed.

Lemma clean_path_iff (rel : list str) :
  forallb Scan.keep_dir rel = true /\ Scan.skipped_dir rel = false
  <-> forall d, In d rel -> ~ In d excluded_names.
Proof.
  unfold excluded_names, Scan.skipped_dir, Fs.relpath_parts. split.
  - intros [K S] d Hd Hx. apply in_app_or in Hx as [Hx|Hx].
    + rewrite forallb_forall in K. specialize (K d Hd).
      unfold Scan.keep_dir in K. apply negb_true_iff, not_in_str_in in K. contradiction.
    + destruct rel as [|r rel]; [destruct Hd|].
      apply orb_false_iff in S as [S S3]. apply orb_false_iff in S as [S1 S2].
      apply not_in_str_in in S1, S2, S3.
      destruct Hx as [<-|[<-|[<-|[]]]]; contradiction.
  - intros H. split.
    + apply forallb_forall. intros d Hd. unfold Scan.keep_dir.
      apply negb_true_iff, not_in_str_in. intros Hx.
      apply (H d Hd). apply in_or_app. now left.
    + destruct rel as [|r rel]; [reflexivity|].
      rewrite !orb_false_iff, !not_in_str_in. repeat split; intros Hx;
        apply (H _ Hx); apply in_or_app; right; cbn; tauto.
Qed.

Lemma accepted_entry_iff allow spec rel entry file path content :
  In (file, path, content) (accepted_entry allow spec rel entry)
  <-> entry = (file, Ok content)
      /\ path = Fs.relpath (rel ++ [file])
      /\ allow file = true
      /\ PathSpec.match_file spec (Fs.relpath (rel ++ [file])) = false.
Proof.
  destruct entry as [f data]. unfold accepted_entry. split.
  - destruct (allow f) eqn:A; [|intros []].
    destruct (PathSpec.match_file spec (Fs.relpath (rel ++ [f]))) eqn:Mf; [intros []|].
    cbn [andb negb]. destruct data as [c|e]; [|intros []].
    intros [[= <- <- <-]|[]]. repeat split; assumption.
  - intros ([= -> ->] & -> & A & Mf). rewrite A, Mf. cbn. now left.
Qed.

(** What a scan accepts, read off the tree: the eligible files. *)
Lemma accepted_iff allow spec w file path content :
  In (file, path, content) (accepted allow spec w)
  <-> exists rel, path = Fs.relpath (rel ++ [file])
                  /\ eligible allow spec w rel file content.
Proof.
  unfold accepted, accepted_on, eligible. rewrite in_flat_map. split.
  - intros ([rel files] & Hw & Ha). unfold accepted_step in Ha.
    destruct (Scan.skipped_dir rel) eqn:S; [destruct Ha|].
    destruct (PathSpec.match_file spec (Fs.relpath rel)) eqn:Md; [destruct Ha|].
    cbn [orb] in Ha. unfold accepted_in in Ha.
    apply in_flat_map in Ha as (entry & He & Ha).
    apply accepted_entry_iff in Ha as (-> & -> & A & Mf).
    apply walk_project_iff in Hw as [K L].
    exists rel. split; [reflexivity|]. split; [now exists files|].
    split; [now apply clean_path_iff|]. repeat split; assumption.
  - intros (rel & -> & (listing & L & He) & C & A & Md & Mf).
    apply clean_path_iff in C as [K S].
    exists (rel, listing). split; [now apply walk_project_iff|].
    unfold accepted_step. rewrite S, Md. cbn [orb]. unfold accepted_in.
    apply in_flat_map. exists (file, Ok content). split; [exact He|].
    now apply accepted_entry_iff.
Qed.

(** X21. Both scans return exactly the eligible files: a file is returned if
    and only if it can be read, has an allowed name, lies below no
    directory called [.git], [node_modules], [dist], [build], [tests],
    [seeders] or [config], and neither its directory nor the file itself
    matches the ignore rules. *)
Theorem scans_return_exactly_the_eligible_files
        (w : World) (directory : str) (spec : PathSpec.spec) :
  outcome (Scan.get_gitignore_spec w) = Returns spec ->
  (exists files,
      outcome (CodeExplanation.read_typescript_files w directory) = Returns files
      /\ forall path content,
          In (path, content) files
          <-> exists rel file,
              path = Fs.relpath (rel ++ [file])
              /\ eligible CodeExplanation.is_source spec w rel file content)
  /\ (exists ts prisma fl,
         outcome (ClassDiagram.read_project_files w directory) = Returns (ts, prisma, fl)
         /\ forall path,
             In path fl
             <-> exists rel file content,
                 path = Fs.relpath (rel ++ [file])
                 /\ eligible diagram_input spec w rel file content).
Proof.
  intros G. split.
  - eexists. split; [apply (read_typescript_files_outcome w directory spec G)|].
    intros path content. rewrite in_map_iff. split.
    + intros ([[file p] c] & [= <- <-] & Ha).
      apply accepted_iff in Ha as (rel & E & El). now exists rel, file.
    + intros (rel & file & E & El).
      exists (file, path, content). split; [reflexivity|].
      apply accepted_iff. now exists rel.
  - do 3 eexists. split; [apply (read_project_files_payload w directory spec G)|].
    intros path. rewrite in_map_iff. split.
    + intros ([[file p] c] & <- & Ha).
      apply accepted_iff in Ha as (rel & E & El). now exists rel, file, c.
    + intros (rel & file & content & E & El).
      exists (file, path, content). split; [reflexivity|].
      apply accepted_iff. now exists rel.
Qed.

(** An instance. *)
Lemma scans_return_exactly_the_eligible_files_witness :
  (exists files,
      outcome (CodeExplanation.read_typescript_files
                 Examples.empty_completion (py "/srv/project")) = Returns files
      /\ forall path content,
          In (path, content) files
          <-> exists rel file,
              path = Fs.relpath (rel ++ [file])
              /\ eligible CodeExplanation.is_source [] Examples.empty_completion
                          rel file content)
  /\ (exists ts prisma fl,
         outcome (ClassDiagram.read_project_files
                    Examples.empty_completion (py "/srv/project"))
         = Returns (ts, prisma, fl)
         /\ forall path,
             In path fl
             <-> exists rel file content,
                 path = Fs.relpath (rel ++ [file])
                 /\ eligible diagram_input [] Examples.empty_completion
                             rel file content).
Proof.
  apply (scans_return_exactly_the_eligible_files
           Examples.empty_completion (py "/srv/project") []).
  reflexivity.
Defined.

End ScanComplete.
